(** * Shared-media list widget (info/media/info_media_list_widget.cpp)

    A shallow embedding of the list engine of the shared-media view:
    the message-id conversion, the date-bucketed [Section]s with their
    grid/column geometry, the selection maps and the drag-selection
    step, the item-removed handler and the viewer callback.

    Conventions.
    - C++ [int] values are modelled by [Z]; [/] and [%] are the C++
      truncating operators ([Z.quot], [Z.rem]).  The 32-bit message id
      arithmetic of [GetUniversalId]/[computeFullId] has its wrap-around
      written out ([int32]); pixel arithmetic is left unbounded.
    - A failed [Expects]/[Assert] terminates the program: functions that
      contain one return [option], [None] standing for the abort.
    - [base::flat_map] is a vector of pairs kept sorted by its comparator
      and is modelled as such ([flat_map]); [_layouts] is a hash map and
      is modelled by [gmap].
    - Constants and collaborators that live outside this file (style
      values, the message store, the layout classes) are fields of the
      classes [Style] and [Host]. *)

From Stdlib Require Import ZArith Lia Bool String.
From stdpp Require Import base option list gmap sorting.

#[local] Open Scope Z_scope.

(** ** Qt value types *)

Record QPoint := mkPoint { px : Z; py : Z }.
Record QSize := mkSize { sw : Z; sh : Z }.
Record QRect := mkRect { rx : Z; ry : Z; rw : Z; rh : Z }.
Record QDate := mkDate { year : Z; month : Z; day : Z }.
Record QMargins := mkMargins { mleft : Z; mtop : Z; mright : Z; mbottom : Z }.

#[global] Instance QPoint_eq_dec : EqDecision QPoint.
Proof. solve_decision. Defined.

#[global] Instance QSize_eq_dec : EqDecision QSize.
Proof. solve_decision. Defined.

#[global] Instance QRect_eq_dec : EqDecision QRect.
Proof. solve_decision. Defined.

Definition point_sub (a b : QPoint) : QPoint :=
  mkPoint (px a - px b) (py a - py b).

Definition manhattanLength (p : QPoint) : Z := Z.abs (px p) + Z.abs (py p).

Definition topLeft (r : QRect) : QPoint := mkPoint (rx r) (ry r).
Definition rect_size (r : QRect) : QSize := mkSize (rw r) (rh r).
Definition translated (r : QRect) (dx dy : Z) : QRect :=
  mkRect (rx r + dx) (ry r + dy) (rw r) (rh r).

(** [QRect] keeps the corners [x1, y1, x2 = x1 + w - 1, y2 = y1 + h - 1];
    [contains] orders each pair when the rectangle is inverted. *)
Definition span_contains (c1 c2 v : Z) : bool :=
  let '(l, r) := if c2 <? c1 - 1 then (c2, c1) else (c1, c2) in
  negb ((v <? l) || (r <? v)).

Definition rect_contains (r : QRect) (p : QPoint) : bool :=
  span_contains (rx r) (rx r + rw r - 1) (px p)
  && span_contains (ry r) (ry r + rh r - 1) (py p).

(** ** Message identifiers *)

Definition int32 (z : Z) : Z := (z + 2 ^ 31) `mod` 2 ^ 32 - 2 ^ 31.
Definition is_int32 (z : Z) : Prop := - 2 ^ 31 <= z < 2 ^ 31.

Abbreviation MsgId := Z (only parsing).
Abbreviation ChannelId := Z (only parsing).
Abbreviation UniversalMsgId := Z (only parsing).

Definition NoChannel : ChannelId := 0.
Definition ServerMaxMsgId : MsgId := 0x3FFFFFFF.

Record FullMsgId := mkFullMsgId { channel : ChannelId; msg : MsgId }.

#[global] Instance FullMsgId_eq_dec : EqDecision FullMsgId.
Proof. solve_decision. Defined.

Record PeerData := mkPeer {
  peer_id : Z;
  isChannel : bool;
  bareId : ChannelId }.

Definition GetUniversalId (itemId : FullMsgId) : UniversalMsgId :=
  if negb (channel itemId =? 0)
  then msg itemId
  else int32 (msg itemId - ServerMaxMsgId).

(** ** base::flat_map

    A vector of (key, value) pairs sorted by [cmp] (std::less<> for the
    selection maps, std::greater<> for the items of a Section); every
    lookup walks to the lower bound of the key and compares there. *)

Module flat_map.
Section ops.
Context {V : Type} (cmp : Z -> Z -> bool).

Fixpoint find (k : Z) (m : list (Z * V)) : option V :=
  match m with
  | [] => None
  | (k', v') :: m' =>
      if cmp k' k then find k m'
      else if cmp k k' then None else Some v'
  end.

(** [emplace]/[try_emplace]: the map and whether the pair went in. *)
Fixpoint emplace (k : Z) (v : V) (m : list (Z * V)) : list (Z * V) * bool :=
  match m with
  | [] => ([(k, v)], true)
  | (k', v') :: m' =>
      if cmp k' k then
        let '(r, ok) := emplace k v m' in ((k', v') :: r, ok)
      else if cmp k k' then ((k, v) :: m, true) else (m, false)
  end.

(** [erase(find(k))] / [remove(k)]. *)
Fixpoint erase (k : Z) (m : list (Z * V)) : list (Z * V) :=
  match m with
  | [] => []
  | (k', v') :: m' =>
      if cmp k' k then (k', v') :: erase k m'
      else if cmp k k' then m else m'
  end.

(** Assignment through the iterator [find] returned. *)
Fixpoint assign (k : Z) (v : V) (m : list (Z * V)) : list (Z * V) :=
  match m with
  | [] => []
  | (k', v') :: m' =>
      if cmp k' k then (k', v') :: assign k v m'
      else if cmp k k' then m else (k', v) :: m'
  end.

Definition keys (m : list (Z * V)) : list Z := map fst m.

Fixpoint sorted (m : list (Z * V)) : Prop :=
  match m with
  | [] => True
  | (k, _) :: m' =>
      match m' with
      | [] => True
      | (k', _) :: _ => cmp k k' = true
      end /\ sorted m'
  end.

End ops.
End flat_map.

(** ** ranges::lower_bound

    The halving search over a random-access range; [pred x] is
    [comp (proj x) value].  The result is an index, [length l] for
    [end()]. *)

Fixpoint lower_bound_n {A} (fuel : nat) (pred : A -> bool) (l : list A)
    (first count : nat) : nat :=
  match fuel with
  | O => first
  | S fuel' =>
      match count with
      | O => first
      | _ =>
          let half := Nat.div2 count in
          match l !! (first + half)%nat with
          | Some x =>
              if pred x
              then lower_bound_n fuel' pred l (first + half + 1) (count - (half + 1))
              else lower_bound_n fuel' pred l first half
          | None => first
          end
      end
  end.

Definition lower_bound {A} (pred : A -> bool) (l : list A) : nat :=
  lower_bound_n (length l) pred l 0 (length l).

(** The same search when the projection carries an [Expects]. *)
Fixpoint lower_bound_opt_n {A} (fuel : nat) (pred : A -> option bool)
    (l : list A) (first count : nat) : option nat :=
  match fuel with
  | O => Some first
  | S fuel' =>
      match count with
      | O => Some first
      | _ =>
          let half := Nat.div2 count in
          match l !! (first + half)%nat with
          | Some x =>
              b ← pred x;
              if b : bool
              then lower_bound_opt_n fuel' pred l (first + half + 1) (count - (half + 1))
              else lower_bound_opt_n fuel' pred l first half
          | None => Some first
          end
      end
  end.

Definition lower_bound_opt {A} (pred : A -> option bool) (l : list A)
    : option nat :=
  lower_bound_opt_n (length l) pred l 0 (length l).

(** ** Messages, layouts and the collaborators of the widget *)

(** [Storage::SharedMediaType], the enumerators this file switches on. *)
Inductive MediaType :=
  Photo | Video | MusicFile | File | VoiceFile | Link | RoundFile.

(** What [item->getMedia()] offers to [createLayout]: a photo, a media
    with a document, or a media with neither. *)
Inductive HistoryMedia := MediaPhoto | MediaDocument | MediaOther.

#[global] Instance MediaType_eq_dec : EqDecision MediaType.
Proof. solve_decision. Defined.

#[global] Instance HistoryMedia_eq_dec : EqDecision HistoryMedia.
Proof. solve_decision. Defined.

Record HistoryItem := mkItem {
  fullId : FullMsgId;
  date : QDate;
  history_peer : Z;
  canDelete : bool;
  canForward : bool;
  getMedia : option HistoryMedia }.

(** The [Overview::Layout] classes [createLayout] instantiates. *)
Inductive LayoutKind :=
  LayoutPhoto | LayoutVideo | LayoutDocument | LayoutVoice | LayoutLink.

(** [BaseLayout] ([Overview::Layout::ItemBase]): the message it shows and
    the geometry the Section writes into it.  [layout_width] is the width
    of the last [resizeGetHeight] call. *)
Record BaseLayout := mkLayout {
  layout_kind : LayoutKind;
  getItem : HistoryItem;
  layout_width : Z;
  height : Z;
  position : Z }.

Definition setPosition (l : BaseLayout) (p : Z) : BaseLayout :=
  mkLayout (layout_kind l) (getItem l) (layout_width l) (height l) p.

Definition GetUniversalId_layout (l : BaseLayout) : UniversalMsgId :=
  GetUniversalId (fullId (getItem l)).

Record TextSelection := mkSel { sel_from : Z; sel_to : Z }.

#[global] Instance TextSelection_eq_dec : EqDecision TextSelection.
Proof. solve_decision. Defined.

Definition FullSelection : TextSelection := mkSel 0xFFFF 0xFFFF.

Inductive TextSelectType := Letters | Words | Paragraphs.

#[global] Instance TextSelectType_eq_dec : EqDecision TextSelectType.
Proof. solve_decision. Defined.

Inductive HistoryCursorState :=
  HistoryDefaultCursorState | HistoryInTextCursorState
| HistoryInDateCursorState | HistoryInForwardedCursorState.

#[global] Instance HistoryCursorState_eq_dec : EqDecision HistoryCursorState.
Proof. solve_decision. Defined.

(** [HistoryTextState]; [link] is the click handler under the cursor. *)
Record HistoryTextState := mkTextState {
  ts_link : option Z;
  ts_afterSymbol : bool;
  ts_symbol : Z;
  ts_cursor : HistoryCursorState }.

(** Style constants ([st::...], styles/style_info.h). *)
Class Style := {
  infoMediaSkip : Z;
  infoMediaMinGridSize : Z;
  infoMediaHeaderHeight : Z;
  infoMediaHeaderPosition : QPoint;
  infoMediaMargin : QMargins }.

(** What the widget asks of the rest of the application: the selection
    cap (config.h), the message store, the language pack, the layout
    classes' measuring and hit-testing, and the toolkit. *)
Class Host := {
  MaxSelectedItems : Z;
  histItemById : FullMsgId -> option HistoryItem;
  langMonthFull : QDate -> string;
  langDayOfMonthFull : QDate -> string;
  layoutResizeGetHeight : LayoutKind -> HistoryItem -> Z -> Z;
  layoutGetState : BaseLayout -> QPoint -> bool -> HistoryTextState;
  layoutAdjustSelection :
    BaseLayout -> TextSelection -> TextSelectType -> TextSelection;
  startDragDistance : Z;
  mapFromGlobal : QPoint -> QPoint }.

(** [item->resizeGetHeight(width)]. *)
Definition resizeGetHeight {host : Host} (l : BaseLayout) (w : Z) : BaseLayout :=
  mkLayout (layout_kind l) (getItem l) w
    (layoutResizeGetHeight (layout_kind l) (getItem l) w) (position l).

(** Modelled from the spec: [floorclamp] (core/utils.h) is not among the
    sources; the hit test clamps a column shift with it: the quotient
    [value / step] brought into [lowest, highest]. *)
Definition floorclamp (value step lowest highest : Z) : Z :=
  Z.min (Z.max (value `quot` step) lowest) highest.

Record FoundItem := mkFound {
  found_layout : BaseLayout;
  found_geometry : QRect;
  found_exact : bool }.

(** ** ListWidget::Section *)

Module MSection.

Abbreviation Items := (list (UniversalMsgId * BaseLayout)).

Record t := mkSection {
  _type : MediaType;
  _header : string;
  _items : Items;
  _itemsLeft : Z;
  _itemsTop : Z;
  _itemWidth : Z;
  _itemsInRow : Z;
  _rowsCount : Z;
  _top : Z;
  _height : Z }.

(** [Section(Type type)]. *)
Definition create (type : MediaType) : t :=
  mkSection type EmptyString [] 0 0 0 1 0 0 0.

Definition with_items (s : t) (items : Items) : t :=
  mkSection (_type s) (_header s) items (_itemsLeft s) (_itemsTop s)
    (_itemWidth s) (_itemsInRow s) (_rowsCount s) (_top s) (_height s).

Definition empty (s : t) : bool :=
  match _items s with [] => true | _ => false end.

Definition minId (s : t) : option UniversalMsgId :=
  fst <$> last (_items s).

Definition maxId (s : t) : option UniversalMsgId :=
  fst <$> head (_items s).

Definition setTop (s : t) (top : Z) : t :=
  mkSection (_type s) (_header s) (_items s) (_itemsLeft s) (_itemsTop s)
    (_itemWidth s) (_itemsInRow s) (_rowsCount s) top (_height s).

(** [top()] and [height()] read [_top] and [_height]. *)
Definition bottom (s : t) : Z := _top s + _height s.

Section with_env.
Context {sty : Style} {host : Host}.

Definition headerHeight (s : t) : Z :=
  match _header s with
  | EmptyString => 0
  | _ => infoMediaHeaderHeight
  end.

Definition setHeader (s : t) (item : BaseLayout) : t :=
  let date := date (getItem item) in
  let text :=
    match _type s with
    | Photo | Video | RoundFile | VoiceFile | File => langMonthFull date
    | Link => langDayOfMonthFull date
    | MusicFile => EmptyString
    end in
  mkSection (_type s) text (_items s) (_itemsLeft s) (_itemsTop s)
    (_itemWidth s) (_itemsInRow s) (_rowsCount s) (_top s) (_height s).

Definition belongsHere (s : t) (item : BaseLayout) : option bool :=
  back ← last (_items s);
  let myDate := date (getItem back.2) in
  let date := date (getItem item) in
  Some
    match _type s with
    | Photo | Video | RoundFile | VoiceFile | File =>
        (year date =? year myDate) && (month date =? month myDate)
    | Link =>
        (year date =? year myDate) && (month date =? month myDate)
        && (day date =? day myDate)
    | MusicFile => true
    end.

Definition appendItem (s : t) (item : BaseLayout) : t :=
  with_items s
    (flat_map.emplace Z.gtb (GetUniversalId_layout item) item (_items s)).1.

Definition addItem (s : t) (item : BaseLayout)
    : option (t * bool) :=
  accept ← (if empty s then Some true else belongsHere s item);
  if accept : bool then
    let s1 := if empty s then setHeader s item else s in
    Some (appendItem s1 item, true)
  else Some (s, false).

Definition findItemRect (s : t) (item : BaseLayout) : QRect :=
  let position := position item in
  let top := position `quot` _itemsInRow s in
  let indexInRow := position `rem` _itemsInRow s in
  let left := _itemsLeft s + indexInRow * (_itemWidth s + infoMediaSkip) in
  mkRect left top (_itemWidth s) (height item).

Definition completeResult (s : t) (item : BaseLayout) (exact : bool)
    : FoundItem :=
  mkFound item (findItemRect s item) exact.

(** The loop of [recountHeight] over a grid: the items with their new
    positions, and the running [result]. *)
Fixpoint recountGrid (itemsInRow itemHeight : Z) (items : Items)
    (result index : Z) : Items * Z :=
  match items with
  | [] => ([], result)
  | (id, item) :: rest =>
      let item' := setPosition item (itemsInRow * result + index) in
      let '(result', index') :=
        if index + 1 =? itemsInRow
        then (result + itemHeight, 0)
        else (result, index + 1) in
      let '(rest', final) :=
        recountGrid itemsInRow itemHeight rest result' index' in
      ((id, item') :: rest', final)
  end.

(** The loop of [recountHeight] over a single column. *)
Fixpoint recountColumn (items : Items) (result : Z) : Items * Z :=
  match items with
  | [] => ([], result)
  | (id, item) :: rest =>
      let item' := setPosition item result in
      let '(rest', final) := recountColumn rest (result + height item') in
      ((id, item') :: rest', final)
  end.

(** [recountHeight] is [const] but writes the positions of the layouts
    and the mutable [_rowsCount]: the Section after it, and its result. *)
Definition recountHeight (s : t) : t * Z :=
  let result := headerHeight s in
  let size := Z.of_nat (length (_items s)) in
  match _type s with
  | Photo | Video | RoundFile =>
      let itemHeight := _itemWidth s + infoMediaSkip in
      let '(items, result) :=
        recountGrid (_itemsInRow s) itemHeight (_items s)
          (result + _itemsTop s) 0 in
      let '(rowsCount, result) :=
        if negb (size `rem` _itemsInRow s =? 0)
        then (size `quot` _itemsInRow s + 1, result + itemHeight)
        else (size `quot` _itemsInRow s, result) in
      (mkSection (_type s) (_header s) items (_itemsLeft s) (_itemsTop s)
         (_itemWidth s) (_itemsInRow s) rowsCount (_top s) (_height s),
       result)
  | VoiceFile | File | MusicFile | Link =>
      let '(items, result) := recountColumn (_items s) result in
      (mkSection (_type s) (_header s) items (_itemsLeft s) (_itemsTop s)
         (_itemWidth s) (_itemsInRow s) size (_top s) (_height s),
       result)
  end.

Definition refreshHeight (s : t) : t :=
  let '(s', result) := recountHeight s in
  mkSection (_type s') (_header s') (_items s') (_itemsLeft s') (_itemsTop s')
    (_itemWidth s') (_itemsInRow s') (_rowsCount s') (_top s') result.

Definition removeItem (s : t) (universalId : UniversalMsgId)
    : t * bool :=
  match flat_map.find Z.gtb universalId (_items s) with
  | Some _ =>
      (refreshHeight
         (with_items s (flat_map.erase Z.gtb universalId (_items s))),
       true)
  | None => (s, false)
  end.

(** The geometry fields of [resizeToWidth] and the re-measuring loop. *)
Definition resizeItems (s : t) (itemsLeft itemsTop itemsInRow
    itemWidth : Z) : t :=
  mkSection (_type s) (_header s)
    (map (fun e => (e.1, resizeGetHeight e.2 itemWidth)) (_items s))
    itemsLeft itemsTop itemWidth itemsInRow (_rowsCount s) (_top s)
    (_height s).

Definition resizeToWidth (s : t) (newWidth : Z) : t :=
  let minWidth := infoMediaMinGridSize + infoMediaSkip * 2 in
  if newWidth <? minWidth then s
  else
    let resizeOneColumn itemsLeft itemWidth :=
      resizeItems s itemsLeft 0 1 itemWidth in
    let s' :=
      match _type s with
      | Photo | Video | RoundFile =>
          let itemsLeft := infoMediaSkip in
          let itemsTop := infoMediaSkip in
          let itemsInRow :=
            (newWidth - itemsLeft)
              `quot` (infoMediaMinGridSize + infoMediaSkip) in
          let itemWidth :=
            ((newWidth - itemsLeft) `quot` itemsInRow) - infoMediaSkip in
          resizeItems s itemsLeft itemsTop itemsInRow itemWidth
      | VoiceFile | MusicFile => resizeOneColumn 0 newWidth
      | File | Link =>
          let itemsLeft := px infoMediaHeaderPosition in
          let itemWidth := newWidth - 2 * itemsLeft in
          resizeOneColumn itemsLeft itemWidth
      end in
    refreshHeight s'.

(** [findItemAfterTop]: an index into [_items]. *)
Definition findItemAfterTop (s : t) (top : Z) : nat :=
  lower_bound
    (fun item : UniversalMsgId * BaseLayout =>
       let itemTop := position item.2 `quot` _itemsInRow s in
       itemTop + height item.2 <=? top)
    (_items s).

(** [if (itemIt == _items.end()) --itemIt]. *)
Definition clampToLast (n i : nat) : nat :=
  if (i =? n)%nat then (n - 1)%nat else i.

(** [while (shift-- && itemIt != _items.end()) ++itemIt]. *)
Definition advance (n i : nat) (shift : Z) : nat :=
  if shift <? 0 then n else Nat.min (i + Z.to_nat shift) n.

Definition findItemByPoint (s : t) (point : QPoint)
    : option FoundItem :=
  let n := length (_items s) in
  guard (empty s = false);;
  let itemIt := clampToLast n (findItemAfterTop s (py point)) in
  first ← _items s !! itemIt;
  let rect := findItemRect s first.2 in
  if ry rect <=? py point then
    let shift :=
      floorclamp (px point) (_itemWidth s + infoMediaSkip) 0 (_itemsInRow s) in
    let itemIt := clampToLast n (advance n itemIt shift) in
    entry ← _items s !! itemIt;
    let rect := findItemRect s entry.2 in
    Some (mkFound entry.2 rect (rect_contains rect point))
  else
    Some (mkFound first.2 rect (rect_contains rect point)).

Definition findItemNearId (s : t) (universalId : UniversalMsgId)
    : option FoundItem :=
  let n := length (_items s) in
  guard (empty s = false);;
  let itemIt :=
    clampToLast n
      (lower_bound
         (fun item : UniversalMsgId * BaseLayout => item.1 >? universalId)
         (_items s)) in
  entry ← _items s !! itemIt;
  let exact := bool_decide (GetUniversalId_layout entry.2 = universalId) in
  Some (mkFound entry.2 (findItemRect s entry.2) exact).

End with_env.
End MSection.

(** ** ListWidget *)

Module ListWidget.

Inductive MouseAction :=
  ActionNone | PrepareDrag | Dragging | PrepareSelect | Selecting.

Inductive DragSelectAction := DragNone | DragSelecting | DragDeselecting.

#[global] Instance MouseAction_eq_dec : EqDecision MouseAction.
Proof. solve_decision. Defined.

#[global] Instance DragSelectAction_eq_dec : EqDecision DragSelectAction.
Proof. solve_decision. Defined.

Inductive Cursor := cur_default | cur_pointer | cur_text.

Record CursorState := mkCursorState {
  itemId : UniversalMsgId;
  cs_size : QSize;
  cursor : QPoint;
  inside : bool }.

(** [CursorState()]: a null id, an invalid [QSize]. *)
Definition noCursorState : CursorState :=
  mkCursorState 0 (mkSize (-1) (-1)) (mkPoint 0 0) false.

Record ScrollTopState := mkScrollTop { scroll_item : UniversalMsgId; scroll_shift : Z }.

Record SelectionData := mkSelData {
  text : TextSelection;
  sd_canDelete : bool;
  sd_canForward : bool }.

#[global] Instance SelectionData_eq_dec : EqDecision SelectionData.
Proof. solve_decision. Defined.

Abbreviation SelectedMap := (list (UniversalMsgId * SelectionData)).

Record SelectedItem := mkSelectedItem {
  msgId : FullMsgId;
  si_canDelete : bool;
  si_canForward : bool }.

Record SelectedItems := mkSelectedItems {
  si_type : MediaType;
  si_list : list SelectedItem }.

Record CachedItem := mkCached { cached_item : BaseLayout; stale : bool }.

(** [SparseIdsMergedSlice]: the counts it reports and the ids of its
    window, by index. *)
Record Slice := mkSlice {
  fullCount : option Z;
  skippedBefore : option Z;
  skippedAfter : option Z;
  slice_ids : list FullMsgId;
  slice_nearest : UniversalMsgId -> option FullMsgId }.

(** What the handlers send out of the widget. *)
Inductive Effect :=
| SelectedListFired (items : SelectedItems)
| ScrollToFired (y : Z)
| Updated
| RtlUpdated (r : QRect)
| Resized (w h : Z)
| SearchEnabledByContent (enabled : bool)
| MediaSourceRequested (aroundId limitBefore limitAfter : Z)
| FocusSet
| PerformDragQueued.

(** The widget: the members of [ListWidget] the modelled handlers read or
    write, the two facts it reads from its [QWidget] base ([widget_size])
    and from [ClickHandler], the live viewer subscription ([_viewer], the
    [idForViewer] its callback captured) and the effects issued so far
    ([log], newest first). *)
Record t := mkWidget {
  _peer : PeerData;
  _migrated : option PeerData;
  _type : MediaType;
  _universalAroundId : UniversalMsgId;
  _idsLimit : Z;
  _slice : Slice;
  _viewer : option UniversalMsgId;
  _layouts : gmap Z CachedItem;
  _sections : list MSection.t;
  _visibleTop : Z;
  _visibleBottom : Z;
  _scrollTopState : ScrollTopState;
  _mouseAction : MouseAction;
  _mouseSelectType : TextSelectType;
  _mousePosition : QPoint;
  _overLayout : option BaseLayout;
  _overState : CursorState;
  _pressState : CursorState;
  _mouseTextSymbol : Z;
  _mouseCursorState : HistoryCursorState;
  _cursor : Cursor;
  _wasSelectedText : bool;
  _pressWasInactive : bool;
  _selected : SelectedMap;
  _dragSelected : SelectedMap;
  _dragSelectAction : DragSelectAction;
  widget_size : QSize;
  _clickActive : option Z;
  _clickPressed : option Z;
  log : list Effect }.

(** Field updates. *)
Definition set_universalAroundId (v : UniversalMsgId) (w : t) : t :=
  mkWidget (_peer w) (_migrated w) (_type w) v (_idsLimit w) (_slice w)
    (_viewer w) (_layouts w) (_sections w) (_visibleTop w)
    (_visibleBottom w) (_scrollTopState w) (_mouseAction w)
    (_mouseSelectType w) (_mousePosition w) (_overLayout w) (_overState w)
    (_pressState w) (_mouseTextSymbol w) (_mouseCursorState w) (_cursor w)
    (_wasSelectedText w) (_pressWasInactive w) (_selected w)
    (_dragSelected w) (_dragSelectAction w) (widget_size w) (_clickActive w)
    (_clickPressed w) (log w).

Definition set_idsLimit (v : Z) (w : t) : t :=
  mkWidget (_peer w) (_migrated w) (_type w) (_universalAroundId w) v
    (_slice w) (_viewer w) (_layouts w) (_sections w) (_visibleTop w)
    (_visibleBottom w) (_scrollTopState w) (_mouseAction w)
    (_mouseSelectType w) (_mousePosition w) (_overLayout w) (_overState w)
    (_pressState w) (_mouseTextSymbol w) (_mouseCursorState w) (_cursor w)
    (_wasSelectedText w) (_pressWasInactive w) (_selected w)
    (_dragSelected w) (_dragSelectAction w) (widget_size w) (_clickActive w)
    (_clickPressed w) (log w).

Definition set_slice (v : Slice) (w : t) : t :=
  mkWidget (_peer w) (_migrated w) (_type w) (_universalAroundId w)
    (_idsLimit w) v (_viewer w) (_layouts w) (_sections w) (_visibleTop w)
    (_visibleBottom w) (_scrollTopState w) (_mouseAction w)
    (_mouseSelectType w) (_mousePosition w) (_overLayout w) (_overState w)
    (_pressState w) (_mouseTextSymbol w) (_mouseCursorState w) (_cursor w)
    (_wasSelectedText w) (_pressWasInactive w) (_selected w)
    (_dragSelected w) (_dragSelectAction w) (widget_size w) (_clickActive w)
    (_clickPressed w) (log w).

Definition set_viewer (v : option UniversalMsgId) (w : t) : t :=
  mkWidget (_peer w) (_migrated w) (_type w) (_universalAroundId w)
    (_idsLimit w) (_slice w) v (_layouts w) (_sections w) (_visibleTop w)
    (_visibleBottom w) (_scrollTopState w) (_mouseAction w)
    (_mouseSelectType w) (_mousePosition w) (_overLayout w) (_overState w)
    (_pressState w) (_mouseTextSymbol w) (_mouseCursorState w) (_cursor w)
    (_wasSelectedText w) (_pressWasInactive w) (_selected w)
    (_dragSelected w) (_dragSelectAction w) (widget_size w) (_clickActive w)
    (_clickPressed w) (log w).

Definition set_layouts (v : gmap Z CachedItem) (w : t) : t :=
  mkWidget (_peer w) (_migrated w) (_type w) (_universalAroundId w)
    (_idsLimit w) (_slice w) (_viewer w) v (_sections w) (_visibleTop w)
    (_visibleBottom w) (_scrollTopState w) (_mouseAction w)
    (_mouseSelectType w) (_mousePosition w) (_overLayout w) (_overState w)
    (_pressState w) (_mouseTextSymbol w) (_mouseCursorState w) (_cursor w)
    (_wasSelectedText w) (_pressWasInactive w) (_selected w)
    (_dragSelected w) (_dragSelectAction w) (widget_size w) (_clickActive w)
    (_clickPressed w) (log w).

Definition set_sections (v : list MSection.t) (w : t) : t :=
  mkWidget (_peer w) (_migrated w) (_type w) (_universalAroundId w)
    (_idsLimit w) (_slice w) (_viewer w) (_layouts w) v (_visibleTop w)
    (_visibleBottom w) (_scrollTopState w) (_mouseAction w)
    (_mouseSelectType w) (_mousePosition w) (_overLayout w) (_overState w)
    (_pressState w) (_mouseTextSymbol w) (_mouseCursorState w) (_cursor w)
    (_wasSelectedText w) (_pressWasInactive w) (_selected w)
    (_dragSelected w) (_dragSelectAction w) (widget_size w) (_clickActive w)
    (_clickPressed w) (log w).

Definition set_scrollTopState (v : ScrollTopState) (w : t) : t :=
  mkWidget (_peer w) (_migrated w) (_type w) (_universalAroundId w)
    (_idsLimit w) (_slice w) (_viewer w) (_layouts w) (_sections w)
    (_visibleTop w) (_visibleBottom w) v (_mouseAction w)
    (_mouseSelectType w) (_mousePosition w) (_overLayout w) (_overState w)
    (_pressState w) (_mouseTextSymbol w) (_mouseCursorState w) (_cursor w)
    (_wasSelectedText w) (_pressWasInactive w) (_selected w)
    (_dragSelected w) (_dragSelectAction w) (widget_size w) (_clickActive w)
    (_clickPressed w) (log w).

Definition set_mouseAction (v : MouseAction) (w : t) : t :=
  mkWidget (_peer w) (_migrated w) (_type w) (_universalAroundId w)
    (_idsLimit w) (_slice w) (_viewer w) (_layouts w) (_sections w)
    (_visibleTop w) (_visibleBottom w) (_scrollTopState w) v
    (_mouseSelectType w) (_mousePosition w) (_overLayout w) (_overState w)
    (_pressState w) (_mouseTextSymbol w) (_mouseCursorState w) (_cursor w)
    (_wasSelectedText w) (_pressWasInactive w) (_selected w)
    (_dragSelected w) (_dragSelectAction w) (widget_size w) (_clickActive w)
    (_clickPressed w) (log w).

Definition set_mousePosition (v : QPoint) (w : t) : t :=
  mkWidget (_peer w) (_migrated w) (_type w) (_universalAroundId w)
    (_idsLimit w) (_slice w) (_viewer w) (_layouts w) (_sections w)
    (_visibleTop w) (_visibleBottom w) (_scrollTopState w) (_mouseAction w)
    (_mouseSelectType w) v (_overLayout w) (_overState w) (_pressState w)
    (_mouseTextSymbol w) (_mouseCursorState w) (_cursor w)
    (_wasSelectedText w) (_pressWasInactive w) (_selected w)
    (_dragSelected w) (_dragSelectAction w) (widget_size w) (_clickActive w)
    (_clickPressed w) (log w).

Definition set_overLayout (v : option BaseLayout) (w : t) : t :=
  mkWidget (_peer w) (_migrated w) (_type w) (_universalAroundId w)
    (_idsLimit w) (_slice w) (_viewer w) (_layouts w) (_sections w)
    (_visibleTop w) (_visibleBottom w) (_scrollTopState w) (_mouseAction w)
    (_mouseSelectType w) (_mousePosition w) v (_overState w) (_pressState w)
    (_mouseTextSymbol w) (_mouseCursorState w) (_cursor w)
    (_wasSelectedText w) (_pressWasInactive w) (_selected w)
    (_dragSelected w) (_dragSelectAction w) (widget_size w) (_clickActive w)
    (_clickPressed w) (log w).

Definition set_overState (v : CursorState) (w : t) : t :=
  mkWidget (_peer w) (_migrated w) (_type w) (_universalAroundId w)
    (_idsLimit w) (_slice w) (_viewer w) (_layouts w) (_sections w)
    (_visibleTop w) (_visibleBottom w) (_scrollTopState w) (_mouseAction w)
    (_mouseSelectType w) (_mousePosition w) (_overLayout w) v
    (_pressState w) (_mouseTextSymbol w) (_mouseCursorState w) (_cursor w)
    (_wasSelectedText w) (_pressWasInactive w) (_selected w)
    (_dragSelected w) (_dragSelectAction w) (widget_size w) (_clickActive w)
    (_clickPressed w) (log w).

Definition set_pressState (v : CursorState) (w : t) : t :=
  mkWidget (_peer w) (_migrated w) (_type w) (_universalAroundId w)
    (_idsLimit w) (_slice w) (_viewer w) (_layouts w) (_sections w)
    (_visibleTop w) (_visibleBottom w) (_scrollTopState w) (_mouseAction w)
    (_mouseSelectType w) (_mousePosition w) (_overLayout w) (_overState w) v
    (_mouseTextSymbol w) (_mouseCursorState w) (_cursor w)
    (_wasSelectedText w) (_pressWasInactive w) (_selected w)
    (_dragSelected w) (_dragSelectAction w) (widget_size w) (_clickActive w)
    (_clickPressed w) (log w).

Definition set_mouseCursorState (v : HistoryCursorState) (w : t) : t :=
  mkWidget (_peer w) (_migrated w) (_type w) (_universalAroundId w)
    (_idsLimit w) (_slice w) (_viewer w) (_layouts w) (_sections w)
    (_visibleTop w) (_visibleBottom w) (_scrollTopState w) (_mouseAction w)
    (_mouseSelectType w) (_mousePosition w) (_overLayout w) (_overState w)
    (_pressState w) (_mouseTextSymbol w) v (_cursor w) (_wasSelectedText w)
    (_pressWasInactive w) (_selected w) (_dragSelected w)
    (_dragSelectAction w) (widget_size w) (_clickActive w) (_clickPressed w)
    (log w).

Definition set_cursor (v : Cursor) (w : t) : t :=
  mkWidget (_peer w) (_migrated w) (_type w) (_universalAroundId w)
    (_idsLimit w) (_slice w) (_viewer w) (_layouts w) (_sections w)
    (_visibleTop w) (_visibleBottom w) (_scrollTopState w) (_mouseAction w)
    (_mouseSelectType w) (_mousePosition w) (_overLayout w) (_overState w)
    (_pressState w) (_mouseTextSymbol w) (_mouseCursorState w) v
    (_wasSelectedText w) (_pressWasInactive w) (_selected w)
    (_dragSelected w) (_dragSelectAction w) (widget_size w) (_clickActive w)
    (_clickPressed w) (log w).

Definition set_wasSelectedText (v : bool) (w : t) : t :=
  mkWidget (_peer w) (_migrated w) (_type w) (_universalAroundId w)
    (_idsLimit w) (_slice w) (_viewer w) (_layouts w) (_sections w)
    (_visibleTop w) (_visibleBottom w) (_scrollTopState w) (_mouseAction w)
    (_mouseSelectType w) (_mousePosition w) (_overLayout w) (_overState w)
    (_pressState w) (_mouseTextSymbol w) (_mouseCursorState w) (_cursor w) v
    (_pressWasInactive w) (_selected w) (_dragSelected w)
    (_dragSelectAction w) (widget_size w) (_clickActive w) (_clickPressed w)
    (log w).

Definition set_selected (v : SelectedMap) (w : t) : t :=
  mkWidget (_peer w) (_migrated w) (_type w) (_universalAroundId w)
    (_idsLimit w) (_slice w) (_viewer w) (_layouts w) (_sections w)
    (_visibleTop w) (_visibleBottom w) (_scrollTopState w) (_mouseAction w)
    (_mouseSelectType w) (_mousePosition w) (_overLayout w) (_overState w)
    (_pressState w) (_mouseTextSymbol w) (_mouseCursorState w) (_cursor w)
    (_wasSelectedText w) (_pressWasInactive w) v (_dragSelected w)
    (_dragSelectAction w) (widget_size w) (_clickActive w) (_clickPressed w)
    (log w).

Definition set_dragSelected (v : SelectedMap) (w : t) : t :=
  mkWidget (_peer w) (_migrated w) (_type w) (_universalAroundId w)
    (_idsLimit w) (_slice w) (_viewer w) (_layouts w) (_sections w)
    (_visibleTop w) (_visibleBottom w) (_scrollTopState w) (_mouseAction w)
    (_mouseSelectType w) (_mousePosition w) (_overLayout w) (_overState w)
    (_pressState w) (_mouseTextSymbol w) (_mouseCursorState w) (_cursor w)
    (_wasSelectedText w) (_pressWasInactive w) (_selected w) v
    (_dragSelectAction w) (widget_size w) (_clickActive w) (_clickPressed w)
    (log w).

Definition set_dragSelectAction (v : DragSelectAction) (w : t) : t :=
  mkWidget (_peer w) (_migrated w) (_type w) (_universalAroundId w)
    (_idsLimit w) (_slice w) (_viewer w) (_layouts w) (_sections w)
    (_visibleTop w) (_visibleBottom w) (_scrollTopState w) (_mouseAction w)
    (_mouseSelectType w) (_mousePosition w) (_overLayout w) (_overState w)
    (_pressState w) (_mouseTextSymbol w) (_mouseCursorState w) (_cursor w)
    (_wasSelectedText w) (_pressWasInactive w) (_selected w)
    (_dragSelected w) v (widget_size w) (_clickActive w) (_clickPressed w)
    (log w).

Definition set_widget_size (v : QSize) (w : t) : t :=
  mkWidget (_peer w) (_migrated w) (_type w) (_universalAroundId w)
    (_idsLimit w) (_slice w) (_viewer w) (_layouts w) (_sections w)
    (_visibleTop w) (_visibleBottom w) (_scrollTopState w) (_mouseAction w)
    (_mouseSelectType w) (_mousePosition w) (_overLayout w) (_overState w)
    (_pressState w) (_mouseTextSymbol w) (_mouseCursorState w) (_cursor w)
    (_wasSelectedText w) (_pressWasInactive w) (_selected w)
    (_dragSelected w) (_dragSelectAction w) v (_clickActive w)
    (_clickPressed w) (log w).

Definition set_clickActive (v : option Z) (w : t) : t :=
  mkWidget (_peer w) (_migrated w) (_type w) (_universalAroundId w)
    (_idsLimit w) (_slice w) (_viewer w) (_layouts w) (_sections w)
    (_visibleTop w) (_visibleBottom w) (_scrollTopState w) (_mouseAction w)
    (_mouseSelectType w) (_mousePosition w) (_overLayout w) (_overState w)
    (_pressState w) (_mouseTextSymbol w) (_mouseCursorState w) (_cursor w)
    (_wasSelectedText w) (_pressWasInactive w) (_selected w)
    (_dragSelected w) (_dragSelectAction w) (widget_size w) v
    (_clickPressed w) (log w).

Definition set_log (v : list Effect) (w : t) : t :=
  mkWidget (_peer w) (_migrated w) (_type w) (_universalAroundId w)
    (_idsLimit w) (_slice w) (_viewer w) (_layouts w) (_sections w)
    (_visibleTop w) (_visibleBottom w) (_scrollTopState w) (_mouseAction w)
    (_mouseSelectType w) (_mousePosition w) (_overLayout w) (_overState w)
    (_pressState w) (_mouseTextSymbol w) (_mouseCursorState w) (_cursor w)
    (_wasSelectedText w) (_pressWasInactive w) (_selected w)
    (_dragSelected w) (_dragSelectAction w) (widget_size w) (_clickActive w)
    (_clickPressed w) v.
Definition emit (e : Effect) (w : t) : t := set_log (e :: log w) w.

(** [kMediaCountForSearch]. *)
Definition kMediaCountForSearch : Z := 10.

(** The coordinates are [int]: the differences and their sum wrap. *)
Definition IsAfter (a b : CursorState) : bool :=
  if negb (itemId a =? itemId b) then itemId a <? itemId b
  else
    let xAfter := int32 (px (cursor a) - px (cursor b)) in
    let yAfter := int32 (py (cursor a) - py (cursor b)) in
    0 <=? int32 (xAfter + yAfter).

Definition SkipSelectFromItem (state : CursorState) : bool :=
  (sh (cs_size state) <=? py (cursor state))
  || (sw (cs_size state) <=? px (cursor state)).

Definition SkipSelectTillItem (state : CursorState) : bool :=
  (px (cursor state) <? 0) || (py (cursor state) <? 0).

Section with_env.
Context {sty : Style} {host : Host}.

Definition computeFullId (w : t) (universalId : UniversalMsgId)
    : option FullMsgId :=
  guard (universalId ≠ 0);;
  let peerChannel :=
    if isChannel (_peer w) then bareId (_peer w) else NoChannel in
  Some
    (if 0 <? universalId
     then mkFullMsgId peerChannel universalId
     else mkFullMsgId NoChannel (int32 (ServerMaxMsgId + universalId))).

Definition isMyItem (w : t) (item : HistoryItem) : bool :=
  bool_decide (peer_id (_peer w) = history_peer item)
  || match _migrated w with
     | Some migrated => bool_decide (peer_id migrated = history_peer item)
     | None => false
     end.

Definition isPossiblyMyId (w : t) (fullId : FullMsgId) : bool :=
  if negb (channel fullId =? 0)
  then isChannel (_peer w) && (bareId (_peer w) =? channel fullId)
  else negb (isChannel (_peer w)) || bool_decide (is_Some (_migrated w)).

(** The layout pointer [layout] is the one whose message is [item]. *)
Definition isItemLayout (item : HistoryItem) (layout : option BaseLayout)
    : bool :=
  match layout with
  | Some l => bool_decide (fullId (getItem l) = fullId item)
  | None => false
  end.

(** ** Selection maps *)

Definition hasSelected (w : t) : bool :=
  match _selected w with [] => false | _ => true end.

(** [isSelectedItem(i)] for the iterator [i], [None] being [end()]. *)
Definition isSelectedItem (i : option SelectionData) : bool :=
  match i with
  | Some data => bool_decide (text data = FullSelection)
  | None => false
  end.

Definition hasSelectedItems (w : t) : bool :=
  isSelectedItem (snd <$> head (_selected w)).

Definition hasSelectedText (w : t) : bool :=
  hasSelected w && negb (hasSelectedItems w).

Definition collectSelectedItems (w : t) : option SelectedItems :=
  let convert (entry : UniversalMsgId * SelectionData) :=
    fullId ← computeFullId w entry.1;
    Some (mkSelectedItem fullId (sd_canDelete entry.2) (sd_canForward entry.2)) in
  list ← (if hasSelectedItems w then mapM convert (_selected w) else Some []);
  Some (mkSelectedItems (_type w) list).

Definition pushSelectedItems (w : t) : option t :=
  items ← collectSelectedItems w;
  Some (emit (SelectedListFired items) w).

(** [removeItemSelection(i)], the iterator given by its key. *)
Definition removeItemSelection (w : t) (universalId : UniversalMsgId)
    : option t :=
  guard (is_Some (flat_map.find Z.ltb universalId (_selected w)));;
  let w := set_selected (flat_map.erase Z.ltb universalId (_selected w)) w in
  let w := if hasSelected w then w else emit Updated w in
  pushSelectedItems w.

Definition changeItemSelection (w : t) (selected : SelectedMap)
    (universalId : UniversalMsgId) (selection : TextSelection)
    : option (SelectedMap * bool) :=
  let changeExisting :=
    match flat_map.find Z.ltb universalId selected with
    | None => (selected, false)
    | Some data =>
        if bool_decide (text data ≠ selection)
        then (flat_map.assign Z.ltb universalId
                (mkSelData selection (sd_canDelete data) (sd_canForward data))
                selected,
              true)
        else (selected, false)
    end in
  if Z.of_nat (length selected) <? MaxSelectedItems then
    let '(inserted, ok) :=
      flat_map.emplace Z.ltb universalId (mkSelData selection false false)
        selected in
    if ok then
      fullId ← computeFullId w universalId;
      match histItemById fullId with
      | None => Some (flat_map.erase Z.ltb universalId inserted, false)
      | Some item =>
          Some (flat_map.assign Z.ltb universalId
                  (mkSelData selection (canDelete item) (canForward item))
                  inserted,
                true)
      end
    else Some changeExisting
  else Some changeExisting.

(** ** Sections of the widget and hit testing *)

Definition findSectionByItem (w : t) (universalId : UniversalMsgId)
    : option nat :=
  lower_bound_opt
    (fun section => minId ← MSection.minId section; Some (minId >? universalId))
    (_sections w).

Definition findSectionAfterTop (w : t) (top : Z) : nat :=
  lower_bound (fun section => MSection.bottom section <=? top) (_sections w).

Definition foundItemInSection (item : FoundItem) (section : MSection.t)
    : FoundItem :=
  mkFound (found_layout item)
    (translated (found_geometry item) 0 (MSection._top section))
    (found_exact item).

Definition findItemByPoint (w : t) (point : QPoint) : option FoundItem :=
  let n := length (_sections w) in
  guard (_sections w ≠ []);;
  let sectionIt := MSection.clampToLast n (findSectionAfterTop w (py point)) in
  section ← _sections w !! sectionIt;
  let shift := mkPoint 0 (MSection._top section) in
  item ← MSection.findItemByPoint section (point_sub point shift);
  Some (foundItemInSection item section).

(** [findItemById]: the outer [option] is the abort of an [Expects], the
    inner one is [base::optional]. *)
Definition findItemById (w : t) (universalId : UniversalMsgId)
    : option (option FoundItem) :=
  sectionIt ← findSectionByItem w universalId;
  match _sections w !! sectionIt with
  | Some section =>
      item ← MSection.findItemNearId section universalId;
      Some (if found_exact item
            then Some (foundItemInSection item section) else None)
  | None => Some None
  end.

(** [repaintItem(UniversalMsgId)]. *)
Definition repaintItem (w : t) (universalId : UniversalMsgId) : option t :=
  item ← findItemById w universalId;
  Some match item with
       | Some item => emit (RtlUpdated (found_geometry item)) w
       | None => w
       end.

(** [repaintItem] of a layout pointer. *)
Definition repaintLayout (w : t) (item : option BaseLayout) : option t :=
  match item with
  | Some item => repaintItem w (GetUniversalId_layout item)
  | None => Some w
  end.

Definition padding : QMargins := infoMediaMargin.

(** The loop of [recountHeight]: every Section gets its top. *)
Fixpoint placeSections (sections : list MSection.t) (result : Z)
    : list MSection.t * Z :=
  match sections with
  | [] => ([], result)
  | section :: rest =>
      let section := MSection.setTop section result in
      let '(rest, final) :=
        placeSections rest (result + MSection._height section) in
      (section :: rest, final)
  end.

Definition recountHeight (w : t) : t * Z :=
  let zeroCount :=
    match _sections w, fullCount (_slice w) with
    | [], Some count => count =? 0
    | _, _ => false
    end in
  if zeroCount then (w, 0)
  else
    let cachedPadding := padding in
    let '(sections, result) :=
      placeSections (_sections w) (mtop cachedPadding) in
    (set_sections sections w, result + mbottom cachedPadding).

(** [resize(w, h)] of the widget. *)
Definition resize (width height : Z) (w : t) : t :=
  emit (Resized width height) (set_widget_size (mkSize width height) w).

Definition refreshHeight (w : t) : t :=
  let '(w, height) := recountHeight w in
  resize (sw (widget_size w)) height w.

Definition resizeGetHeight (w : t) (newWidth : Z) : t * Z :=
  let w :=
    if 0 <? newWidth
    then set_sections
           (map (fun section => MSection.resizeToWidth section newWidth)
              (_sections w)) w
    else w in
  recountHeight w.

(** [resizeToWidth] of the widget base class: measure, then take the
    size. *)
Definition resizeToWidth (w : t) (newWidth : Z) : t :=
  let '(w, height) := resizeGetHeight w newWidth in
  if bool_decide (mkSize newWidth height = widget_size w) then w
  else emit Updated (resize newWidth height w).

(** ** Changing the selection *)

Definition applyItemSelection (w : t) (universalId : UniversalMsgId)
    (selection : TextSelection) : option t :=
  '(selected, changed) ←
    changeItemSelection w (_selected w) universalId selection;
  let w := set_selected selected w in
  if changed : bool then
    w ← repaintItem w universalId;
    pushSelectedItems w
  else Some w.

Definition toggleItemSelection (w : t) (universalId : UniversalMsgId)
    : option t :=
  match flat_map.find Z.ltb universalId (_selected w) with
  | None => applyItemSelection w universalId FullSelection
  | Some _ => removeItemSelection w universalId
  end.

Definition clearSelected (w : t) : option t :=
  match _selected w with
  | [] => Some w
  | first :: _ =>
      if hasSelectedText w then
        w ← repaintItem w first.1;
        Some (set_selected [] w)
      else
        w ← pushSelectedItems (set_selected [] w);
        Some (emit Updated w)
  end.

Definition clearDragSelection (w : t) : t :=
  let w := set_dragSelectAction DragNone w in
  match _dragSelected w with
  | [] => w
  | _ => emit Updated (set_dragSelected [] w)
  end.

(** ** Drag selection *)

(** The entries of [_layouts] in the order [for (auto &layoutItem :
    _layouts)] meets them.  The container is declared in the header,
    which is not among the sources: an ordered map, walked in ascending
    order of the ids. *)
Definition byId (a b : UniversalMsgId * CachedItem) : Prop := a.1 <= b.1.

#[global] Instance byId_dec a b : Decision (byId a b).
Proof. unfold byId. apply _. Defined.

Definition layoutsInOrder (w : t) : list (UniversalMsgId * CachedItem) :=
  merge_sort byId (map_to_list (_layouts w)).

(** [for (auto &layoutItem : _layouts) if (in range) changeItemSelection
    (_dragSelected, universalId, FullSelection)]. *)
Fixpoint dragSelectLayouts (w : t) (fromId tillId : UniversalMsgId)
    (layouts : list (UniversalMsgId * CachedItem)) (dragSelected : SelectedMap)
    : option SelectedMap :=
  match layouts with
  | [] => Some dragSelected
  | layoutItem :: rest =>
      let universalId := layoutItem.1 in
      dragSelected ←
        (if (universalId <=? fromId) && (universalId >? tillId)
         then fst <$> changeItemSelection w dragSelected universalId
                        FullSelection
         else Some dragSelected);
      dragSelectLayouts w fromId tillId rest dragSelected
  end.

Definition updateDragSelection (w : t) : option t :=
  let fromState := _pressState w in
  let tillState := _overState w in
  let swapStates := IsAfter fromState tillState in
  let '(fromState, tillState) :=
    if swapStates then (tillState, fromState) else (fromState, tillState) in
  if (itemId fromState =? 0) || (itemId tillState =? 0)
  then Some (clearDragSelection w)
  else
    let fromId :=
      if SkipSelectFromItem fromState
      then itemId fromState - 1 else itemId fromState in
    let tillId :=
      if SkipSelectTillItem tillState
      then itemId tillState else itemId tillState - 1 in
    let kept :=
      List.filter
        (fun i : UniversalMsgId * SelectionData =>
           negb ((i.1 >? fromId) || (i.1 <=? tillId)))
        (_dragSelected w) in
    dragSelected ←
      dragSelectLayouts w fromId tillId (layoutsInOrder w) kept;
    let dragSelectAction :=
      match (if swapStates then head dragSelected else last dragSelected) with
      | None => DragNone
      | Some (firstDragItem, _) =>
          if isSelectedItem (flat_map.find Z.ltb firstDragItem (_selected w))
          then DragDeselecting else DragSelecting
      end in
    let w := set_dragSelectAction dragSelectAction
               (set_dragSelected dragSelected w) in
    let w :=
      if negb (_wasSelectedText w)
         && bool_decide (dragSelected ≠ [])
         && bool_decide (dragSelectAction = DragSelecting)
      then emit FocusSet (set_wasSelectedText true w) else w in
    Some (emit Updated w).

(** [for (auto &[universalId, data] : _dragSelected)
    changeItemSelection(applyTo, universalId, FullSelection)]. *)
Fixpoint selectAll (w : t) (dragSelected applyTo : SelectedMap)
    : option SelectedMap :=
  match dragSelected with
  | [] => Some applyTo
  | (universalId, _) :: rest =>
      '(applyTo, _) ← changeItemSelection w applyTo universalId FullSelection;
      selectAll w rest applyTo
  end.

(** [applyDragSelection(SelectedMap &applyTo)]. *)
Definition applyDragSelectionTo (w : t) (applyTo : SelectedMap)
    : option SelectedMap :=
  match _dragSelectAction w with
  | DragSelecting => selectAll w (_dragSelected w) applyTo
  | DragDeselecting =>
      Some (foldl (fun applyTo i => flat_map.erase Z.ltb i.1 applyTo)
              applyTo (_dragSelected w))
  | DragNone => Some applyTo
  end.

Definition applyDragSelection (w : t) : option t :=
  selected ← applyDragSelectionTo w (_selected w);
  pushSelectedItems (clearDragSelection (set_selected selected w)).

(** The release of the mouse in [mouseActionFinish] once the action is
    [Selecting] and no click handler is to be activated. *)
Definition finishSelecting (w : t) : option t :=
  match _dragSelected w with
  | _ :: _ => applyDragSelection w
  | [] =>
      match _selected w with
      | first :: _ =>
          let selection := first.2 in
          if negb (_pressWasInactive w)
             && bool_decide (text selection ≠ FullSelection)
             && (sel_from (text selection) =? sel_to (text selection))
          then clearSelected w else Some w
      | [] => Some w
      end
  end.

(** ** Mouse tracking *)

(** [std::clamp]. *)
Definition clamp (v lo hi : Z) : Z :=
  if v <? lo then lo else if hi <? v then hi else v.

Definition clampMousePosition (w : t) (position : QPoint) : QPoint :=
  mkPoint
    (clamp (px position) 0 (Z.max 0 (sw (widget_size w) - 1)))
    (clamp (py position) (_visibleTop w) (_visibleBottom w - 1)).

Definition computeMouseCursor (w : t) : Cursor :=
  if bool_decide (is_Some (_clickPressed w))
     || bool_decide (is_Some (_clickActive w))
  then cur_pointer
  else if negb (hasSelectedItems w)
          && bool_decide (_mouseCursorState w = HistoryInTextCursorState)
  then cur_text
  else cur_default.

(** The text-selection arm of [mouseActionUpdate]: extend the selection
    inside the pressed item to the symbol under the cursor. *)
Definition updateTextSelection (w : t) (layout : BaseLayout)
    (dragState : HistoryTextState) : option t :=
  let second :=
    if ts_afterSymbol dragState
       && bool_decide (_mouseSelectType w = Letters)
    then (ts_symbol dragState + 1) `mod` 2 ^ 16
    else ts_symbol dragState in
  let selState :=
    mkSel (Z.min second (_mouseTextSymbol w))
      (Z.max second (_mouseTextSymbol w)) in
  let selState :=
    if bool_decide (_mouseSelectType w ≠ Letters)
    then layoutAdjustSelection layout selState (_mouseSelectType w)
    else selState in
  w ← applyItemSelection w (itemId (_overState w)) selState;
  let hasSelection :=
    bool_decide (selState = FullSelection)
    || negb (sel_from selState =? sel_to selState) in
  let w :=
    if negb (_wasSelectedText w) && hasSelection
    then emit FocusSet (set_wasSelectedText true w) else w in
  Some (clearDragSelection w).

Definition mouseActionUpdate (w : t) (screenPos : QPoint) : option t :=
  if match _sections w with [] => true | _ => false end
     || (_visibleBottom w <=? _visibleTop w)
  then Some w
  else
    let w := set_mousePosition screenPos w in
    let local := mapFromGlobal (_mousePosition w) in
    let point := clampMousePosition w local in
    found ← findItemByPoint w point;
    let layout := found_layout found in
    let geometry := found_geometry found in
    let state :=
      mkCursorState (GetUniversalId_layout layout) (rect_size geometry)
        (point_sub point (topLeft geometry)) (found_exact found) in
    w ← (if isItemLayout (getItem layout) (_overLayout w) then Some w
         else
           w ← repaintLayout w (_overLayout w);
           Some (emit (RtlUpdated geometry) (set_overLayout (Some layout) w)));
    let w := set_overState state w in
    let inTextSelection :=
      inside (_overState w)
      && (itemId (_overState w) =? itemId (_pressState w))
      && hasSelectedText w in
    let cursorDeltaLength :=
      manhattanLength
        (point_sub (cursor (_overState w)) (cursor (_pressState w))) in
    (* [_overLayout] is [layout] from here on, and not null *)
    let w :=
      if negb (itemId (_overState w) =? itemId (_pressState w))
         || (startDragDistance <=? cursorDeltaLength)
      then
        match _mouseAction w with
        | PrepareDrag => emit PerformDragQueued (set_mouseAction Dragging w)
        | PrepareSelect => set_mouseAction Selecting w
        | _ => w
        end
      else w in
    let lookupSymbol := bool_decide (_mouseAction w = Selecting) in
    let inTextSelection := lookupSymbol && inTextSelection in
    let dragState := layoutGetState layout (cursor (_overState w)) lookupSymbol in
    let w := set_clickActive (ts_link dragState) w in
    match _mouseAction w with
    | ActionNone =>
        let w := set_mouseCursorState (ts_cursor dragState) w in
        let cursor := computeMouseCursor w in
        Some (set_cursor cursor w)
    | Selecting =>
        if inTextSelection then updateTextSelection w layout dragState
        else if negb (itemId (_pressState w) =? 0) then updateDragSelection w
        else Some w
    | _ => Some w
    end.

(** ** itemRemoved *)

Definition itemRemoved (w : t) (item : HistoryItem) : option t :=
  if isMyItem w item then
    let universalId := GetUniversalId (fullId item) in
    sectionIt ← findSectionByItem w universalId;
    let w :=
      match _sections w !! sectionIt with
      | Some section =>
          let '(section, removed) := MSection.removeItem section universalId in
          if removed then
            refreshHeight
              (set_sections
                 (if MSection.empty section
                  then delete sectionIt (_sections w)
                  else <[sectionIt := section]> (_sections w))
                 w)
          else w
      | None => w
      end in
    let w :=
      if isItemLayout item (_overLayout w) then set_overLayout None w else w in
    let w := set_layouts (delete universalId (_layouts w)) w in
    let w :=
      set_dragSelected (flat_map.erase Z.ltb universalId (_dragSelected w)) w in
    w ← (if bool_decide (is_Some (flat_map.find Z.ltb universalId (_selected w)))
         then removeItemSelection w universalId else Some w);
    mouseActionUpdate w (_mousePosition w)
  else Some w.

(** ** Rebuilding the rows from a slice *)

Definition createLayout (w : t) (universalId : UniversalMsgId)
    (type : MediaType) : option (option BaseLayout) :=
  fullId ← computeFullId w universalId;
  Some
    match histItemById fullId with
    | None => None
    | Some item =>
        let getPhoto :=
          bool_decide (getMedia item = Some MediaPhoto) in
        let getFile :=
          bool_decide (getMedia item = Some MediaDocument) in
        let make kind := Some (mkLayout kind item 0 0 0) in
        match type with
        | Photo => if getPhoto then make LayoutPhoto else None
        | Video => if getFile then make LayoutVideo else None
        | File => if getFile then make LayoutDocument else None
        | MusicFile => if getFile then make LayoutDocument else None
        | VoiceFile => if getFile then make LayoutVoice else None
        | Link => make LayoutLink
        | RoundFile => None
        end
    end.

(** [getLayout]: the widget (its cache may grow) and the layout, if any. *)
Definition getLayout (w : t) (universalId : UniversalMsgId)
    : option (t * option BaseLayout) :=
  match _layouts w !! universalId with
  | Some cached =>
      Some (set_layouts
              (<[universalId := mkCached (cached_item cached) false]>
                 (_layouts w)) w,
            Some (cached_item cached))
  | None =>
      layout ← createLayout w universalId (_type w);
      Some match layout with
           | Some layout =>
               (set_layouts
                  (<[universalId := mkCached layout false]> (_layouts w)) w,
                Some layout)
           | None => (w, None)
           end
  end.

Definition markLayoutsStale (w : t) : t :=
  set_layouts ((fun cached => mkCached (cached_item cached) true)
                 <$> _layouts w) w.

Definition clearStaleLayouts (w : t) : t :=
  let overStale :=
    match _overLayout w with
    | Some over =>
        match _layouts w !! GetUniversalId_layout over with
        | Some cached => stale cached
        | None => false
        end
    | None => false
    end in
  let w := if overStale then set_overLayout None w else w in
  set_layouts (filter (fun i => stale i.2 = false) (_layouts w)) w.

(** The Sections point at layouts the cache owns: a layout keeps the
    geometry a Section wrote into it.  The model keeps the value with the
    Section while it is a member, and hands it back to the cache here,
    before the old Sections are dropped. *)
Definition releaseSections (w : t) : t :=
  set_layouts
    (foldl
       (fun layouts i =>
          match layouts !! i.1 with
          | Some cached => <[i.1 := mkCached i.2 (stale cached)]> layouts
          | None => layouts
          end)
       (_layouts w)
       (concat (map MSection._items (_sections w))))
    w.

Definition countScrollState (w : t) : option ScrollTopState :=
  match _sections w with
  | [] => Some (mkScrollTop 0 0)
  | _ =>
      topItem ← findItemByPoint w (mkPoint 0 (_visibleTop w));
      Some (mkScrollTop (GetUniversalId_layout (found_layout topItem))
              (_visibleTop w - ry (found_geometry topItem)))
  end.

Definition saveScrollState (w : t) : option t :=
  if scroll_item (_scrollTopState w) =? 0 then
    state ← countScrollState w;
    Some (set_scrollTopState state w)
  else Some w.

Definition restoreScrollState (w : t) : option t :=
  let n := length (_sections w) in
  if bool_decide (_sections w = []) || (scroll_item (_scrollTopState w) =? 0)
  then Some w
  else
    found ← findSectionByItem w (scroll_item (_scrollTopState w));
    let sectionIt := MSection.clampToLast n found in
    section ← _sections w !! sectionIt;
    near ← MSection.findItemNearId section (scroll_item (_scrollTopState w));
    let item := foundItemInSection near section in
    let newVisibleTop :=
      ry (found_geometry item) + scroll_shift (_scrollTopState w) in
    let w :=
      if _visibleTop w =? newVisibleTop then w
      else emit (ScrollToFired newVisibleTop) w in
    Some (set_scrollTopState (mkScrollTop 0 0) w).

(** The loop of [refreshRows] over the ids of the slice, newest index
    first: the widget, the closed Sections and the open one. *)
Fixpoint buildSections (w : t) (ids : list FullMsgId)
    (sections : list MSection.t) (section : MSection.t)
    : option (t * list MSection.t * MSection.t) :=
  match ids with
  | [] => Some (w, sections, section)
  | id :: rest =>
      let universalId := GetUniversalId id in
      '(w, layout) ← getLayout w universalId;
      match layout with
      | Some layout =>
          '(added, ok) ← MSection.addItem section layout;
          if ok : bool then buildSections w rest sections added
          else
            '(fresh, _) ← MSection.addItem (MSection.create (_type w)) layout;
            buildSections w rest (sections ++ [section]) fresh
      | None => buildSections w rest sections section
      end
  end.

Definition mouseActionUpdate_ (w : t) : option t :=
  mouseActionUpdate w (_mousePosition w).

Definition refreshRows (w : t) : option t :=
  w ← saveScrollState w;
  let w := markLayoutsStale w in
  let w := releaseSections w in
  '(w, sections, section) ←
    buildSections (set_sections [] w) (reverse (slice_ids (_slice w))) []
      (MSection.create (_type w));
  let sections :=
    if MSection.empty section then sections else sections ++ [section] in
  let w := set_sections sections w in
  let w :=
    match fullCount (_slice w) with
    | Some count =>
        if kMediaCountForSearch <? count
        then emit (SearchEnabledByContent true) w else w
    | None => w
    end in
  let w := clearStaleLayouts w in
  let w := resizeToWidth w (sw (widget_size w)) in
  w ← restoreScrollState w;
  mouseActionUpdate_ w.

(** ** The viewer *)

Record SliceKey := mkKey {
  key_peerId : Z;
  key_migratedPeerId : Z;
  key_universalId : UniversalMsgId }.

Definition sliceKey (w : t) (universalId : UniversalMsgId) : SliceKey :=
  match _migrated w with
  | Some migrated => mkKey (peer_id (_peer w)) (peer_id migrated) universalId
  | None =>
      mkKey (peer_id (_peer w)) 0
        (if universalId <? 0
         then int32 (universalId + ServerMaxMsgId) else universalId)
  end.

(** [refreshViewer]: drop the old subscription, ask for the slice around
    [idForViewer] and subscribe [viewerNext] to what comes back. *)
Definition refreshViewer (w : t) : t :=
  let idForViewer := key_universalId (sliceKey w (_universalAroundId w)) in
  emit (MediaSourceRequested idForViewer (_idsLimit w) (_idsLimit w))
    (set_viewer (Some idForViewer) w).

(** The callback of [refreshViewer] for the slice [slice]. *)
Definition viewerNext (w : t) (idForViewer : UniversalMsgId) (slice : Slice)
    : option t :=
  match fullCount slice with
  | None => Some w
  | Some _ =>
      let w := set_slice slice w in
      let w :=
        match slice_nearest (_slice w) idForViewer with
        | Some nearest => set_universalAroundId (GetUniversalId nearest) w
        | None => w
        end in
      refreshRows w
  end.

(** A slice arrives on the live subscription. *)
Definition sliceDelivered (w : t) (slice : Slice) : option t :=
  match _viewer w with
  | Some idForViewer => viewerNext w idForViewer slice
  | None => Some w
  end.

End with_env.
End ListWidget.

(** ** Call sequences and the buckets of the specification *)

Section scenarios.
Context {sty : Style} {host : Host}.

(** A run of [addItem] calls on one Section, as [refreshRows] makes them:
    a rejected layout leaves the Section as it was. *)
Fixpoint addItems (s : MSection.t) (layouts : list BaseLayout)
    : option MSection.t :=
  match layouts with
  | [] => Some s
  | layout :: rest =>
      '(s, _) ← MSection.addItem s layout;
      addItems s rest
  end.

(** The calls that change the committed selection. *)
Inductive SelectionOp :=
| ChangeSelection (universalId : UniversalMsgId) (selection : TextSelection)
| ToggleSelection (universalId : UniversalMsgId)
| RemoveSelection (universalId : UniversalMsgId).

Definition runSelectionOp (w : ListWidget.t) (op : SelectionOp)
    : option ListWidget.t :=
  match op with
  | ChangeSelection universalId selection =>
      ListWidget.applyItemSelection w universalId selection
  | ToggleSelection universalId =>
      ListWidget.toggleItemSelection w universalId
  | RemoveSelection universalId =>
      if bool_decide
           (is_Some (flat_map.find Z.ltb universalId (ListWidget._selected w)))
      then ListWidget.removeItemSelection w universalId
      else Some w
  end.

Fixpoint runSelectionOps (w : ListWidget.t) (ops : list SelectionOp)
    : option ListWidget.t :=
  match ops with
  | [] => Some w
  | op :: rest => w ← runSelectionOp w op; runSelectionOps w rest
  end.

(** The mouse was pressed in state [press] and is now in state [over]. *)
Definition withCursors (press over : ListWidget.CursorState)
    (w : ListWidget.t) : ListWidget.t :=
  ListWidget.set_overState over (ListWidget.set_pressState press w).

(** A range drag: the mouse was pressed in state [press], is now in state
    [over] while the action is [Selecting], and is released there. *)
Definition dragSelectAndRelease (w : ListWidget.t)
    (press over : ListWidget.CursorState) : option ListWidget.t :=
  w ← ListWidget.updateDragSelection (withCursors press over w);
  ListWidget.finishSelecting w.

(** The ids a range drag between [press] and [over] covers, as
    [updateDragSelection] bounds them: [tillId < id <= fromId]. *)
Definition dragCovers (press over : ListWidget.CursorState) (id : Z) : Prop :=
  let '(fromState, tillState) :=
    if ListWidget.IsAfter press over then (over, press) else (press, over) in
  let fromId :=
    if ListWidget.SkipSelectFromItem fromState
    then ListWidget.itemId fromState - 1 else ListWidget.itemId fromState in
  let tillId :=
    if ListWidget.SkipSelectTillItem tillState
    then ListWidget.itemId tillState else ListWidget.itemId tillState - 1 in
  tillId < id <= fromId.

End scenarios.

Definition sameMonth (a b : QDate) : bool :=
  (year a =? year b) && (month a =? month b).

Definition sameDay (a b : QDate) : bool :=
  sameMonth a b && (day a =? day b).

(** The bucket of a Section as the claim words it: Voice and Music files
    are never split. *)
Definition claimedBucket (type : MediaType) (a b : QDate) : bool :=
  match type with
  | Photo | Video | RoundFile | File => sameMonth a b
  | Link => sameDay a b
  | VoiceFile | MusicFile => true
  end.

(** The bucket as [belongsHere] computes it. *)
Definition sameBucket (type : MediaType) (a b : QDate) : bool :=
  match type with
  | Photo | Video | RoundFile | VoiceFile | File => sameMonth a b
  | Link => sameDay a b
  | MusicFile => true
  end.

(** What [addItem] decides on: the bucket of the last item (the smallest
    id), when there is one. *)
Definition accepts (s : MSection.t) (item : BaseLayout) : bool :=
  match last (MSection._items s) with
  | None => true
  | Some back =>
      sameBucket (MSection._type s) (date (getItem item))
        (date (getItem back.2))
  end.

(** All the items of the Section sit in one bucket. *)
Definition uniform (s : MSection.t) : Prop :=
  forall e e', e ∈ MSection._items s -> e' ∈ MSection._items s ->
    sameBucket (MSection._type s) (date (getItem e.2)) (date (getItem e'.2))
    = true.

(** Every entry of [_items] sits under the id of its own message, as
    [appendItem] files it. *)
Definition keyed (items : MSection.Items) : Prop :=
  forall e, e ∈ items -> e.1 = GetUniversalId_layout e.2.

(** Distance from a point to a rectangle (0 inside), for "nearest". *)
Definition span_distance (lo len v : Z) : Z :=
  if v <? lo then lo - v
  else if lo + len - 1 <? v then v - (lo + len - 1) else 0.

Definition rect_distance (r : QRect) (p : QPoint) : Z :=
  span_distance (rx r) (rw r) (px p) + span_distance (ry r) (rh r) (py p).

(** ** Vocabulary of the geometry proofs *)

Section geometry.
Context {sty : Style} {host : Host}.

(** Re-measuring at [width], as an entry of [_items]. *)
Definition remeasure (width : Z) (e : UniversalMsgId * BaseLayout)
    : UniversalMsgId * BaseLayout :=
  (e.1, resizeGetHeight e.2 width).

(** [e'] is [e] moved to another position. *)
Definition moved (e e' : UniversalMsgId * BaseLayout) : Prop :=
  e'.1 = e.1 ∧ e'.2 = setPosition e.2 (position e'.2).

(** [refreshHeight] written with projections instead of patterns. *)
Definition refreshed (s : MSection.t) : MSection.t :=
  let size := Z.of_nat (length (MSection._items s)) in
  match MSection._type s with
  | Photo | Video | RoundFile =>
      let itemHeight := MSection._itemWidth s + infoMediaSkip in
      let r :=
        MSection.recountGrid (MSection._itemsInRow s) itemHeight
          (MSection._items s)
          (MSection.headerHeight s + MSection._itemsTop s) 0 in
      let partial := negb (size `rem` MSection._itemsInRow s =? 0) in
      MSection.mkSection (MSection._type s) (MSection._header s) r.1
        (MSection._itemsLeft s) (MSection._itemsTop s) (MSection._itemWidth s)
        (MSection._itemsInRow s)
        (if partial then size `quot` MSection._itemsInRow s + 1
         else size `quot` MSection._itemsInRow s)
        (MSection._top s)
        (if partial then r.2 + itemHeight else r.2)
  | VoiceFile | File | MusicFile | Link =>
      let r :=
        MSection.recountColumn (MSection._items s) (MSection.headerHeight s) in
      MSection.mkSection (MSection._type s) (MSection._header s) r.1
        (MSection._itemsLeft s) (MSection._itemsTop s) (MSection._itemWidth s)
        (MSection._itemsInRow s) size (MSection._top s) r.2
  end.

(** The positions [recountHeight] leaves in a grid Section whose rows
    start at [base] and whose items are all [h] high. *)
Definition gridLaidOut (s : MSection.t) (base h : Z) : Prop :=
  forall i e, MSection._items s !! i = Some e ->
    position e.2
    = MSection._itemsInRow s
      * (base + Z.of_nat i `div` MSection._itemsInRow s
                * (MSection._itemWidth s + infoMediaSkip))
      + Z.of_nat i `mod` MSection._itemsInRow s
    ∧ height e.2 = h.

(** The positions [recountHeight] leaves in a single column: every item
    starts where the one before it ends, or below. *)
Definition columnLaidOut (s : MSection.t) : Prop :=
  MSection._itemsInRow s = 1
  ∧ (forall e, e ∈ MSection._items s -> 0 <= height e.2)
  ∧ forall i j e e', (i < j)%nat ->
      MSection._items s !! i = Some e -> MSection._items s !! j = Some e' ->
      position e.2 + height e.2 <= position e'.2.

End geometry.

(** ** Vocabulary of the hit test *)

Section hit_test_vocabulary.
Context {sty : Style} {host : Host}.

(** The kinds [resizeToWidth] and [recountHeight] lay out as a grid. *)
Definition gridKind (type : MediaType) : bool :=
  match type with
  | Photo | Video | RoundFile => true
  | VoiceFile | File | MusicFile | Link => false
  end.

(** The geometry [resizeToWidth] settles on together with the positions
    [refreshHeight] hands out: what the hit test can rely on between two
    changes of the Section. *)
Definition laidOut (s : MSection.t) : Prop :=
  match MSection._type s with
  | Photo | Video | RoundFile =>
      0 < MSection._itemsInRow s ∧ 0 <= infoMediaSkip
      ∧ 0 < MSection._itemWidth s ∧ MSection._itemsLeft s = infoMediaSkip
      ∧ exists base h,
          0 <= base ∧ 0 <= h <= MSection._itemWidth s + infoMediaSkip
          ∧ gridLaidOut s base h
  | VoiceFile | File | MusicFile | Link =>
      0 < MSection._itemWidth s + infoMediaSkip ∧ columnLaidOut s
  end.

(** The points whose column shift [findItemByPoint] gets right: all of a
    grid, and in a single column those left of [_itemWidth + skip]. *)
Definition columnResolved (s : MSection.t) (point : QPoint) : Prop :=
  match MSection._type s with
  | Photo | Video | RoundFile => True
  | VoiceFile | File | MusicFile | Link =>
      px point < MSection._itemWidth s + infoMediaSkip
  end.

(** [found] is as near to [point] as any item of the Section. *)
Definition nearestItem (s : MSection.t) (point : QPoint) (found : FoundItem)
    : Prop :=
  forall e, e ∈ MSection._items s ->
    rect_distance (found_geometry found) point
    <= rect_distance (MSection.findItemRect s e.2) point.

End hit_test_vocabulary.

(** ** Vocabulary of the removal proofs *)

(** The rows as [refreshRows] builds them: no Section is empty, every
    Section files its layouts under their own ids in descending order,
    and the ids keep descending from one Section to the next. *)
Definition rowsWellFormed (w : ListWidget.t) : Prop :=
  (forall s, s ∈ ListWidget._sections w ->
     MSection._items s ≠ [] ∧ flat_map.sorted Z.gtb (MSection._items s)
     ∧ keyed (MSection._items s))
  ∧ (forall i j s s' e e', (i < j)%nat ->
       ListWidget._sections w !! i = Some s ->
       ListWidget._sections w !! j = Some s' ->
       e ∈ MSection._items s -> e' ∈ MSection._items s' -> e'.1 < e.1).

(** The predicate of [findSectionByItem] once no Section is empty. *)
Definition endsAbove (universalId : UniversalMsgId) (s : MSection.t) : bool :=
  match MSection.minId s with
  | Some minId => minId >? universalId
  | None => false
  end.

(** The id [k] names nothing in the widget: no Section, no cached layout
    and no selection map holds it. *)
Definition absent (k : UniversalMsgId) (w : ListWidget.t) : Prop :=
  (forall s, s ∈ ListWidget._sections w ->
     k ∉ flat_map.keys (MSection._items s))
  ∧ ListWidget._layouts w !! k = None
  ∧ (k ∉ flat_map.keys (ListWidget._selected w))
  ∧ (k ∉ flat_map.keys (ListWidget._dragSelected w)).

(** The rows once [universalId] is gone: no Section is empty, and every
    entry sits under the id of its own message, which is neither 0 nor
    [universalId]. *)
Definition rowsWithout (universalId : UniversalMsgId) (w : ListWidget.t)
    : Prop :=
  forall s, s ∈ ListWidget._sections w ->
    MSection._items s ≠ []
    ∧ forall e, e ∈ MSection._items s ->
        e.1 = GetUniversalId_layout e.2 ∧ e.1 ≠ universalId ∧ e.1 ≠ 0.

(** [w'] shows the rows of [w]: what a handler leaves alone when it
    only moves the cursor and the selection, sending effects on the way. *)
Definition sameRows (w w' : ListWidget.t) : Prop :=
  ListWidget._peer w' = ListWidget._peer w
  ∧ ListWidget._type w' = ListWidget._type w
  ∧ ListWidget._sections w' = ListWidget._sections w
  ∧ ListWidget._layouts w' = ListWidget._layouts w
  ∧ exists newer, ListWidget.log w' = newer ++ ListWidget.log w.

(** ** Vocabulary of the further properties *)

(** The heights of the layouts of [items], added up. *)
Definition heightsOf (items : MSection.Items) : Z :=
  foldr (fun e acc => height e.2 + acc) 0 items.

(** The Sections as the widget's [recountHeight] places them: each one
    starts where the one before it ends, and none has a negative
    height. *)
Definition stacked (sections : list MSection.t) : Prop :=
  (forall i s s', sections !! i = Some s -> sections !! S i = Some s' ->
     MSection._top s' = MSection.bottom s)
  ∧ forall s, s ∈ sections -> 0 <= MSection._height s.

(** A Section as [refreshRows] builds it. *)
Definition filed (s : MSection.t) : Prop :=
  flat_map.sorted Z.gtb (MSection._items s) ∧ keyed (MSection._items s)
  ∧ uniform s.

(** ** saveState and restoreState

    [Memento] (info_media_widget.h) is not among the sources: following
    the spec it is the record of the four values its setters store, and
    [kDefaultAroundId], declared in the same header, is passed in. *)
Record Memento := mkMemento {
  memento_aroundId : FullMsgId;
  memento_idsLimit : Z;
  memento_scrollTopItem : FullMsgId;
  memento_scrollTopShift : Z }.

Definition saveState {sty : Style} (kDefaultAroundId : UniversalMsgId)
    (w : ListWidget.t) (memento : Memento) : option Memento :=
  if negb (ListWidget._universalAroundId w =? kDefaultAroundId) then
    state ← ListWidget.countScrollState w;
    if negb (ListWidget.scroll_item state =? 0) then
      aroundId ← ListWidget.computeFullId w (ListWidget._universalAroundId w);
      scrollTopItem ← ListWidget.computeFullId w (ListWidget.scroll_item state);
      Some (mkMemento aroundId (ListWidget._idsLimit w) scrollTopItem
              (ListWidget.scroll_shift state))
    else Some memento
  else Some memento.

Definition restoreState (w : ListWidget.t) (memento : Memento)
    : ListWidget.t :=
  let limit := memento_idsLimit memento in
  if negb (limit =? 0) then
    let wasAroundId := memento_aroundId memento in
    if ListWidget.isPossiblyMyId w wasAroundId then
      let w := ListWidget.set_idsLimit limit w in
      let w :=
        ListWidget.set_universalAroundId (GetUniversalId wasAroundId) w in
      let w :=
        ListWidget.set_scrollTopState
          (ListWidget.mkScrollTop
             (GetUniversalId (memento_scrollTopItem memento))
             (memento_scrollTopShift memento)) w in
      ListWidget.refreshViewer w
    else w
  else w.

(** The universal ids of the messages a widget can own: negative for the
    plain history of a chat or of the migrated peer, positive for the
    messages of a channel. *)
Definition ownId (w : ListWidget.t) (universalId : UniversalMsgId) : Prop :=
  is_int32 universalId ∧ universalId ≠ 0
  ∧ (0 < universalId ->
     isChannel (ListWidget._peer w) = true
     ∧ bareId (ListWidget._peer w) ≠ NoChannel)
  ∧ (universalId < 0 ->
     isChannel (ListWidget._peer w) = false
     ∨ is_Some (ListWidget._migrated w)).

(** Two cursor states whose coordinate differences, either way, and
    the sum of the differences fit the 32 bits of [int]. *)
Definition cursorsNear (a b : ListWidget.CursorState) : Prop :=
  let dx := px (ListWidget.cursor a) - px (ListWidget.cursor b) in
  let dy := py (ListWidget.cursor a) - py (ListWidget.cursor b) in
  - 2 ^ 31 < dx < 2 ^ 31 ∧ - 2 ^ 31 < dy < 2 ^ 31
  ∧ - 2 ^ 31 < dx + dy < 2 ^ 31.

(** The drag selection [updateDragSelection] builds between the states
    once they are in order: what it keeps of the old one, and the cached
    layouts of the interval. *)
Definition dragSelectedBetween {host : Host} (w : ListWidget.t)
    (fromState tillState : ListWidget.CursorState)
    : option ListWidget.SelectedMap :=
  let fromId :=
    if ListWidget.SkipSelectFromItem fromState
    then ListWidget.itemId fromState - 1 else ListWidget.itemId fromState in
  let tillId :=
    if ListWidget.SkipSelectTillItem tillState
    then ListWidget.itemId tillState else ListWidget.itemId tillState - 1 in
  let kept :=
    List.filter
      (fun i : UniversalMsgId * ListWidget.SelectionData =>
         negb ((i.1 >? fromId) || (i.1 <=? tillId)))
      (ListWidget._dragSelected w) in
  ListWidget.dragSelectLayouts w fromId tillId (ListWidget.layoutsInOrder w)
    kept.

(** The committed status [updateDragSelection] reads off an id. *)
Definition committed (w : ListWidget.t) (universalId : UniversalMsgId) : bool :=
  ListWidget.isSelectedItem
    (flat_map.find Z.ltb universalId (ListWidget._selected w)).

(** [items] is the snapshot [collectSelectedItems] takes of the
    committed selection [selected]: the type of the widget and, when the
    first entry is an item selected in full, one entry for each entry of
    the selection, in its order, under the message id of its universal
    id and with its permissions; no entry when the selection is empty or
    a text selection. *)
Definition snapshotOf (w : ListWidget.t) (selected : ListWidget.SelectedMap)
    (items : ListWidget.SelectedItems) : Prop :=
  ListWidget.si_type items = ListWidget._type w
  ∧ if ListWidget.isSelectedItem (snd <$> head selected)
    then
      Forall2
        (fun (entry : UniversalMsgId * ListWidget.SelectionData) item =>
           ListWidget.computeFullId w entry.1 = Some (ListWidget.msgId item)
           ∧ ListWidget.si_canDelete item = ListWidget.sd_canDelete entry.2
           ∧ ListWidget.si_canForward item = ListWidget.sd_canForward entry.2)
        selected (ListWidget.si_list items)
    else ListWidget.si_list items = [].

(** ** Worked inputs

    A style, a message store and a toolkit for the closed examples:
    channel 7 holds the messages 1..999, message [m] dated in month
    [m / 100 + 1] of 2017; at most three items can be selected. *)

Definition demoStyle : Style := {|
  infoMediaSkip := 5;
  infoMediaMinGridSize := 90;
  infoMediaHeaderHeight := 28;
  infoMediaHeaderPosition := mkPoint 14 6;
  infoMediaMargin := mkMargins 0 6 0 2 |}.

Definition demoItem (media : HistoryMedia) (msg : MsgId) : HistoryItem :=
  mkItem (mkFullMsgId 7 msg) (mkDate 2017 (msg `quot` 100 + 1) 1) 7 true true
    (Some media).

Definition demoHost : Host := {|
  MaxSelectedItems := 3;
  histItemById := fun fullId =>
    if (channel fullId =? 7) && (0 <? msg fullId) && (msg fullId <? 1000)
    then Some (demoItem MediaPhoto (msg fullId)) else None;
  langMonthFull := fun _ => "Month"%string;
  langDayOfMonthFull := fun _ => "Day"%string;
  layoutResizeGetHeight := fun kind _ width =>
    match kind with LayoutPhoto | LayoutVideo => width | _ => 40 end;
  layoutGetState := fun _ _ _ =>
    mkTextState None false 0 HistoryDefaultCursorState;
  layoutAdjustSelection := fun _ selection _ => selection;
  startDragDistance := 10;
  mapFromGlobal := fun point => point |}.

Definition demoLayout (kind : LayoutKind) (media : HistoryMedia) (msg : MsgId)
    : BaseLayout :=
  mkLayout kind (demoItem media msg) 0 0 0.

Definition demoPhoto : MsgId -> BaseLayout := demoLayout LayoutPhoto MediaPhoto.
Definition demoFile : MsgId -> BaseLayout :=
  demoLayout LayoutDocument MediaDocument.
Definition demoVoice : MsgId -> BaseLayout :=
  demoLayout LayoutVoice MediaDocument.

Definition noSlice : ListWidget.Slice :=
  ListWidget.mkSlice None None None [] (fun _ => None).

(** A widget 400 pixels wide, showing pixels 0..800, with the given peers,
    cache, Sections and committed selection. *)
Definition demoWidgetFor (peer : PeerData) (migrated : option PeerData)
    (type : MediaType) (layouts : gmap Z ListWidget.CachedItem)
    (sections : list MSection.t) (selected : ListWidget.SelectedMap)
    : ListWidget.t :=
  ListWidget.mkWidget peer migrated type 0 0 noSlice None layouts
    sections 0 800 (ListWidget.mkScrollTop 0 0) ListWidget.ActionNone Letters
    (mkPoint 0 0) None ListWidget.noCursorState ListWidget.noCursorState 0
    HistoryDefaultCursorState ListWidget.cur_default false false selected []
    ListWidget.DragNone (mkSize 400 0) None None [].

(** The widget of channel 7. *)
Definition demoWidget : MediaType -> gmap Z ListWidget.CachedItem ->
    list MSection.t -> ListWidget.SelectedMap -> ListWidget.t :=
  demoWidgetFor (mkPeer 7 true 7) None.

(** The widget of channel 7 that continues the group chat 3. *)
Definition demoMigratedWidget : ListWidget.t :=
  demoWidgetFor (mkPeer 7 true 7) (Some (mkPeer 3 false 3)) Photo ∅ [] [].

(** Three cached photos (ids 1, 2, 3) for the drag examples, and two
    cursor states inside the first and the last of them. *)
Definition demoLayouts : gmap Z ListWidget.CachedItem :=
  list_to_map
    [(1, ListWidget.mkCached (demoPhoto 1) false);
     (2, ListWidget.mkCached (demoPhoto 2) false);
     (3, ListWidget.mkCached (demoPhoto 3) false)].

Definition demoFull : ListWidget.SelectionData :=
  ListWidget.mkSelData FullSelection true true.

Definition demoCursorIn (universalId : Z) : ListWidget.CursorState :=
  ListWidget.mkCursorState universalId (mkSize 93 93) (mkPoint 10 10) true.

(** A Section of the given kind, filled by [addItem] and laid out at the
    given width. *)
Definition demoSection (type : MediaType) (layouts : list BaseLayout)
    (width : Z) : MSection.t :=
  let fresh := MSection.create type in
  MSection.resizeToWidth (sty := demoStyle) (host := demoHost)
    (default fresh (addItems (host := demoHost) fresh layouts))
    width.

(** Six photos of one month in a grid of three columns, and three files
    of one month in a column. *)
Definition demoPhotoSection : MSection.t :=
  demoSection Photo (demoPhoto <$> [101; 102; 103; 104; 105; 106]) 300.

Definition demoFileSection : MSection.t :=
  demoSection File (demoFile <$> [103; 104; 105]) 400.

(** A slice of three photos of channel 7 around the message 102, with
    the given total count. *)
Definition demoSlice (count : option Z) : ListWidget.Slice :=
  ListWidget.mkSlice count (Some 0) (Some 0)
    [mkFullMsgId 7 101; mkFullMsgId 7 102; mkFullMsgId 7 103]
    (fun _ => Some (mkFullMsgId 7 102)).

(** The empty widget of channel 7 once it has subscribed to its slices. *)
Definition demoSubscribed : ListWidget.t :=
  ListWidget.refreshViewer (demoWidget Photo ∅ [] []).

(** The widget of channel 7 showing the six photos, the photo 104
    selected. *)
Definition demoRows : ListWidget.t :=
  demoWidget Photo ∅ [demoPhotoSection] [(104, demoFull)].

(** The widget of channel 7 holding a slice of photos of two months,
    before its rows are built. *)
Definition demoSliced : ListWidget.t :=
  ListWidget.set_slice
    (ListWidget.mkSlice (Some 3) (Some 0) (Some 0)
       [mkFullMsgId 7 101; mkFullMsgId 7 102; mkFullMsgId 7 203]
       (fun _ => None))
    (demoWidget Photo ∅ [] []).

(** [demoRows] with its Section placed by [recountHeight]. *)
Definition demoPlaced : ListWidget.t :=
  (ListWidget.recountHeight (sty := demoStyle) demoRows).1.

(** [demoRows] in the middle of a drag that selects the photo 105. *)
Definition demoDragging : ListWidget.t :=
  ListWidget.set_dragSelectAction ListWidget.DragSelecting
    (ListWidget.set_dragSelected [(105, demoFull)] demoRows).

(** [demoRows] asked to show the messages around the photo 104. *)
Definition demoAround : ListWidget.t :=
  ListWidget.set_idsLimit 50 (ListWidget.set_universalAroundId 104 demoRows).

(** [demoRows] with the photos 104 and 105 selected. *)
Definition demoTwoSelected : ListWidget.t :=
  demoWidget Photo ∅ [demoPhotoSection] [(104, demoFull); (105, demoFull)].

(** Five cached photos (ids 101..105), inserted in no particular
    order. *)
Definition demoFiveLayouts : gmap Z ListWidget.CachedItem :=
  list_to_map
    ((fun k => (k, ListWidget.mkCached (demoPhoto k) false))
       <$> [105; 101; 104; 102; 103]).

(** * Properties *)

(** ** flat_map *)

Section flat_map_facts.
Context {V : Type} (cmp : Z -> Z -> bool).
Hypothesis cmp_irrefl : forall a, cmp a a = false.
Hypothesis cmp_total : forall a b, cmp a b = false -> cmp b a = false -> a = b.
Hypothesis cmp_trans :
  forall a b c, cmp a b = true -> cmp b c = true -> cmp a c = true.

Implicit Types (m : list (Z * V)) (k : Z) (v : V).

Lemma fm_emplace_ok k v m :
  (flat_map.emplace cmp k v m).2
  = match flat_map.find cmp k m with None => true | Some _ => false end.
Proof.
  induction m as [|[k' v'] m IH]; simpl; [done|].
  destruct (cmp k' k).
  - destruct (flat_map.emplace cmp k v m); simpl in *. exact IH.
  - destruct (cmp k k'); done.
Qed.

Lemma fm_emplace_present k v v' m :
  flat_map.find cmp k m = Some v' -> (flat_map.emplace cmp k v m).1 = m.
Proof.
  induction m as [|[k' w] m IH]; simpl; [done|].
  destruct (cmp k' k).
  - intros Hf. specialize (IH Hf).
    destruct (flat_map.emplace cmp k v m); simpl in *. by rewrite IH.
  - destruct (cmp k k'); done.
Qed.

Lemma fm_find_emplace k v m :
  flat_map.find cmp k (flat_map.emplace cmp k v m).1
  = Some (default v (flat_map.find cmp k m)).
Proof.
  induction m as [|[k' v'] m IH]; simpl.
  - by rewrite cmp_irrefl.
  - destruct (cmp k' k) eqn:E1.
    + destruct (flat_map.emplace cmp k v m); simpl in *. by rewrite E1.
    + destruct (cmp k k') eqn:E2; simpl.
      * by rewrite cmp_irrefl.
      * by rewrite E1, E2.
Qed.

Lemma fm_erase_emplace k v m :
  flat_map.find cmp k m = None ->
  flat_map.erase cmp k (flat_map.emplace cmp k v m).1 = m.
Proof.
  induction m as [|[k' v'] m IH]; simpl.
  - by rewrite cmp_irrefl.
  - destruct (cmp k' k) eqn:E1.
    + intros Hf. specialize (IH Hf).
      destruct (flat_map.emplace cmp k v m); simpl in *.
      by rewrite E1, IH.
    + destruct (cmp k k') eqn:E2; [|done]. intros _. simpl.
      by rewrite cmp_irrefl.
Qed.

Lemma fm_length_emplace k v m :
  length (flat_map.emplace cmp k v m).1
  = (length m + if (flat_map.emplace cmp k v m).2 then 1 else 0)%nat.
Proof.
  induction m as [|[k' v'] m IH]; simpl; [done|].
  destruct (cmp k' k).
  - destruct (flat_map.emplace cmp k v m); simpl in *. by rewrite IH.
  - destruct (cmp k k'); simpl; lia.
Qed.

Lemma fm_length_erase k m :
  length (flat_map.erase cmp k m)
  = (length m - match flat_map.find cmp k m with Some _ => 1 | None => 0 end)%nat.
Proof.
  induction m as [|[k' v'] m IH]; simpl; [done|].
  destruct (cmp k' k); simpl.
  - rewrite IH. destruct (flat_map.find cmp k m) eqn:E; [|lia].
    destruct m as [|[? ?] ?]; simpl in *; [done|lia].
  - destruct (cmp k k'); simpl; lia.
Qed.

Lemma fm_length_assign k v m :
  length (flat_map.assign cmp k v m) = length m.
Proof.
  induction m as [|[k' v'] m IH]; simpl; [done|].
  destruct (cmp k' k); simpl; [by rewrite IH|].
  by destruct (cmp k k').
Qed.

Lemma fm_find_assign k v m :
  is_Some (flat_map.find cmp k m) ->
  flat_map.find cmp k (flat_map.assign cmp k v m) = Some v.
Proof.
  induction m as [|[k' v'] m IH]; simpl; [by intros [? ?]|].
  destruct (cmp k' k) eqn:E1; simpl.
  - by rewrite E1.
  - destruct (cmp k k') eqn:E2; simpl.
    + by intros [? ?].
    + by rewrite E1, E2.
Qed.

Lemma fm_keys_assign k v m :
  flat_map.keys (flat_map.assign cmp k v m) = flat_map.keys m.
Proof.
  induction m as [|[k' v'] m IH]; simpl; [done|].
  destruct (cmp k' k); simpl; [by f_equal|].
  by destruct (cmp k k').
Qed.

Lemma fm_find_key k v m :
  flat_map.find cmp k m = Some v -> (k, v) ∈ m.
Proof.
  induction m as [|[k' v'] m IH]; simpl; [done|].
  destruct (cmp k' k) eqn:E1.
  - intros Hf. right. by apply IH.
  - destruct (cmp k k') eqn:E2; [done|].
    intros [= ->]. rewrite (cmp_total _ _ E1 E2). left.
Qed.

Lemma fm_find_None_notin k m :
  k ∉ flat_map.keys m -> flat_map.find cmp k m = None.
Proof.
  intros Hk. destruct (flat_map.find cmp k m) as [v|] eqn:E; [|done].
  exfalso. apply Hk. apply fm_find_key in E.
  unfold flat_map.keys. apply list_elem_of_fmap. by exists (k, v).
Qed.

Lemma fm_elem_emplace k v m e :
  e ∈ (flat_map.emplace cmp k v m).1 -> e = (k, v) ∨ e ∈ m.
Proof.
  induction m as [|[k' v'] m IH]; simpl.
  - rewrite list_elem_of_singleton. by left.
  - destruct (cmp k' k).
    + destruct (flat_map.emplace cmp k v m) as [r ok]; simpl in *.
      rewrite !elem_of_cons. intros [->|He]; [by right; left|].
      destruct (IH He); [by left|by right; right].
    + destruct (cmp k k'); simpl; rewrite ?elem_of_cons; tauto.
Qed.

Lemma fm_elem_emplace_old k v m e :
  e ∈ m -> e ∈ (flat_map.emplace cmp k v m).1.
Proof.
  induction m as [|[k' v'] m IH]; simpl; [by rewrite elem_of_nil|].
  destruct (cmp k' k).
  - destruct (flat_map.emplace cmp k v m) as [r ok]; simpl in *.
    rewrite !elem_of_cons. intros [->|He]; [by left|right; by apply IH].
  - destruct (cmp k k'); simpl; rewrite ?elem_of_cons; tauto.
Qed.

Lemma fm_elem_erase k m e :
  e ∈ flat_map.erase cmp k m -> e ∈ m.
Proof.
  induction m as [|[k' v'] m IH]; simpl; [done|].
  destruct (cmp k' k).
  - rewrite !elem_of_cons. intros [->|He]; [by left|right; by apply IH].
  - destruct (cmp k k'); [done|]. rewrite elem_of_cons; tauto.
Qed.

(** Every key after the head of a sorted map comes after it. *)
Lemma fm_sorted_head k v m e :
  flat_map.sorted cmp ((k, v) :: m) -> e ∈ m -> cmp k e.1 = true.
Proof.
  revert k v. induction m as [|[k' v'] m IH]; intros k v; [by rewrite elem_of_nil|].
  intros [Hk Hs]. rewrite elem_of_cons. intros [->|He]; [done|].
  eapply cmp_trans; [exact Hk|]. by eapply IH.
Qed.

Lemma fm_sorted_tail k v m :
  flat_map.sorted cmp ((k, v) :: m) -> flat_map.sorted cmp m.
Proof. by intros [_ ?]. Qed.

Lemma fm_find_elem k v m :
  flat_map.sorted cmp m -> (k, v) ∈ m -> flat_map.find cmp k m = Some v.
Proof.
  induction m as [|[k' v'] m IH]; [by rewrite elem_of_nil|].
  intros Hs. rewrite elem_of_cons. intros [[= <- <-]|He]; simpl.
  - by rewrite !cmp_irrefl.
  - pose proof (fm_sorted_head _ _ _ _ Hs He) as Hh. simpl in Hh.
    rewrite Hh. apply IH; [|done]. exact (fm_sorted_tail _ _ _ Hs).
Qed.

Lemma fm_find_erase k m :
  flat_map.sorted cmp m -> flat_map.find cmp k (flat_map.erase cmp k m) = None.
Proof.
  induction m as [|[k' v'] m IH]; simpl; [done|].
  intros Hs. destruct (cmp k' k) eqn:E1; simpl.
  - rewrite E1. apply IH, Hs.
  - destruct (cmp k k') eqn:E2; simpl.
    + by rewrite E1, E2.
    + assert (k' = k) as -> by by apply cmp_total.
      destruct m as [|[k2 v2] m]; simpl; [done|].
      destruct Hs as [Hk _]. rewrite Hk.
      destruct (cmp k2 k) eqn:E3; [|done].
      by rewrite (cmp_trans _ _ _ Hk E3) in E1.
Qed.

Lemma fm_sorted_erase k m :
  flat_map.sorted cmp m -> flat_map.sorted cmp (flat_map.erase cmp k m).
Proof.
  induction m as [|[k' v'] m IH]; simpl; [done|].
  intros Hs. destruct (cmp k' k) eqn:E1.
  - pose proof (proj2 Hs) as Ht. specialize (IH Ht).
    simpl. split; [|done].
    destruct (flat_map.erase cmp k m) as [|[k2 v2] r] eqn:E; [done|].
    apply (fm_sorted_head k' v' m (k2, v2) Hs).
    apply fm_elem_erase with k. rewrite E. left.
  - destruct (cmp k k'); [done|]. apply Hs.
Qed.

End flat_map_facts.

Lemma ltb_irrefl a : (a <? a) = false.
Proof. lia. Qed.

Lemma ltb_total a b : (a <? b) = false -> (b <? a) = false -> a = b.
Proof. lia. Qed.

Lemma ltb_trans a b c : (a <? b) = true -> (b <? c) = true -> (a <? c) = true.
Proof. lia. Qed.

Lemma gtb_irrefl a : (a >? a) = false.
Proof. lia. Qed.

Lemma gtb_total a b : (a >? b) = false -> (b >? a) = false -> a = b.
Proof. lia. Qed.

Lemma gtb_trans a b c : (a >? b) = true -> (b >? c) = true -> (a >? c) = true.
Proof. lia. Qed.

(** ** Section::addItem *)

Lemma sameBucket_refl type a : sameBucket type a a = true.
Proof. destruct type; unfold sameBucket, sameDay, sameMonth; lia. Qed.

Lemma sameBucket_sym type a b :
  sameBucket type a b = true -> sameBucket type b a = true.
Proof. destruct type; unfold sameBucket, sameDay, sameMonth; lia. Qed.

Lemma sameBucket_trans type a b c :
  sameBucket type a b = true -> sameBucket type b c = true ->
  sameBucket type a c = true.
Proof. destruct type; unfold sameBucket, sameDay, sameMonth; lia. Qed.

Section addItem_facts.
Context {host : Host}.

Implicit Types (s : MSection.t) (item : BaseLayout).

Lemma empty_last s : MSection.empty s = true <-> last (MSection._items s) = None.
Proof.
  unfold MSection.empty. destruct (MSection._items s) as [|e l]; [done|].
  split; [done|]. by rewrite last_cons; destruct (last l).
Qed.

Lemma addItem_eq s item :
  MSection.addItem s item
  = Some (if accepts s item
          then (MSection.appendItem
                  (if MSection.empty s then MSection.setHeader s item else s)
                  item, true)
          else (s, false)).
Proof.
  unfold MSection.addItem, accepts, MSection.belongsHere.
  destruct (MSection.empty s) eqn:E.
  - apply empty_last in E. by rewrite E.
  - destruct (last (MSection._items s)) as [back|] eqn:El.
    + simpl. unfold sameBucket, sameDay, sameMonth.
      by destruct (match MSection._type s with MusicFile => _ | _ => _ end).
    + apply empty_last in El. congruence.
Qed.

Lemma last_elem {A} (l : list A) x : last l = Some x -> x ∈ l.
Proof.
  induction l as [|y l IH]; [done|]. rewrite last_cons.
  destruct (last l); intros [= ->]; [right; by apply IH|left].
Qed.

Lemma accepts_uniform s item :
  uniform s ->
  accepts s item = true <->
  MSection._items s = [] ∨
  forall e, e ∈ MSection._items s ->
    sameBucket (MSection._type s) (date (getItem item)) (date (getItem e.2))
    = true.
Proof.
  intros Hu. unfold accepts.
  destruct (last (MSection._items s)) as [back|] eqn:El.
  - pose proof (last_elem _ _ El) as Hb. split.
    + intros Ha. right. intros e He.
      eapply sameBucket_trans; [exact Ha|]. by apply Hu.
    + intros [Hn|Hall]; [by rewrite Hn in Hb; apply elem_of_nil in Hb|].
      by apply Hall.
  - split; [|done]. intros _. left.
    destruct (MSection._items s) as [|e l]; [done|].
    rewrite last_cons in El. by destruct (last l).
Qed.

Lemma addItem_uniform s item s' ok :
  uniform s -> MSection.addItem s item = Some (s', ok) -> uniform s'.
Proof.
  intros Hu. rewrite addItem_eq. destruct (accepts s item) eqn:Ha;
    intros [= <- <-]; [|done].
  pose proof (proj1 (accepts_uniform s item Hu) Ha) as Hb.
  assert (forall e, e ∈ MSection._items s ->
            sameBucket (MSection._type s) (date (getItem item))
              (date (getItem e.2)) = true) as Hall.
  { destruct Hb as [Hn|?]; [|done]. intros e. rewrite Hn. by intros ?%elem_of_nil. }
  assert (forall t : MSection.t,
            MSection._type t = MSection._type s ->
            MSection._items t = MSection._items s ->
            uniform (MSection.appendItem t item)) as Happ.
  { intros t Ht Hi e e'. unfold MSection.appendItem. simpl. rewrite Ht, Hi.
    intros [->|He]%fm_elem_emplace [->|He']%fm_elem_emplace; simpl.
    - apply sameBucket_refl.
    - by apply Hall.
    - by apply sameBucket_sym, Hall.
    - by apply Hu. }
  destruct (MSection.empty s); by apply Happ.
Qed.

Lemma addItems_uniform layouts s :
  uniform s -> exists s', addItems s layouts = Some s' ∧ uniform s'
    ∧ MSection._type s' = MSection._type s.
Proof.
  revert s. induction layouts as [|l layouts IH]; intros s Hu; simpl.
  - by exists s.
  - pose proof (addItem_eq s l) as Heq. rewrite Heq. simpl.
    set (r := if accepts s l then _ else _) in *.
    destruct r as [s1 ok] eqn:Er.
    destruct (IH s1) as (s' & Hs' & Hu' & Ht').
    { eapply addItem_uniform; [exact Hu|]. by rewrite Heq. }
    exists s'. repeat split; [done..|]. rewrite Ht'. subst r.
    destruct (accepts s l); injection Er as <- <-; [|done].
    by destruct (MSection.empty s).
Qed.

End addItem_facts.

(** C1 (as amended).  On a Section filled by any run of [addItem] calls,
    [addItem] returns true exactly when the Section is empty or the new
    item falls into the bucket of the items it holds: the same year and
    month for Photo, Video, RoundFile, VoiceFile and File, the same day
    for Link, any date for MusicFile.  An accepted item is then found
    under its id and nothing is lost; a rejected one leaves the Section
    (items, header, geometry, height) as it was. *)
Theorem addItem_accepts_same_bucket {host : Host} (type : MediaType)
    (calls : list BaseLayout) (item : BaseLayout) :
  exists s, addItems (MSection.create type) calls = Some s ∧
  exists s' ok, MSection.addItem s item = Some (s', ok) ∧
    (ok = true <->
       MSection._items s = [] ∨
       forall e, e ∈ MSection._items s ->
         sameBucket type (date (getItem item)) (date (getItem e.2)) = true) ∧
    (ok = true ->
       flat_map.find Z.gtb (GetUniversalId_layout item) (MSection._items s')
       = Some (default item
                 (flat_map.find Z.gtb (GetUniversalId_layout item)
                    (MSection._items s)))
       ∧ forall e, e ∈ MSection._items s -> e ∈ MSection._items s') ∧
    (ok = false -> s' = s).
Proof.
  destruct (addItems_uniform calls (MSection.create type)) as (s & Hs & Hu & Ht).
  { intros e e' He. by apply elem_of_nil in He. }
  simpl in Ht. exists s. split; [done|].
  rewrite addItem_eq. destruct (accepts s item) eqn:Ha.
  - eexists _, true. split; [done|]. rewrite <- Ht.
    split; [by rewrite <- accepts_uniform|]. split; [|done]. intros _.
    assert (forall t : MSection.t,
              MSection._items t = MSection._items s ->
              flat_map.find Z.gtb (GetUniversalId_layout item)
                (MSection._items (MSection.appendItem t item))
              = Some (default item
                        (flat_map.find Z.gtb (GetUniversalId_layout item)
                           (MSection._items s)))
              ∧ forall e, e ∈ MSection._items s ->
                  e ∈ MSection._items (MSection.appendItem t item)) as Happ.
    { intros t Hi. unfold MSection.appendItem. simpl. rewrite Hi. split.
      - apply fm_find_emplace, gtb_irrefl.
      - intros e. apply fm_elem_emplace_old. }
    destruct (MSection.empty s); by apply Happ.
  - eexists _, false. split; [done|]. rewrite <- Ht.
    split; [by rewrite <- accepts_uniform, Ha|]. by split.
Qed.

(** C1 fails as stated: a VoiceFile Section holding a message of January
    rejects one of February, although the claim lets Voice files of any
    date share a Section. *)
Lemma addItem_splits_voice_files_by_month :
  exists s,
    addItems (host := demoHost) (MSection.create VoiceFile) [demoVoice 10]
    = Some s ∧
    MSection._items s ≠ [] ∧
    (forall e, e ∈ MSection._items s ->
       claimedBucket VoiceFile (date (getItem (demoVoice 150)))
         (date (getItem e.2)) = true) ∧
    MSection.addItem (host := demoHost) s (demoVoice 150) = Some (s, false).
Proof. eexists. split; [reflexivity|]. by repeat split. Qed.

(** ** GetUniversalId and computeFullId *)

Lemma int32_id z : is_int32 z -> int32 z = z.
Proof.
  unfold is_int32, int32. intros Hz.
  rewrite Z.mod_small; lia.
Qed.

(** C2 (as amended).  [computeFullId] undoes [GetUniversalId] on every
    identity the widget can own ([isPossiblyMyId]) whose message id is
    positive when it names the channel of the peer, and below
    [ServerMaxMsgId] but not more than 2^31 below it when it names no
    channel (so that [msg - ServerMaxMsgId] fits 32 bits). *)
Theorem computeFullId_GetUniversalId (w : ListWidget.t) (x : FullMsgId) :
  ListWidget.isPossiblyMyId w x = true ->
  (channel x ≠ NoChannel -> 0 < msg x) ->
  (channel x = NoChannel ->
     ServerMaxMsgId - 2 ^ 31 <= msg x < ServerMaxMsgId) ->
  ListWidget.computeFullId w (GetUniversalId x) = Some x.
Proof.
  unfold ListWidget.isPossiblyMyId, ListWidget.computeFullId, GetUniversalId,
    NoChannel, ServerMaxMsgId.
  destruct x as [c m]; simpl. intros Hmy Hpos Hneg.
  destruct (c =? 0) eqn:Ec; simpl in *.
  - assert (c = 0) as -> by lia. specialize (Hneg eq_refl).
    rewrite (int32_id (m - 1073741823)) by (unfold is_int32; lia).
    rewrite option_guard_True by lia.
    replace (0 <? m - 1073741823) with false by lia. simpl.
    rewrite int32_id by (unfold is_int32; lia).
    do 2 f_equal. lia.
  - assert (c ≠ 0) as Hc by lia. specialize (Hpos Hc).
    rewrite option_guard_True by lia.
    replace (0 <? m) with true by lia. simpl.
    apply andb_prop in Hmy as [-> Hb]. do 2 f_equal. lia.
Qed.

Lemma computeFullId_GetUniversalId_witness :
  ListWidget.computeFullId (demoWidget Photo ∅ [] [])
    (GetUniversalId (mkFullMsgId 7 5))
  = Some (mkFullMsgId 7 5).
Proof.
  apply computeFullId_GetUniversalId; [reflexivity|simpl; lia|].
  unfold NoChannel. simpl. lia.
Defined.

(** C2 fails as stated: message -1 of channel 7 belongs to the peer by
    its channel id, yet its universal id -1 is read back as a message of
    no channel. *)
Lemma computeFullId_GetUniversalId_negative_channel_msg :
  let w := demoWidget Photo ∅ [] [] in
  let x := mkFullMsgId 7 (-1) in
  ListWidget.isPossiblyMyId w x = true ∧
  channel x = bareId (ListWidget._peer w) ∧
  ListWidget.computeFullId w (GetUniversalId x)
  = Some (mkFullMsgId NoChannel (ServerMaxMsgId - 1)) ∧
  ListWidget.computeFullId w (GetUniversalId x) ≠ Some x.
Proof. by repeat split. Qed.

(** The other edge: a local message id without a channel, more than 2^31
    below [ServerMaxMsgId], wraps around to a universal id of the peer's
    own range. *)
Lemma computeFullId_GetUniversalId_wraps :
  let w := demoMigratedWidget in
  let x := mkFullMsgId NoChannel (- 0x7FFFFFFF) in
  ListWidget.isPossiblyMyId w x = true ∧
  msg x < ServerMaxMsgId ∧ GetUniversalId x = 0x40000002 ∧
  ListWidget.computeFullId w (GetUniversalId x)
  = Some (mkFullMsgId 7 0x40000002).
Proof. by repeat split. Qed.

(** ** changeItemSelection *)

Section selection_facts.
Context {sty : Style} {host : Host}.

Implicit Types (w : ListWidget.t) (m : ListWidget.SelectedMap).

Lemma changeItemSelection_absent_capped w m universalId selection :
  ¬ Z.of_nat (length m) < MaxSelectedItems ->
  flat_map.find Z.ltb universalId m = None ->
  ListWidget.changeItemSelection w m universalId selection = Some (m, false).
Proof.
  intros Hcap Hf. unfold ListWidget.changeItemSelection. rewrite Hf.
  by replace (Z.of_nat (length m) <? MaxSelectedItems) with false by lia.
Qed.

Lemma changeItemSelection_existing w m universalId selection data :
  flat_map.find Z.ltb universalId m = Some data ->
  ListWidget.changeItemSelection w m universalId selection
  = Some (if bool_decide (ListWidget.text data ≠ selection)
          then (flat_map.assign Z.ltb universalId
                  (ListWidget.mkSelData selection
                     (ListWidget.sd_canDelete data)
                     (ListWidget.sd_canForward data)) m, true)
          else (m, false)).
Proof.
  intros Hf. unfold ListWidget.changeItemSelection. rewrite Hf.
  destruct (Z.of_nat (length m) <? MaxSelectedItems); [|done].
  pose proof (fm_emplace_ok Z.ltb universalId
                (ListWidget.mkSelData selection false false) m) as Hok.
  rewrite Hf in Hok.
  destruct (flat_map.emplace _ _ _ _) as [inserted ok]; simpl in Hok.
  by rewrite Hok.
Qed.

Lemma changeItemSelection_fresh w m universalId selection :
  Z.of_nat (length m) < MaxSelectedItems ->
  flat_map.find Z.ltb universalId m = None ->
  ListWidget.changeItemSelection w m universalId selection
  = fullId ← ListWidget.computeFullId w universalId;
    Some match histItemById fullId with
         | None => (m, false)
         | Some item =>
             (flat_map.assign Z.ltb universalId
                (ListWidget.mkSelData selection (canDelete item)
                   (canForward item))
                (flat_map.emplace Z.ltb universalId
                   (ListWidget.mkSelData selection false false) m).1,
              true)
         end.
Proof.
  intros Hcap Hf. unfold ListWidget.changeItemSelection.
  replace (Z.of_nat (length m) <? MaxSelectedItems) with true by lia.
  pose proof (fm_emplace_ok Z.ltb universalId
                (ListWidget.mkSelData selection false false) m) as Hok.
  pose proof (fm_erase_emplace Z.ltb ltb_irrefl universalId
                (ListWidget.mkSelData selection false false) m Hf) as Her.
  rewrite Hf in Hok.
  destruct (flat_map.emplace _ _ _ _) as [inserted ok]; simpl in *.
  rewrite Hok. destruct (ListWidget.computeFullId w universalId); simpl; [|done].
  destruct (histItemById f); [done|]. by rewrite Her.
Qed.

(** C10.  When the id is not in the map and the message it names cannot
    be found, [changeItemSelection] returns false and hands the map back
    as it was: the id is still absent. *)
Theorem changeItemSelection_unresolved w m universalId selection fullId :
  flat_map.find Z.ltb universalId m = None ->
  ListWidget.computeFullId w universalId = Some fullId ->
  histItemById fullId = None ->
  ListWidget.changeItemSelection w m universalId selection = Some (m, false).
Proof.
  intros Hf Hid Hitem.
  destruct (decide (Z.of_nat (length m) < MaxSelectedItems)) as [Hcap|Hcap].
  - rewrite changeItemSelection_fresh by done. rewrite Hid. simpl.
    by rewrite Hitem.
  - by apply changeItemSelection_absent_capped.
Qed.

End selection_facts.

Lemma changeItemSelection_unresolved_witness :
  ListWidget.changeItemSelection (host := demoHost) (demoWidget Photo ∅ [] [])
    [(5, ListWidget.mkSelData FullSelection true true)] 5000 FullSelection
  = Some ([(5, ListWidget.mkSelData FullSelection true true)], false).
Proof.
  by apply (changeItemSelection_unresolved (host := demoHost) _ _ _ _
              (mkFullMsgId 7 5000)).
Defined.

Section selection_cap.
Context {sty : Style} {host : Host}.

Implicit Types (w : ListWidget.t) (m : ListWidget.SelectedMap).

Lemma computeFullId_is_Some w universalId :
  universalId ≠ 0 -> is_Some (ListWidget.computeFullId w universalId).
Proof.
  intros Hne. unfold ListWidget.computeFullId.
  by rewrite option_guard_True.
Qed.

Lemma collectSelectedItems_is_Some w :
  0 ∉ flat_map.keys (ListWidget._selected w) ->
  is_Some (ListWidget.collectSelectedItems w).
Proof.
  intros Hk. unfold ListWidget.collectSelectedItems.
  destruct (ListWidget.hasSelectedItems w); [|done].
  assert (is_Some (mapM
    (fun entry : UniversalMsgId * ListWidget.SelectionData =>
       fullId ← ListWidget.computeFullId w entry.1;
       Some (ListWidget.mkSelectedItem fullId
               (ListWidget.sd_canDelete entry.2)
               (ListWidget.sd_canForward entry.2)))
    (ListWidget._selected w))) as [l Hl]; [|by rewrite Hl].
  apply mapM_is_Some, Forall_forall. intros [k d] Hin. simpl.
  destruct (computeFullId_is_Some w k) as [f Hf]; [|by rewrite Hf].
  intros ->. apply Hk. unfold flat_map.keys.
  apply list_elem_of_fmap. by exists (0, d).
Qed.

Lemma pushSelectedItems_inv w w' :
  ListWidget.pushSelectedItems w = Some w' ->
  exists items, ListWidget.collectSelectedItems w = Some items
    ∧ w' = ListWidget.emit (ListWidget.SelectedListFired items) w.
Proof.
  unfold ListWidget.pushSelectedItems.
  destruct (ListWidget.collectSelectedItems w) as [items|]; [|done].
  intros [= <-]. by exists items.
Qed.

Lemma repaintItem_inv w universalId w' :
  ListWidget.repaintItem w universalId = Some w' ->
  exists l, w' = ListWidget.set_log l w.
Proof.
  unfold ListWidget.repaintItem.
  destruct (ListWidget.findItemById w universalId) as [[item|]|]; [| |done];
    intros [= <-]; [by eexists|].
  exists (ListWidget.log w). by destruct w.
Qed.

Lemma changeItemSelection_length w m universalId selection m' changed :
  ListWidget.changeItemSelection w m universalId selection
  = Some (m', changed) ->
  length m' = length m
  ∨ (Z.of_nat (length m) < MaxSelectedItems ∧ length m' = S (length m)).
Proof.
  destruct (flat_map.find Z.ltb universalId m) as [data|] eqn:Hf.
  - rewrite (changeItemSelection_existing _ _ _ _ _ Hf).
    case_bool_decide; intros [= <- <-]; [|by left].
    left. apply fm_length_assign.
  - destruct (decide (Z.of_nat (length m) < MaxSelectedItems)) as [Hcap|Hcap].
    + rewrite changeItemSelection_fresh by done.
      destruct (ListWidget.computeFullId w universalId); simpl; [|done].
      destruct (histItemById f); intros [= <- <-]; [|by left].
      right. split; [done|]. rewrite fm_length_assign, fm_length_emplace.
      rewrite fm_emplace_ok, Hf. simpl. lia.
    + rewrite changeItemSelection_absent_capped by done.
      intros [= <- <-]. by left.
Qed.

Lemma applyItemSelection_selected w universalId selection w' :
  ListWidget.applyItemSelection w universalId selection = Some w' ->
  exists changed,
    ListWidget.changeItemSelection w (ListWidget._selected w) universalId
      selection
    = Some (ListWidget._selected w', changed).
Proof.
  unfold ListWidget.applyItemSelection.
  destruct (ListWidget.changeItemSelection _ _ _ _) as [[m' changed]|];
    [|done]. simpl.
  destruct changed.
  - destruct (ListWidget.repaintItem _ _) as [w1|] eqn:Hr; [|done]. simpl.
    apply repaintItem_inv in Hr as [l ->].
    intros (items & _ & ->)%pushSelectedItems_inv. by exists true.
  - intros [= <-]. by exists false.
Qed.

Lemma removeItemSelection_selected w universalId w' :
  ListWidget.removeItemSelection w universalId = Some w' ->
  ListWidget._selected w'
  = flat_map.erase Z.ltb universalId (ListWidget._selected w).
Proof.
  unfold ListWidget.removeItemSelection.
  case_guard; [|done]. simpl.
  intros (items & _ & ->)%pushSelectedItems_inv. simpl.
  by destruct (ListWidget.hasSelected _).
Qed.

Lemma runSelectionOp_capped w op w' :
  Z.of_nat (length (ListWidget._selected w)) <= MaxSelectedItems ->
  runSelectionOp w op = Some w' ->
  Z.of_nat (length (ListWidget._selected w')) <= MaxSelectedItems.
Proof.
  intros Hcap.
  assert (forall u w', ListWidget.removeItemSelection w u = Some w' ->
            Z.of_nat (length (ListWidget._selected w')) <= MaxSelectedItems)
    as Hrem.
  { intros u w1 ->%removeItemSelection_selected. rewrite fm_length_erase. lia. }
  assert (forall u sel w', ListWidget.applyItemSelection w u sel = Some w' ->
            Z.of_nat (length (ListWidget._selected w')) <= MaxSelectedItems)
    as Happ.
  { intros u sel w1 [changed Hc]%applyItemSelection_selected.
    apply changeItemSelection_length in Hc. lia. }
  destruct op as [u sel|u|u]; simpl.
  - apply Happ.
  - unfold ListWidget.toggleItemSelection.
    destruct (flat_map.find _ _ _); [apply Hrem|apply Happ].
  - case_bool_decide; [apply Hrem|]. by intros [= <-].
Qed.

(** C3.  However the committed selection is changed, toggled or pruned,
    it never holds more than [MaxSelectedItems] entries, and no call of
    [changeItemSelection] takes any selection map past the cap.  At the
    cap an id that is not selected is refused and the map is handed back
    as it was, while an entry of the map can still be given another text
    or be toggled away. *)
Theorem selection_never_exceeds_cap :
  (forall w ops w',
     Z.of_nat (length (ListWidget._selected w)) <= MaxSelectedItems ->
     runSelectionOps w ops = Some w' ->
     Z.of_nat (length (ListWidget._selected w')) <= MaxSelectedItems)
  ∧ (forall w m universalId selection m' changed,
       Z.of_nat (length m) <= MaxSelectedItems ->
       ListWidget.changeItemSelection w m universalId selection
       = Some (m', changed) ->
       Z.of_nat (length m') <= MaxSelectedItems)
  ∧ (forall w m universalId selection,
       Z.of_nat (length m) = MaxSelectedItems ->
       flat_map.find Z.ltb universalId m = None ->
       ListWidget.changeItemSelection w m universalId selection
       = Some (m, false))
  ∧ (forall w m universalId selection data,
       Z.of_nat (length m) = MaxSelectedItems ->
       flat_map.find Z.ltb universalId m = Some data ->
       ListWidget.text data ≠ selection ->
       exists m',
         ListWidget.changeItemSelection w m universalId selection
         = Some (m', true)
         ∧ flat_map.find Z.ltb universalId m'
           = Some (ListWidget.mkSelData selection
                     (ListWidget.sd_canDelete data)
                     (ListWidget.sd_canForward data))
         ∧ flat_map.keys m' = flat_map.keys m)
  ∧ (forall w universalId,
       Z.of_nat (length (ListWidget._selected w)) = MaxSelectedItems ->
       is_Some (flat_map.find Z.ltb universalId (ListWidget._selected w)) ->
       flat_map.sorted Z.ltb (ListWidget._selected w) ->
       0 ∉ flat_map.keys (ListWidget._selected w) ->
       exists w',
         ListWidget.toggleItemSelection w universalId = Some w'
         ∧ ListWidget._selected w'
           = flat_map.erase Z.ltb universalId (ListWidget._selected w)
         ∧ flat_map.find Z.ltb universalId (ListWidget._selected w') = None
         ∧ Z.of_nat (length (ListWidget._selected w'))
           = MaxSelectedItems - 1).
Proof.
  split; [|split; [|split; [|split]]].
  - intros w ops. revert w. induction ops as [|op ops IH]; intros w w' Hcap.
    + by intros [= <-].
    + simpl. destruct (runSelectionOp w op) as [w1|] eqn:Hop; [|done]. simpl.
      apply IH. by eapply runSelectionOp_capped.
  - intros w m u sel m' changed Hcap Hc.
    apply changeItemSelection_length in Hc. lia.
  - intros w m u sel Hcap Hf.
    apply changeItemSelection_absent_capped; [lia|done].
  - intros w m u sel data Hcap Hf Hne.
    rewrite (changeItemSelection_existing _ _ _ _ _ Hf).
    rewrite bool_decide_true by done. eexists. split; [done|]. split.
    + apply fm_find_assign. by eexists.
    + apply fm_keys_assign.
  - intros w u Hcap [data Hf] Hs H0.
    unfold ListWidget.toggleItemSelection. rewrite Hf.
    unfold ListWidget.removeItemSelection.
    rewrite option_guard_True by by eexists. simpl.
    set (w1 := if ListWidget.hasSelected _ then _ else _).
    assert (ListWidget._selected w1
            = flat_map.erase Z.ltb u (ListWidget._selected w)) as Hsel.
    { subst w1. by destruct (ListWidget.hasSelected _). }
    destruct (collectSelectedItems_is_Some w1) as [items Hitems].
    { rewrite Hsel. intros Hin. apply H0. unfold flat_map.keys in *.
      apply list_elem_of_fmap in Hin as (e & He1 & He2).
      apply list_elem_of_fmap. exists e. split; [done|].
      by eapply fm_elem_erase. }
    unfold ListWidget.pushSelectedItems. rewrite Hitems. simpl.
    eexists. split; [done|]. simpl. rewrite Hsel. split; [done|]. split.
    + apply fm_find_erase; eauto using ltb_irrefl, ltb_total, ltb_trans.
    + rewrite fm_length_erase, Hf.
      assert (0 < length (ListWidget._selected w))%nat
        by (destruct (ListWidget._selected w); [done|simpl; lia]).
      lia.
Qed.

End selection_cap.

Lemma selection_never_exceeds_cap_witness :
  let w := demoWidget Photo ∅ []
             [(1, ListWidget.mkSelData FullSelection true true);
              (2, ListWidget.mkSelData FullSelection true true);
              (3, ListWidget.mkSelData FullSelection true true)] in
  ListWidget.changeItemSelection (host := demoHost) w
    (ListWidget._selected w) 4 FullSelection
  = Some (ListWidget._selected w, false)
  ∧ exists w',
      ListWidget.toggleItemSelection (sty := demoStyle) (host := demoHost) w 2
      = Some w'
      ∧ ListWidget._selected w'
        = flat_map.erase Z.ltb 2 (ListWidget._selected w)
      ∧ flat_map.find Z.ltb 2 (ListWidget._selected w') = None
      ∧ Z.of_nat (length (ListWidget._selected w'))
        = MaxSelectedItems (Host := demoHost) - 1.
Proof.
  pose proof (selection_never_exceeds_cap (sty := demoStyle)
                (host := demoHost)) as (_ & _ & Habsent & _ & Htoggle).
  split.
  - by apply Habsent.
  - apply Htoggle; [done|by eexists|by repeat split|].
    unfold flat_map.keys. simpl.
    repeat (apply not_elem_of_cons; split; [done|]). apply not_elem_of_nil.
Defined.

(** ** Section::resizeToWidth *)

Section resize_facts.
Context {sty : Style} {host : Host}.

Implicit Types (s : MSection.t) (items : MSection.Items).

Lemma refreshHeight_refreshed s : MSection.refreshHeight s = refreshed s.
Proof.
  unfold MSection.refreshHeight, MSection.recountHeight, refreshed.
  destruct (MSection._type s); simpl;
    first [ destruct (MSection.recountGrid _ _ _ _ _) as [items final]; simpl;
            by destruct (negb _)
          | by destruct (MSection.recountColumn _ _) as [items final] ].
Qed.

Lemma recountGrid_moved itemsInRow itemHeight items result index :
  Forall2 moved items
    (MSection.recountGrid itemsInRow itemHeight items result index).1.
Proof.
  revert result index. induction items as [|[id item] items IH];
    intros result index; simpl; [constructor|].
  destruct (index + 1 =? itemsInRow);
    (destruct (MSection.recountGrid _ _ items _ _) as [rest final] eqn:E;
     simpl; constructor; [done|]);
    [specialize (IH (result + itemHeight) 0)|specialize (IH result (index + 1))];
    by rewrite E in IH.
Qed.

Lemma recountColumn_moved items result :
  Forall2 moved items (MSection.recountColumn items result).1.
Proof.
  revert result. induction items as [|[id item] items IH];
    intros result; simpl; [constructor|].
  destruct (MSection.recountColumn items _) as [rest final] eqn:E.
  simpl; constructor; [done|].
  specialize (IH (result + height item)). by rewrite E in IH.
Qed.

Lemma recountGrid_again width itemsInRow itemHeight items result index :
  let r :=
    MSection.recountGrid itemsInRow itemHeight (map (remeasure width) items)
      result index in
  MSection.recountGrid itemsInRow itemHeight (map (remeasure width) r.1)
    result index = r.
Proof.
  revert result index. induction items as [|[id item] items IH];
    intros result index; simpl; [done|].
  destruct (index + 1 =? itemsInRow) eqn:Ei.
  - specialize (IH (result + itemHeight) 0). simpl in IH.
    destruct (MSection.recountGrid _ _ (map _ items) _ _) as [rest final].
    simpl in *. by rewrite Ei, IH.
  - specialize (IH result (index + 1)). simpl in IH.
    destruct (MSection.recountGrid _ _ (map _ items) _ _) as [rest final].
    simpl in *. by rewrite Ei, IH.
Qed.

Lemma recountColumn_again width items result :
  let r := MSection.recountColumn (map (remeasure width) items) result in
  MSection.recountColumn (map (remeasure width) r.1) result = r.
Proof.
  revert result. induction items as [|[id item] items IH];
    intros result; simpl; [done|].
  specialize (IH (result + layoutResizeGetHeight (layout_kind item)
                             (getItem item) width)). simpl in IH.
  destruct (MSection.recountColumn (map _ items) _) as [rest final].
  simpl in *. by rewrite IH.
Qed.

Lemma recountGrid_length itemsInRow itemHeight items result index :
  length (MSection.recountGrid itemsInRow itemHeight items result index).1
  = length items.
Proof.
  symmetry. eapply Forall2_length, recountGrid_moved.
Qed.

Lemma recountColumn_length items result :
  length (MSection.recountColumn items result).1 = length items.
Proof.
  symmetry. eapply Forall2_length, recountColumn_moved.
Qed.

(** The geometry [resizeToWidth] settles on, then [refreshHeight]: doing
    it again changes nothing. *)
Lemma refreshHeight_resizeItems_again s itemsLeft itemsTop itemsInRow
    itemWidth :
  let s' :=
    MSection.refreshHeight
      (MSection.resizeItems s itemsLeft itemsTop itemsInRow itemWidth) in
  MSection.refreshHeight
    (MSection.resizeItems s' itemsLeft itemsTop itemsInRow itemWidth) = s'.
Proof.
  simpl. rewrite !refreshHeight_refreshed.
  unfold refreshed, MSection.resizeItems, MSection.headerHeight.
  change (fun e : Z * BaseLayout => (e.1, resizeGetHeight e.2 itemWidth))
    with (remeasure itemWidth).
  destruct (MSection._type s) eqn:Et; simpl;
    rewrite ?length_map, ?recountGrid_length, ?recountColumn_length,
      ?length_map;
    first [ by rewrite recountGrid_again | by rewrite recountColumn_again ].
Qed.

End resize_facts.

Section resize_claims.
Context {sty : Style} {host : Host}.

Implicit Types (s : MSection.t).

Lemma refreshHeight_frame s :
  let s' := MSection.refreshHeight s in
  MSection._type s' = MSection._type s
  ∧ MSection._header s' = MSection._header s
  ∧ MSection._itemsLeft s' = MSection._itemsLeft s
  ∧ MSection._itemsTop s' = MSection._itemsTop s
  ∧ MSection._itemWidth s' = MSection._itemWidth s
  ∧ MSection._itemsInRow s' = MSection._itemsInRow s
  ∧ MSection._top s' = MSection._top s
  ∧ Forall2 moved (MSection._items s) (MSection._items s').
Proof.
  simpl. rewrite refreshHeight_refreshed. unfold refreshed.
  destruct (MSection._type s) eqn:Et; simpl; rewrite ?Et;
    repeat split;
    first [ apply recountGrid_moved | apply recountColumn_moved ].
Qed.

(** C8.  [resizeToWidth] is idempotent: a second call with the same
    width returns the Section the first one produced, with the same
    columns, item width, positions, heights and total height. *)
Theorem resizeToWidth_idempotent s (newWidth : Z) :
  MSection.resizeToWidth (MSection.resizeToWidth s newWidth) newWidth
  = MSection.resizeToWidth s newWidth.
Proof.
  unfold MSection.resizeToWidth.
  destruct (newWidth <? infoMediaMinGridSize + infoMediaSkip * 2) eqn:E;
    rewrite ?E; [done|].
  rewrite (proj1 (refreshHeight_frame _)).
  destruct (MSection._type s) eqn:Et; simpl; rewrite ?Et;
    apply refreshHeight_resizeItems_again.
Qed.

(** The items after [resizeToWidth] at an accepted width: every one is
    the old item measured at the new item width, at some position. *)
Lemma resizeToWidth_items s itemsLeft itemsTop itemsInRow itemWidth :
  Forall2
    (fun e e' => e'.1 = e.1
       ∧ e'.2 = setPosition (resizeGetHeight e.2 itemWidth) (position e'.2))
    (MSection._items s)
    (MSection._items
       (MSection.refreshHeight
          (MSection.resizeItems s itemsLeft itemsTop itemsInRow itemWidth))).
Proof.
  destruct (refreshHeight_frame
              (MSection.resizeItems s itemsLeft itemsTop itemsInRow itemWidth))
    as (_ & _ & _ & _ & _ & _ & _ & Hmoved).
  simpl in Hmoved. revert Hmoved.
  generalize (MSection._items
                (MSection.refreshHeight
                   (MSection.resizeItems s itemsLeft itemsTop itemsInRow
                      itemWidth))).
  induction (MSection._items s) as [|e l IH]; intros l' Hmoved;
    inversion Hmoved as [|? e' ? l'' [? ?] ?]; subst; constructor; auto.
Qed.

(** C9.  With [minTileSize + gap] positive: at a width of at least
    [minTileSize + 2 * gap] a grid Section (Photo, Video, RoundFile) gets
    floor((w - gap) / (minTileSize + gap)) columns of width
    floor((w - gap) / columns) - gap, left margin [gap]; a File or Link
    Section one column of width [w - 2 * margin] at [margin]; a Voice or
    Music Section one column of the full width; and every item is
    measured again at that item width.  Below that width the call
    returns the Section unchanged. *)
Theorem resizeToWidth_geometry s (newWidth : Z) :
  0 < infoMediaMinGridSize + infoMediaSkip ->
  let s' := MSection.resizeToWidth s newWidth in
  (newWidth < infoMediaMinGridSize + infoMediaSkip * 2 -> s' = s)
  ∧ (infoMediaMinGridSize + infoMediaSkip * 2 <= newWidth ->
     match MSection._type s with
     | Photo | Video | RoundFile =>
         MSection._itemsLeft s' = infoMediaSkip
         ∧ MSection._itemsInRow s'
           = (newWidth - infoMediaSkip)
               `div` (infoMediaMinGridSize + infoMediaSkip)
         ∧ MSection._itemWidth s'
           = (newWidth - infoMediaSkip) `div` MSection._itemsInRow s'
             - infoMediaSkip
     | File | Link =>
         MSection._itemsLeft s' = px infoMediaHeaderPosition
         ∧ MSection._itemsInRow s' = 1
         ∧ MSection._itemWidth s' = newWidth - 2 * px infoMediaHeaderPosition
     | VoiceFile | MusicFile =>
         MSection._itemsLeft s' = 0
         ∧ MSection._itemsInRow s' = 1
         ∧ MSection._itemWidth s' = newWidth
     end
     ∧ Forall2
         (fun e e' => e'.1 = e.1
            ∧ e'.2 = setPosition
                       (resizeGetHeight e.2 (MSection._itemWidth s'))
                       (position e'.2))
         (MSection._items s) (MSection._items s')).
Proof.
  intros Hpos. simpl. unfold MSection.resizeToWidth. split.
  - intros Hlt. by replace (newWidth <? _) with true by lia.
  - intros Hge. replace (newWidth <? _) with false by lia.
    assert (1 <= (newWidth - infoMediaSkip)
                   `div` (infoMediaMinGridSize + infoMediaSkip)) as Hcols.
    { apply Z.div_le_lower_bound; lia. }
    destruct (MSection._type s) eqn:Et;
      (split;
       [ match goal with
         | |- context [MSection.refreshHeight ?t] =>
             destruct (refreshHeight_frame t)
               as (_ & _ & -> & _ & -> & -> & _ & _)
         end; simpl;
         rewrite ?Z.quot_div_nonneg by lia; done
       | match goal with
         | |- context [MSection._itemWidth (MSection.refreshHeight ?t)] =>
             destruct (refreshHeight_frame t)
               as (_ & _ & _ & _ & -> & _ & _ & _)
         end; apply resizeToWidth_items ]).
Qed.

End resize_claims.

Lemma resizeToWidth_geometry_witness :
  let s := MSection.create Photo in
  let s' := MSection.resizeToWidth (sty := demoStyle) (host := demoHost) s 300 in
  MSection._itemsInRow s' = 3 ∧ MSection._itemWidth s' = 93.
Proof.
  destruct (resizeToWidth_geometry (sty := demoStyle) (host := demoHost)
              (MSection.create Photo) 300) as [_ Hgeo]; [done|].
  destruct Hgeo as [(_ & -> & ->) _]; [done|]. by split.
Defined.

(** ** Drag selection *)

Section drag_facts.
Context {sty : Style} {host : Host}.

Implicit Types (w : ListWidget.t) (m : ListWidget.SelectedMap)
  (press over : ListWidget.CursorState).

(** Nothing on the way from [updateDragSelection] to the committed
    selection reads the cursor states except [updateDragSelection]. *)

Lemma dragSelectLayouts_withCursors press over w fromId tillId layouts m :
  ListWidget.dragSelectLayouts (withCursors press over w) fromId tillId
    layouts m
  = ListWidget.dragSelectLayouts w fromId tillId layouts m.
Proof.
  revert m. induction layouts as [|[u c] layouts IH]; intros m; [done|].
  simpl. destruct ((u <=? fromId) && (u >? tillId)); simpl; [|apply IH].
  change (ListWidget.changeItemSelection (withCursors press over w) m u
            FullSelection)
    with (ListWidget.changeItemSelection w m u FullSelection).
  destruct (ListWidget.changeItemSelection w m u FullSelection)
    as [[m' ?]|]; simpl; [apply IH|done].
Qed.

Lemma selectAll_withCursors press over w dragSelected m :
  ListWidget.selectAll (withCursors press over w) dragSelected m
  = ListWidget.selectAll w dragSelected m.
Proof.
  revert m. induction dragSelected as [|[u d] l IH]; intros m; [done|].
  simpl.
  change (ListWidget.changeItemSelection (withCursors press over w) m u
            FullSelection)
    with (ListWidget.changeItemSelection w m u FullSelection).
  destruct (ListWidget.changeItemSelection w m u FullSelection)
    as [[m' ?]|]; simpl; [apply IH|done].
Qed.

Lemma pushSelectedItems_withCursors press over w :
  ListWidget.pushSelectedItems (withCursors press over w)
  = withCursors press over <$> ListWidget.pushSelectedItems w.
Proof.
  unfold ListWidget.pushSelectedItems.
  change (ListWidget.collectSelectedItems (withCursors press over w))
    with (ListWidget.collectSelectedItems w).
  by destruct (ListWidget.collectSelectedItems w).
Qed.

Lemma repaintItem_withCursors press over w universalId :
  ListWidget.repaintItem (withCursors press over w) universalId
  = withCursors press over <$> ListWidget.repaintItem w universalId.
Proof.
  unfold ListWidget.repaintItem.
  change (ListWidget.findItemById (withCursors press over w) universalId)
    with (ListWidget.findItemById w universalId).
  by destruct (ListWidget.findItemById w universalId) as [[?|]|].
Qed.

Lemma clearSelected_withCursors press over w :
  ListWidget.clearSelected (withCursors press over w)
  = withCursors press over <$> ListWidget.clearSelected w.
Proof.
  unfold ListWidget.clearSelected.
  change (ListWidget._selected (withCursors press over w))
    with (ListWidget._selected w).
  destruct (ListWidget._selected w) as [|first rest] eqn:Es; [done|].
  change (ListWidget.hasSelectedText (withCursors press over w))
    with (ListWidget.hasSelectedText w).
  destruct (ListWidget.hasSelectedText w).
  - rewrite repaintItem_withCursors.
    by destruct (ListWidget.repaintItem w first.1).
  - change (ListWidget.set_selected [] (withCursors press over w))
      with (withCursors press over (ListWidget.set_selected [] w)).
    rewrite pushSelectedItems_withCursors.
    by destruct (ListWidget.pushSelectedItems _).
Qed.

Lemma clearDragSelection_withCursors press over w :
  ListWidget.clearDragSelection (withCursors press over w)
  = withCursors press over (ListWidget.clearDragSelection w).
Proof.
  unfold ListWidget.clearDragSelection.
  change (ListWidget._dragSelected
            (ListWidget.set_dragSelectAction ListWidget.DragNone
               (withCursors press over w)))
    with (ListWidget._dragSelected w).
  change (ListWidget._dragSelected
            (ListWidget.set_dragSelectAction ListWidget.DragNone w))
    with (ListWidget._dragSelected w).
  by destruct (ListWidget._dragSelected w).
Qed.

Lemma applyDragSelection_withCursors press over w :
  ListWidget.applyDragSelection (withCursors press over w)
  = withCursors press over <$> ListWidget.applyDragSelection w.
Proof.
  assert (forall selected,
            ListWidget.pushSelectedItems
              (ListWidget.clearDragSelection
                 (ListWidget.set_selected selected (withCursors press over w)))
            = withCursors press over <$>
              ListWidget.pushSelectedItems
                (ListWidget.clearDragSelection
                   (ListWidget.set_selected selected w))) as Hpush.
  { intros selected.
    change (ListWidget.set_selected selected (withCursors press over w))
      with (withCursors press over (ListWidget.set_selected selected w)).
    rewrite clearDragSelection_withCursors.
    apply pushSelectedItems_withCursors. }
  unfold ListWidget.applyDragSelection, ListWidget.applyDragSelectionTo.
  change (ListWidget._dragSelectAction (withCursors press over w))
    with (ListWidget._dragSelectAction w).
  change (ListWidget._dragSelected (withCursors press over w))
    with (ListWidget._dragSelected w).
  change (ListWidget._selected (withCursors press over w))
    with (ListWidget._selected w).
  rewrite selectAll_withCursors.
  destruct (ListWidget._dragSelectAction w); simpl; [apply Hpush| |apply Hpush].
  destruct (ListWidget.selectAll w _ _) as [selected|]; simpl; [|done].
  apply Hpush.
Qed.

Lemma finishSelecting_withCursors press over w :
  ListWidget.finishSelecting (withCursors press over w)
  = withCursors press over <$> ListWidget.finishSelecting w.
Proof.
  unfold ListWidget.finishSelecting.
  change (ListWidget._dragSelected (withCursors press over w))
    with (ListWidget._dragSelected w).
  change (ListWidget._selected (withCursors press over w))
    with (ListWidget._selected w).
  change (ListWidget._pressWasInactive (withCursors press over w))
    with (ListWidget._pressWasInactive w).
  destruct (ListWidget._dragSelected w);
    [|apply applyDragSelection_withCursors].
  destruct (ListWidget._selected w) as [|first rest]; [done|].
  destruct (_ && _); [apply clearSelected_withCursors|done].
Qed.

End drag_facts.

Section drag_symmetry.
Context {sty : Style} {host : Host}.

Implicit Types (w : ListWidget.t) (m : ListWidget.SelectedMap).

Lemma keys_elem {V} (m : list (Z * V)) k :
  k ∈ flat_map.keys m <-> exists v, (k, v) ∈ m.
Proof.
  unfold flat_map.keys. split.
  - intros Hk. apply list_elem_of_fmap in Hk as ([k' v] & -> & He).
    by exists v.
  - intros [v He]. apply list_elem_of_fmap. by exists (k, v).
Qed.

Lemma changeItemSelection_keys w m universalId selection m' changed k :
  ListWidget.changeItemSelection w m universalId selection
  = Some (m', changed) ->
  k ∈ flat_map.keys m' -> k ∈ flat_map.keys m ∨ k = universalId.
Proof.
  destruct (flat_map.find Z.ltb universalId m) as [data|] eqn:Hf.
  - rewrite (changeItemSelection_existing _ _ _ _ _ Hf).
    case_bool_decide; intros [= <- <-]; [|by left].
    rewrite fm_keys_assign. by left.
  - destruct (decide (Z.of_nat (length m) < MaxSelectedItems)) as [Hcap|Hcap].
    + rewrite changeItemSelection_fresh by done.
      destruct (ListWidget.computeFullId w universalId); simpl; [|done].
      destruct (histItemById f); intros [= <- <-]; [|by left].
      rewrite fm_keys_assign. intros [v He]%keys_elem.
      apply fm_elem_emplace in He as [[= -> _]|He]; [by right|].
      left. apply keys_elem. by exists v.
    + rewrite changeItemSelection_absent_capped by done.
      intros [= <- <-]. by left.
Qed.

Lemma dragSelectLayouts_keys w fromId tillId layouts m m' k :
  ListWidget.dragSelectLayouts w fromId tillId layouts m = Some m' ->
  k ∈ flat_map.keys m' -> k ∈ flat_map.keys m ∨ tillId < k <= fromId.
Proof.
  revert m. induction layouts as [|[u c] layouts IH]; intros m; simpl.
  - intros [= <-]. by left.
  - destruct ((u <=? fromId) && (u >? tillId)) eqn:Er; simpl; [|apply IH].
    destruct (ListWidget.changeItemSelection w m u FullSelection)
      as [[m1 changed]|] eqn:Hc; simpl; [|done].
    intros Hrest Hk. destruct (IH _ Hrest Hk) as [Hk1|?]; [|by right].
    destruct (changeItemSelection_keys _ _ _ _ _ _ _ Hc Hk1) as [?| ->];
      [by left|right; lia].
Qed.

Lemma filter_keys {V} (P : Z * V -> bool) (m : list (Z * V)) k :
  k ∈ flat_map.keys (List.filter P m) -> exists v, P (k, v) = true.
Proof.
  intros [v He]%keys_elem. exists v.
  apply list_elem_of_In, filter_In in He. apply He.
Qed.

Lemma head_elem {A} (l : list A) x : head l = Some x -> x ∈ l.
Proof. destruct l; [done|]. intros [= ->]. left. Qed.

(** The action [updateDragSelection] settles on does not depend on the
    end it probes when the two ends are alike. *)
Lemma dragSelectAction_either_end m (selected : ListWidget.SelectedMap) :
  (forall first final, head m = Some first -> last m = Some final ->
     ListWidget.isSelectedItem (flat_map.find Z.ltb first.1 selected)
     = ListWidget.isSelectedItem (flat_map.find Z.ltb final.1 selected)) ->
  match head m with
  | None => ListWidget.DragNone
  | Some (firstDragItem, _) =>
      if ListWidget.isSelectedItem (flat_map.find Z.ltb firstDragItem selected)
      then ListWidget.DragDeselecting else ListWidget.DragSelecting
  end
  = match last m with
    | None => ListWidget.DragNone
    | Some (firstDragItem, _) =>
        if ListWidget.isSelectedItem
             (flat_map.find Z.ltb firstDragItem selected)
        then ListWidget.DragDeselecting else ListWidget.DragSelecting
    end.
Proof.
  intros Hsame. destruct m as [|e m]; [done|].
  destruct (last (e :: m)) as [[k2 d2]|] eqn:El.
  - destruct e as [k1 d1]. simpl.
    pose proof (Hsame (k1, d1) (k2, d2) eq_refl eq_refl) as Hends.
    simpl in Hends. by rewrite Hends.
  - rewrite last_cons in El. by destruct (last m).
Qed.

(** [updateDragSelection] for the press state [P] and the over state
    [Q], once [IsAfter] has put them in the order [fromState],
    [tillState]: it fails when the walk over the layouts does, and
    otherwise leaves the drag selection built between them. *)
Lemma updateDragSelection_between w P Q :
  let fromState := if ListWidget.IsAfter P Q then Q else P in
  let tillState := if ListWidget.IsAfter P Q then P else Q in
  ListWidget.itemId fromState ≠ 0 -> ListWidget.itemId tillState ≠ 0 ->
  match dragSelectedBetween w fromState tillState with
  | Some dragSelected =>
      exists w1, ListWidget.updateDragSelection (withCursors P Q w) = Some w1
        ∧ ListWidget._dragSelected w1 = dragSelected
  | None => ListWidget.updateDragSelection (withCursors P Q w) = None
  end.
Proof.
  simpl. intros Hfrom Htill.
  unfold ListWidget.updateDragSelection, dragSelectedBetween.
  change (ListWidget._pressState (withCursors P Q w)) with P.
  change (ListWidget._overState (withCursors P Q w)) with Q.
  destruct (ListWidget.IsAfter P Q).
  all: replace (_ || _) with false by lia.
  all: rewrite dragSelectLayouts_withCursors.
  all: change (ListWidget.layoutsInOrder (withCursors P Q w))
         with (ListWidget.layoutsInOrder w).
  all: change (ListWidget._dragSelected (withCursors P Q w))
         with (ListWidget._dragSelected w).
  all: destruct (ListWidget.dragSelectLayouts _ _ _ _ _) as [dragSelected|];
         [|done].
  all: cbn [mbind option_bind]; eexists; split; [done|].
  all: by destruct (_ && _ && _).
Qed.

Lemma updateDragSelection_swap w A B :
  ListWidget.IsAfter A B = true -> ListWidget.IsAfter B A = false ->
  (forall dragSelected first final,
     ListWidget.itemId B ≠ 0 -> ListWidget.itemId A ≠ 0 ->
     dragSelectedBetween w B A = Some dragSelected ->
     head dragSelected = Some first -> last dragSelected = Some final ->
     committed w first.1 = committed w final.1) ->
  ListWidget.updateDragSelection (withCursors B A w)
  = withCursors B A <$> ListWidget.updateDragSelection (withCursors A B w).
Proof.
  intros HAB HBA Hsame.
  unfold ListWidget.updateDragSelection, dragSelectedBetween in *.
  change (ListWidget._pressState (withCursors B A w)) with B.
  change (ListWidget._overState (withCursors B A w)) with A.
  change (ListWidget._pressState (withCursors A B w)) with A.
  change (ListWidget._overState (withCursors A B w)) with B.
  rewrite HAB, HBA.
  destruct ((ListWidget.itemId B =? 0) || (ListWidget.itemId A =? 0)) eqn:Hnull.
  { simpl. rewrite !clearDragSelection_withCursors. done. }
  set (fromId := if ListWidget.SkipSelectFromItem B then _ else _) in *.
  set (tillId := if ListWidget.SkipSelectTillItem A then _ else _) in *.
  rewrite !dragSelectLayouts_withCursors.
  change (ListWidget.layoutsInOrder (withCursors B A w))
    with (ListWidget.layoutsInOrder w).
  change (ListWidget.layoutsInOrder (withCursors A B w))
    with (ListWidget.layoutsInOrder w).
  change (ListWidget._dragSelected (withCursors B A w))
    with (ListWidget._dragSelected w).
  change (ListWidget._dragSelected (withCursors A B w))
    with (ListWidget._dragSelected w).
  destruct (ListWidget.dragSelectLayouts w fromId tillId _ _)
    as [dragSelected|] eqn:Hd; [|done].
  simpl.
  change (ListWidget._selected (withCursors B A w))
    with (ListWidget._selected w).
  change (ListWidget._selected (withCursors A B w))
    with (ListWidget._selected w).
  rewrite <- (dragSelectAction_either_end dragSelected (ListWidget._selected w)).
  - set (action := match head dragSelected with None => _ | Some _ => _ end).
    f_equal. by destruct (_ && _).
  - intros first final Hfirst Hfinal.
    apply (Hsame dragSelected first final); [lia|lia|done..].
Qed.

End drag_symmetry.

Section drag_tie.
Context {sty : Style} {host : Host}.

Implicit Types (w : ListWidget.t).

(** When [IsAfter] does not tell the two directions apart the states are
    states of one item, and the directions agree if the two states skip
    the item alike at either end. *)
Lemma updateDragSelection_tie w A B :
  ListWidget.IsAfter A B = ListWidget.IsAfter B A ->
  ListWidget.SkipSelectFromItem A = ListWidget.SkipSelectFromItem B ->
  ListWidget.SkipSelectTillItem A = ListWidget.SkipSelectTillItem B ->
  ListWidget.updateDragSelection (withCursors B A w)
  = withCursors B A <$> ListWidget.updateDragSelection (withCursors A B w).
Proof.
  intros Htie Hfrom Htill.
  assert (ListWidget.itemId A = ListWidget.itemId B) as Hid.
  { unfold ListWidget.IsAfter in Htie.
    destruct (decide (ListWidget.itemId A = ListWidget.itemId B)); [done|].
    replace (ListWidget.itemId A =? ListWidget.itemId B) with false in Htie
      by lia.
    replace (ListWidget.itemId B =? ListWidget.itemId A) with false in Htie
      by lia.
    simpl in Htie. lia. }
  unfold ListWidget.updateDragSelection.
  change (ListWidget._pressState (withCursors B A w)) with B.
  change (ListWidget._overState (withCursors B A w)) with A.
  change (ListWidget._pressState (withCursors A B w)) with A.
  change (ListWidget._overState (withCursors A B w)) with B.
  rewrite <- Htie.
  destruct (ListWidget.IsAfter A B).
  all: rewrite Hfrom, Htill, Hid.
  all: destruct (_ || _);
    [ simpl; by rewrite !clearDragSelection_withCursors | ].
  all: rewrite !dragSelectLayouts_withCursors.
  all: change (ListWidget.layoutsInOrder (withCursors B A w))
         with (ListWidget.layoutsInOrder w).
  all: change (ListWidget.layoutsInOrder (withCursors A B w))
         with (ListWidget.layoutsInOrder w).
  all: change (ListWidget._dragSelected (withCursors B A w))
         with (ListWidget._dragSelected w).
  all: change (ListWidget._dragSelected (withCursors A B w))
         with (ListWidget._dragSelected w).
  all: destruct (ListWidget.dragSelectLayouts _ _ _ _ _) as [dragSelected|];
         [|done].
  all: simpl.
  all: change (ListWidget._selected (withCursors B A w))
         with (ListWidget._selected w).
  all: change (ListWidget._selected (withCursors A B w))
         with (ListWidget._selected w).
  all: match goal with
       | |- context [ListWidget.set_dragSelectAction ?a] =>
           generalize a; intros action
       end.
  all: f_equal; by destruct (_ && _).
Qed.

End drag_tie.

Section drag_claim.
Context {sty : Style} {host : Host}.

(** C4 (as amended).  Dragging from A to B and releasing leaves the
    same committed selection as dragging from B to A and releasing, in
    two cases.  Either [IsAfter] orders the two cursor states one way
    only (different items, or different x + y inside one item) and the
    first and the last entry of the drag selection built between them
    have the same committed status (both selected in full, or both not,
    as when nothing is selected yet).  Or [IsAfter] does not tell the
    directions apart (two states of one item with the same x + y, the
    same state twice among them) and the two states skip their item
    alike, as the from end and as the till end. *)
Theorem drag_selection_symmetric (w : ListWidget.t)
    (A B : ListWidget.CursorState) :
  (ListWidget.IsAfter A B ≠ ListWidget.IsAfter B A
   ∧ forall w1 first final,
       ListWidget.updateDragSelection (withCursors A B w) = Some w1 ->
       head (ListWidget._dragSelected w1) = Some first ->
       last (ListWidget._dragSelected w1) = Some final ->
       ListWidget.isSelectedItem
         (flat_map.find Z.ltb first.1 (ListWidget._selected w))
       = ListWidget.isSelectedItem
           (flat_map.find Z.ltb final.1 (ListWidget._selected w)))
  ∨ (ListWidget.IsAfter A B = ListWidget.IsAfter B A
     ∧ ListWidget.SkipSelectFromItem A = ListWidget.SkipSelectFromItem B
     ∧ ListWidget.SkipSelectTillItem A = ListWidget.SkipSelectTillItem B) ->
  ListWidget._selected <$> dragSelectAndRelease w A B
  = ListWidget._selected <$> dragSelectAndRelease w B A.
Proof.
  intros Hcases.
  assert (forall P Q : ListWidget.CursorState,
            ListWidget.updateDragSelection (withCursors Q P w)
            = withCursors Q P <$>
              ListWidget.updateDragSelection (withCursors P Q w) ->
            ListWidget._selected <$> dragSelectAndRelease w Q P
            = ListWidget._selected <$> dragSelectAndRelease w P Q) as Hrel.
  { intros P Q Hswap. unfold dragSelectAndRelease. rewrite Hswap.
    destruct (ListWidget.updateDragSelection (withCursors P Q w)) as [w1|];
      [|done].
    simpl. rewrite finishSelecting_withCursors.
    by destruct (ListWidget.finishSelecting w1). }
  destruct Hcases as [[Hstrict Hsame]|(Htie & Hfrom & Htill)];
    [|symmetry; apply Hrel; by apply updateDragSelection_tie].
  assert (forall fromState tillState dragSelected first final,
            fromState = (if ListWidget.IsAfter A B then B else A) ->
            tillState = (if ListWidget.IsAfter A B then A else B) ->
            ListWidget.itemId fromState ≠ 0 ->
            ListWidget.itemId tillState ≠ 0 ->
            dragSelectedBetween w fromState tillState = Some dragSelected ->
            head dragSelected = Some first ->
            last dragSelected = Some final ->
            committed w first.1 = committed w final.1) as Hends.
  { intros fromState tillState dragSelected first final -> ->
      Hfrom Htill Hbetween Hfirst Hfinal.
    pose proof (updateDragSelection_between w A B Hfrom Htill) as Hupdate.
    rewrite Hbetween in Hupdate. destruct Hupdate as (w1 & Hw1 & Hdrag).
    apply (Hsame w1); by rewrite ?Hdrag. }
  destruct (ListWidget.IsAfter A B) eqn:HAB,
    (ListWidget.IsAfter B A) eqn:HBA; try done.
  - symmetry. apply Hrel. apply updateDragSelection_swap; [done..|].
    intros dragSelected first final ?. by apply Hends.
  - apply Hrel. apply updateDragSelection_swap; [done..|].
    intros dragSelected first final ? ?. by apply Hends.
Qed.

End drag_claim.

Lemma drag_selection_symmetric_witness :
  let w := demoWidget Photo demoLayouts [] [(2, demoFull)] in
  ListWidget._selected <$>
    dragSelectAndRelease (sty := demoStyle) (host := demoHost) w
      (demoCursorIn 1) (demoCursorIn 3)
  = ListWidget._selected <$>
      dragSelectAndRelease (sty := demoStyle) (host := demoHost) w
        (demoCursorIn 3) (demoCursorIn 1).
Proof.
  apply (drag_selection_symmetric (sty := demoStyle) (host := demoHost)).
  left. split; [by vm_compute|].
  intros w1 first final Hw1. vm_compute in Hw1. injection Hw1 as <-.
  by intros [= <-] [= <-].
Defined.

(** The walk over [_layouts] goes up the ids: a drag over five cached
    photos stops at the cap of three with the three smallest ids. *)
Lemma updateDragSelection_walks_in_order :
  (fun w => flat_map.keys (ListWidget._dragSelected w))
    <$> ListWidget.updateDragSelection (host := demoHost)
          (withCursors (demoCursorIn 101) (demoCursorIn 105)
             (demoWidget Photo demoFiveLayouts [] []))
  = Some [101; 102; 103].
Proof. by vm_compute. Qed.

(** C4 fails as stated: with item 1 selected and items 2 and 3 not,
    dragging from item 1 to item 3 deselects (nothing is left selected),
    dragging from item 3 to item 1 selects all three. *)
Lemma drag_selection_depends_on_direction :
  let w := demoWidget Photo demoLayouts [] [(1, demoFull)] in
  ListWidget._selected <$>
    dragSelectAndRelease (sty := demoStyle) (host := demoHost) w
      (demoCursorIn 1) (demoCursorIn 3)
  = Some []
  ∧ ListWidget._selected <$>
      dragSelectAndRelease (sty := demoStyle) (host := demoHost) w
        (demoCursorIn 3) (demoCursorIn 1)
    = Some [(1, demoFull); (2, demoFull); (3, demoFull)].
Proof. split; by vm_compute. Qed.

(** The tie of [IsAfter]: inside one item, two cursors of equal x + y
    are each "after" the other, and the item is selected in one direction
    only. *)
Lemma drag_selection_tie_depends_on_direction :
  let w := demoWidget Photo demoLayouts [] [] in
  let A := ListWidget.mkCursorState 2 (mkSize 93 93) (mkPoint 95 2) false in
  let B := ListWidget.mkCursorState 2 (mkSize 93 93) (mkPoint 48 49) true in
  ListWidget.IsAfter A B = true ∧ ListWidget.IsAfter B A = true
  ∧ ListWidget._selected <$>
      dragSelectAndRelease (sty := demoStyle) (host := demoHost) w A B
    = Some [(2, demoFull)]
  ∧ ListWidget._selected <$>
      dragSelectAndRelease (sty := demoStyle) (host := demoHost) w B A
    = Some [].
Proof. repeat split; by vm_compute. Qed.

(** ** ranges::lower_bound *)

Section lower_bound_facts.
Context {A : Type}.

Implicit Types (pred : A -> bool) (l : list A).

Lemma lower_bound_n_bounds fuel pred l first count :
  (first <= lower_bound_n fuel pred l first count <= first + count)%nat.
Proof.
  revert first count. induction fuel as [|fuel IH]; intros first count;
    cbn [lower_bound_n]; [lia|].
  destruct count as [|c]; [lia|].
  assert (Nat.div2 (S c) < S c)%nat as Hhalf by (apply Nat.lt_div2; lia).
  revert Hhalf. generalize (Nat.div2 (S c)). intros half Hhalf.
  destruct (l !! (first + half)%nat) as [x|]; [|lia].
  destruct (pred x).
  - specialize (IH (first + half + 1)%nat (S c - (half + 1))%nat). lia.
  - specialize (IH first half). lia.
Qed.

Lemma lower_bound_le_length pred l : (lower_bound pred l <= length l)%nat.
Proof.
  unfold lower_bound.
  pose proof (lower_bound_n_bounds (length l) pred l 0 (length l)). lia.
Qed.

(** On a range that [pred] partitions, the search returns the partition
    point. *)
Lemma lower_bound_n_partition fuel pred l first count :
  (count <= fuel)%nat -> (first + count <= length l)%nat ->
  (forall i j x y, (i <= j)%nat -> l !! i = Some x -> l !! j = Some y ->
     pred y = true -> pred x = true) ->
  let r := lower_bound_n fuel pred l first count in
  (forall i x, (first <= i < r)%nat -> l !! i = Some x -> pred x = true)
  ∧ (forall i x, (r <= i < first + count)%nat -> l !! i = Some x ->
       pred x = false).
Proof.
  intros Hfuel Hlen Hmono. revert first count Hfuel Hlen.
  induction fuel as [|fuel IH]; intros first count Hfuel Hlen;
    cbn [lower_bound_n].
  { split; intros i x Hi; lia. }
  destruct count as [|c]; [split; intros i x Hi; lia|].
  assert (Nat.div2 (S c) < S c)%nat as Hhalf by (apply Nat.lt_div2; lia).
  revert Hhalf. generalize (Nat.div2 (S c)). intros half Hhalf.
  destruct (l !! (first + half)%nat) as [x|] eqn:Hx.
  2: { apply lookup_ge_None in Hx. lia. }
  destruct (pred x) eqn:Hp.
  - destruct (IH (first + half + 1)%nat (S c - (half + 1))%nat)
      as [Htrue Hfalse]; [lia..|].
    split.
    + intros i y Hi Hy.
      destruct (decide (i <= first + half)%nat) as [Hle|Hgt].
      * by apply (Hmono i (first + half)%nat y x).
      * apply (Htrue i); [lia|done].
    + intros i y Hi Hy. apply (Hfalse i); [lia|done].
  - destruct (IH first half) as [Htrue Hfalse]; [lia..|].
    split; [done|]. intros i y Hi Hy.
    destruct (decide (i < first + half)%nat) as [Hlt|Hge].
    + apply (Hfalse i); [lia|done].
    + destruct (pred y) eqn:Hpy; [|done].
      rewrite (Hmono (first + half)%nat i x y) in Hp; [done|lia|done..].
Qed.

Lemma lower_bound_partition pred l :
  (forall i j x y, (i <= j)%nat -> l !! i = Some x -> l !! j = Some y ->
     pred y = true -> pred x = true) ->
  (forall i x, (i < lower_bound pred l)%nat -> l !! i = Some x ->
     pred x = true)
  ∧ (forall i x, (lower_bound pred l <= i)%nat -> l !! i = Some x ->
       pred x = false).
Proof.
  intros Hmono. unfold lower_bound.
  destruct (lower_bound_n_partition (length l) pred l 0 (length l))
    as [Htrue Hfalse]; [lia..|done|].
  split.
  - intros i x Hi. apply Htrue. lia.
  - intros i x Hi Hx. apply (Hfalse i); [|done].
    apply lookup_lt_Some in Hx. lia.
Qed.

(** The partition point is unique. *)
Lemma lower_bound_unique pred l k :
  (forall i j x y, (i <= j)%nat -> l !! i = Some x -> l !! j = Some y ->
     pred y = true -> pred x = true) ->
  (k <= length l)%nat ->
  (forall i x, (i < k)%nat -> l !! i = Some x -> pred x = true) ->
  (forall i x, (k <= i)%nat -> l !! i = Some x -> pred x = false) ->
  lower_bound pred l = k.
Proof.
  intros Hmono Hk Htrue Hfalse.
  destruct (lower_bound_partition pred l Hmono) as [Htrue' Hfalse'].
  pose proof (lower_bound_le_length pred l) as Hle.
  destruct (Nat.lt_trichotomy (lower_bound pred l) k) as [Hlt|[?|Hgt]];
    [|done|].
  - destruct (lookup_lt_is_Some_2 l (lower_bound pred l)) as [x Hx]; [lia|].
    specialize (Htrue _ _ Hlt Hx). specialize (Hfalse' _ _ (le_n _) Hx).
    congruence.
  - destruct (lookup_lt_is_Some_2 l k) as [x Hx]; [lia|].
    specialize (Htrue' _ _ Hgt Hx). specialize (Hfalse _ _ (le_n _) Hx).
    congruence.
Qed.

Lemma lower_bound_opt_n_total fuel (f : A -> option bool) pred l first count :
  (forall x, x ∈ l -> f x = Some (pred x)) ->
  lower_bound_opt_n fuel f l first count
  = Some (lower_bound_n fuel pred l first count).
Proof.
  intros Hf. revert first count.
  induction fuel as [|fuel IH]; intros first count;
    cbn [lower_bound_n lower_bound_opt_n]; [done|].
  destruct count as [|c]; [done|].
  destruct (l !! (first + Nat.div2 (S c))%nat) as [x|] eqn:Hx; [|done].
  rewrite (Hf x) by by eapply list_elem_of_lookup_2.
  simpl. destruct (pred x); apply IH.
Qed.

Lemma lower_bound_opt_total (f : A -> option bool) pred l :
  (forall x, x ∈ l -> f x = Some (pred x)) ->
  lower_bound_opt f l = Some (lower_bound pred l).
Proof. apply lower_bound_opt_n_total. Qed.

End lower_bound_facts.

(** ** Section::findItemNearId and Section::findItemByPoint *)

Section find_facts.
Context {sty : Style} {host : Host}.

Implicit Types (s : MSection.t) (items : MSection.Items).

Lemma clampToLast_lt n i : (0 < n)%nat -> (i <= n)%nat ->
  (MSection.clampToLast n i < n)%nat.
Proof.
  intros Hn Hi. unfold MSection.clampToLast.
  destruct (i =? n)%nat eqn:E; [lia|].
  apply Nat.eqb_neq in E. lia.
Qed.

Lemma clampToLast_id n i : (i < n)%nat -> MSection.clampToLast n i = i.
Proof.
  intros Hi. unfold MSection.clampToLast.
  destruct (i =? n)%nat eqn:E; [|done]. apply Nat.eqb_eq in E. lia.
Qed.

Lemma advance_le n i shift : (i <= n)%nat -> (MSection.advance n i shift <= n)%nat.
Proof. intros Hi. unfold MSection.advance. destruct (shift <? 0); lia. Qed.

Lemma empty_false_length s :
  MSection.empty s = false <-> (0 < length (MSection._items s))%nat.
Proof.
  unfold MSection.empty. destruct (MSection._items s); simpl; [|split; [lia|done]].
  split; [done|lia].
Qed.

(** [findItemByPoint] never fails on a Section that has items: it returns
    one of them, with its rectangle, and [exact] says whether the
    rectangle holds the point. *)
Lemma findItemByPoint_member s point :
  MSection._items s ≠ [] ->
  exists e, e ∈ MSection._items s
    ∧ MSection.findItemByPoint s point
      = Some (mkFound e.2 (MSection.findItemRect s e.2)
                (rect_contains (MSection.findItemRect s e.2) point)).
Proof.
  intros Hne. unfold MSection.findItemByPoint.
  assert (0 < length (MSection._items s))%nat as Hlen
    by (destruct (MSection._items s); [done|simpl; lia]).
  rewrite option_guard_True by by apply empty_false_length.
  cbn [mbind option_bind].
  set (first := MSection.clampToLast _ (MSection.findItemAfterTop s _)).
  assert (first < length (MSection._items s))%nat as Hfirst.
  { apply clampToLast_lt; [done|]. apply lower_bound_le_length. }
  destruct (lookup_lt_is_Some_2 _ _ Hfirst) as [e1 He1]. rewrite He1.
  cbn [mbind option_bind].
  destruct (ry _ <=? py point).
  - set (second := MSection.clampToLast _ (MSection.advance _ first _)).
    assert (second < length (MSection._items s))%nat as Hsecond.
    { apply clampToLast_lt; [done|]. apply advance_le. lia. }
    destruct (lookup_lt_is_Some_2 _ _ Hsecond) as [e2 He2]. rewrite He2.
    exists e2. split; [by eapply list_elem_of_lookup_2|done].
  - exists e1. split; [by eapply list_elem_of_lookup_2|done].
Qed.

(** In a map sorted by std::greater the keys fall along the vector. *)
Lemma sorted_gtb_lookup items i j e e' :
  flat_map.sorted Z.gtb items -> (i < j)%nat ->
  items !! i = Some e -> items !! j = Some e' -> e'.1 < e.1.
Proof.
  revert i j. induction items as [|[k v] items IH]; intros i j Hs Hij; [done|].
  destruct i as [|i], j as [|j]; try lia; simpl.
  - intros [= <-] He'. apply list_elem_of_lookup_2 in He'.
    pose proof (fm_sorted_head Z.gtb gtb_trans _ _ _ _ Hs He'). simpl in *. lia.
  - apply IH; [apply Hs|lia].
Qed.

Lemma findItemNearId_spec s universalId :
  MSection._items s ≠ [] ->
  flat_map.sorted Z.gtb (MSection._items s) ->
  keyed (MSection._items s) ->
  exists e, e ∈ MSection._items s
    ∧ MSection.findItemNearId s universalId
      = Some (mkFound e.2 (MSection.findItemRect s e.2)
                (bool_decide (e.1 = universalId)))
    ∧ (universalId ∈ flat_map.keys (MSection._items s) -> e.1 = universalId)
    ∧ (universalId ∉ flat_map.keys (MSection._items s) ->
       (e.1 < universalId
        ∧ forall e', e' ∈ MSection._items s -> e'.1 < universalId ->
            e'.1 <= e.1)
       ∨ (last (MSection._items s) = Some e
          ∧ forall e', e' ∈ MSection._items s -> universalId < e'.1)).
Proof.
  intros Hne Hs Hkeyed. unfold MSection.findItemNearId.
  assert (0 < length (MSection._items s))%nat as Hlen
    by (destruct (MSection._items s); [done|simpl; lia]).
  rewrite option_guard_True by by apply empty_false_length.
  cbn [mbind option_bind].
  set (pred := fun item : Z * BaseLayout => item.1 >? universalId).
  destruct (lower_bound_partition pred (MSection._items s)) as [Htrue Hfalse].
  { intros i j x y Hij Hx Hy. unfold pred.
    destruct (decide (i = j)) as [->|Hne']; [congruence|].
    pose proof (sorted_gtb_lookup _ i j x y Hs ltac:(lia) Hx Hy). lia. }
  pose proof (lower_bound_le_length pred (MSection._items s)) as Hle.
  set (r := lower_bound pred (MSection._items s)) in *.
  destruct (decide (r < length (MSection._items s))%nat) as [Hr|Hr].
  - rewrite clampToLast_id by done.
    destruct (lookup_lt_is_Some_2 _ _ Hr) as [e He]. rewrite He.
    cbn [mbind option_bind]. exists e.
    pose proof (list_elem_of_lookup_2 _ _ _ He) as Hin.
    rewrite <- (Hkeyed e Hin).
    pose proof (Hfalse r e (le_n _) He) as Hre. unfold pred in Hre.
    split; [done|]. split; [done|]. split.
    + intros [v Hv]%keys_elem.
      apply list_elem_of_lookup_1 in Hv as [j Hj].
      destruct (decide (j < r)%nat) as [Hjr|Hjr].
      { specialize (Htrue j _ Hjr Hj). unfold pred in Htrue. simpl in *. lia. }
      destruct (decide (j = r)) as [->|Hne'].
      { rewrite He in Hj. by injection Hj as ->. }
      pose proof (sorted_gtb_lookup _ r j e _ Hs ltac:(lia) He Hj).
      simpl in *. lia.
    + intros Hnot. left. split.
      * destruct (decide (e.1 = universalId)) as [Heq|?]; [|lia].
        exfalso. apply Hnot, keys_elem. exists e.2. rewrite <- Heq.
        by destruct e.
      * intros e' [j Hj]%list_elem_of_lookup_1 Hlt.
        destruct (decide (j < r)%nat) as [Hjr|Hjr].
        { specialize (Htrue j _ Hjr Hj). unfold pred in Htrue. lia. }
        destruct (decide (j = r)) as [->|Hne'].
        { rewrite He in Hj. injection Hj as ->. lia. }
        pose proof (sorted_gtb_lookup _ r j e _ Hs ltac:(lia) He Hj). lia.
  - assert (r = length (MSection._items s)) as Hend by lia.
    unfold MSection.clampToLast. rewrite Hend, Nat.eqb_refl.
    destruct (lookup_lt_is_Some_2 (MSection._items s)
                (length (MSection._items s) - 1)) as [e He]; [lia|].
    rewrite He. cbn [mbind option_bind]. exists e.
    pose proof (list_elem_of_lookup_2 _ _ _ He) as Hin.
    rewrite <- (Hkeyed e Hin).
    assert (forall e', e' ∈ MSection._items s -> universalId < e'.1) as Hall.
    { intros e' [j Hj]%list_elem_of_lookup_1.
      pose proof (lookup_lt_Some _ _ _ Hj).
      specialize (Htrue j _ ltac:(lia) Hj). unfold pred in Htrue. lia. }
    split; [done|]. split; [done|]. split.
    + intros [v Hv]%keys_elem. specialize (Hall _ Hv). simpl in *. lia.
    + intros _. right. split; [|done].
      by rewrite last_lookup, Nat.sub_1_r in *.
Qed.

End find_facts.

Section hit_test.
Context {sty : Style} {host : Host}.

Implicit Types (s : MSection.t) (items : MSection.Items).

Lemma span_contains_spec c len v :
  0 <= len ->
  span_contains c (c + len - 1) v = true <-> c <= v <= c + len - 1.
Proof.
  intros Hlen. unfold span_contains.
  replace (c + len - 1 <? c - 1) with false by lia. lia.
Qed.

Lemma rect_contains_spec r point :
  0 <= rw r -> 0 <= rh r ->
  rect_contains r point = true
  <-> rx r <= px point <= rx r + rw r - 1
      ∧ ry r <= py point <= ry r + rh r - 1.
Proof.
  intros Hw Hh. unfold rect_contains.
  rewrite andb_true_iff, !span_contains_spec by done. tauto.
Qed.

Lemma quot_rem_affine R T c :
  0 < R -> 0 <= T -> 0 <= c < R ->
  (R * T + c) `quot` R = T ∧ (R * T + c) `rem` R = c.
Proof.
  intros HR HT Hc.
  rewrite Z.quot_div_nonneg, Z.rem_mod_nonneg by nia.
  split.
  - symmetry. apply (Z.div_unique_pos _ _ _ c); [lia|done].
  - symmetry. apply (Z.mod_unique_pos _ _ T); [lia|done].
Qed.

(** The rectangle of the item at index [i] of a laid-out grid. *)
Lemma gridLaidOut_rect s base h i e :
  0 < MSection._itemsInRow s -> 0 <= base ->
  0 <= MSection._itemWidth s + infoMediaSkip ->
  gridLaidOut s base h -> MSection._items s !! i = Some e ->
  MSection.findItemRect s e.2
  = mkRect
      (MSection._itemsLeft s
       + Z.of_nat i `mod` MSection._itemsInRow s
         * (MSection._itemWidth s + infoMediaSkip))
      (base + Z.of_nat i `div` MSection._itemsInRow s
              * (MSection._itemWidth s + infoMediaSkip))
      (MSection._itemWidth s) h.
Proof.
  intros HR Hbase HH Hgrid He. destruct (Hgrid i e He) as [Hpos Hh].
  unfold MSection.findItemRect. rewrite Hpos, Hh.
  pose proof (Z.mod_pos_bound (Z.of_nat i) _ HR) as Hmod.
  pose proof (Z.div_pos (Z.of_nat i) _ ltac:(lia) HR) as Hdiv.
  destruct (quot_rem_affine (MSection._itemsInRow s)
              (base + Z.of_nat i `div` MSection._itemsInRow s
                      * (MSection._itemWidth s + infoMediaSkip))
              (Z.of_nat i `mod` MSection._itemsInRow s)) as [-> ->];
    [done|nia|done|done].
Qed.

End hit_test.

Section hit_test_grid.
Context {sty : Style} {host : Host}.

Implicit Types (s : MSection.t) (items : MSection.Items).

Lemma gridLaidOut_top s base h i e :
  0 < MSection._itemsInRow s -> 0 <= base ->
  0 <= MSection._itemWidth s + infoMediaSkip ->
  gridLaidOut s base h -> MSection._items s !! i = Some e ->
  position e.2 `quot` MSection._itemsInRow s
  = base + Z.of_nat i `div` MSection._itemsInRow s
           * (MSection._itemWidth s + infoMediaSkip)
  ∧ height e.2 = h.
Proof.
  intros HR Hbase HH Hgrid He.
  pose proof (gridLaidOut_rect s base h i e HR Hbase HH Hgrid He) as Hrect.
  unfold MSection.findItemRect in Hrect. injection Hrect as _ Htop Hh.
  by rewrite Htop.
Qed.

(** Inside a laid-out grid the row of the point is found by its top, the
    item by its column. *)
Lemma findItemByPoint_grid s base h point i0 e :
  0 < MSection._itemsInRow s -> 0 <= base -> 0 <= infoMediaSkip ->
  0 < MSection._itemWidth s -> MSection._itemsLeft s = infoMediaSkip ->
  0 <= h <= MSection._itemWidth s + infoMediaSkip ->
  gridLaidOut s base h -> MSection._items s !! i0 = Some e ->
  rect_contains (MSection.findItemRect s e.2) point = true ->
  MSection.findItemByPoint s point
  = Some (mkFound e.2 (MSection.findItemRect s e.2) true).
Proof.
  intros HR Hbase Hskip HW Hleft Hh Hgrid He Hin.
  pose proof (lookup_lt_Some _ _ _ He) as Hi0.
  assert (0 <= MSection._itemWidth s + infoMediaSkip) as HH0 by lia.
  pose proof (gridLaidOut_rect s base h i0 e HR Hbase HH0 Hgrid He) as Hrect.
  pose proof Hin as Hbounds. rewrite Hrect in Hbounds.
  apply rect_contains_spec in Hbounds as [Hx Hy]; simpl in *; [|lia..].
  rewrite Hleft in Hx.
  set (R := MSection._itemsInRow s) in *.
  set (H := MSection._itemWidth s + infoMediaSkip) in *.
  pose proof (Z.div_mod (Z.of_nat i0) R ltac:(lia)) as Hdm.
  pose proof (Z.mod_pos_bound (Z.of_nat i0) R HR) as Hc0.
  pose proof (Z.div_pos (Z.of_nat i0) R ltac:(lia) HR) as Hq0.
  set (q0 := Z.of_nat i0 `div` R) in *.
  set (c0 := Z.of_nat i0 `mod` R) in *.
  set (k := Z.to_nat (R * q0)).
  assert (Z.of_nat k = R * q0) as Hk by (unfold k; nia).
  assert (k <= i0)%nat as Hki by nia.
  clearbody k.
  assert (forall i x, MSection._items s !! i = Some x ->
            (position x.2 `quot` R + height x.2 <=? py point)
            = (base + Z.of_nat i `div` R * H + h <=? py point)) as Hpred.
  { intros i x Hx'.
    destruct (gridLaidOut_top s base h i x HR Hbase HH0 Hgrid Hx')
      as [Ht Hh']. fold R H in Ht. by rewrite Ht, Hh'. }
  assert (MSection.findItemAfterTop s (py point) = k) as Hafter.
  { unfold MSection.findItemAfterTop. fold R. apply lower_bound_unique.
    - intros i j x y Hij Hx' Hy'. rewrite (Hpred i x Hx'), (Hpred j y Hy').
      pose proof (Z.div_le_mono (Z.of_nat i) (Z.of_nat j) R HR ltac:(lia)).
      intros Hj. apply Z.leb_le in Hj. apply Z.leb_le. nia.
    - lia.
    - intros i x Hik Hx'. rewrite (Hpred i x Hx').
      pose proof (Z.div_lt_upper_bound (Z.of_nat i) R q0 HR ltac:(lia)).
      apply Z.leb_le. nia.
    - intros i x Hik Hx'. rewrite (Hpred i x Hx').
      pose proof (Z.div_le_lower_bound (Z.of_nat i) R q0 HR ltac:(lia)).
      apply Z.leb_gt. nia. }
  unfold MSection.findItemByPoint.
  rewrite option_guard_True by (apply empty_false_length; lia).
  cbn [mbind option_bind]. rewrite Hafter.
  rewrite (clampToLast_id _ k) by lia.
  destruct (lookup_lt_is_Some_2 (MSection._items s) k) as [e1 He1]; [lia|].
  rewrite He1. cbn [mbind option_bind].
  pose proof (gridLaidOut_rect s base h k e1 HR Hbase HH0 Hgrid He1)
    as Hrect1.
  assert (Z.of_nat k `div` R = q0) as Hkq.
  { rewrite Hk, Z.mul_comm. apply Z.div_mul. lia. }
  fold R H in Hrect1. rewrite Hkq in Hrect1. rewrite Hrect1. simpl.
  replace (base + q0 * H <=? py point) with true by lia.
  fold R H.
  assert (floorclamp (px point) H 0 R = c0) as ->.
  { unfold floorclamp. rewrite Z.quot_div_nonneg by lia.
    rewrite <- (Z.div_unique_pos (px point) H c0 (px point - H * c0)); lia. }
  assert (MSection.advance (length (MSection._items s)) k c0 = i0) as ->.
  { unfold MSection.advance. replace (c0 <? 0) with false by lia. lia. }
  rewrite clampToLast_id by lia. rewrite He. cbn [mbind option_bind].
  by rewrite Hin.
Qed.

End hit_test_grid.

Section hit_test_column.
Context {sty : Style} {host : Host}.

Implicit Types (s : MSection.t) (items : MSection.Items).

(** Inside a laid-out column the item is found by its top; the column
    shift stays 0 while the point is left of [_itemWidth + skip]. *)
Lemma findItemByPoint_column s point i0 e :
  columnLaidOut s ->
  0 < MSection._itemWidth s + infoMediaSkip ->
  px point < MSection._itemWidth s + infoMediaSkip ->
  MSection._items s !! i0 = Some e ->
  rect_contains (MSection.findItemRect s e.2) point = true ->
  MSection.findItemByPoint s point
  = Some (mkFound e.2 (MSection.findItemRect s e.2) true).
Proof.
  intros (HR & Hheights & Hchain) HH Hpx He Hin.
  pose proof (lookup_lt_Some _ _ _ He) as Hi0.
  assert (forall x, ry (MSection.findItemRect s x) = position x
                    ∧ rh (MSection.findItemRect s x) = height x) as Hrect.
  { intros x. unfold MSection.findItemRect. simpl.
    by rewrite HR, Z.quot_1_r. }
  pose proof (list_elem_of_lookup_2 _ _ _ He) as He_in.
  pose proof (Hheights e He_in) as Hhe.
  pose proof Hin as Hy. unfold rect_contains in Hy.
  apply andb_true_iff in Hy as [_ Hy].
  destruct (Hrect e.2) as [Hry Hrh]. rewrite Hry, Hrh in Hy.
  apply span_contains_spec in Hy; [|done].
  assert (MSection.findItemAfterTop s (py point) = i0) as Hafter.
  { unfold MSection.findItemAfterTop. rewrite HR.
    apply lower_bound_unique.
    - intros i j x y Hij Hx Hy'. rewrite !Z.quot_1_r.
      destruct (decide (i = j)) as [->|Hne]; [congruence|].
      pose proof (Hchain i j x y ltac:(lia) Hx Hy').
      pose proof (Hheights y (list_elem_of_lookup_2 _ _ _ Hy')). lia.
    - lia.
    - intros i x Hi Hx. rewrite Z.quot_1_r.
      pose proof (Hchain i i0 x e Hi Hx He). lia.
    - intros i x Hi Hx. rewrite Z.quot_1_r.
      destruct (decide (i = i0)) as [->|Hne].
      + rewrite He in Hx. injection Hx as <-. lia.
      + pose proof (Hchain i0 i e x ltac:(lia) He Hx).
        pose proof (Hheights x (list_elem_of_lookup_2 _ _ _ Hx)). lia. }
  unfold MSection.findItemByPoint.
  rewrite option_guard_True by (apply empty_false_length; lia).
  cbn [mbind option_bind]. rewrite Hafter.
  rewrite (clampToLast_id _ i0) by lia. rewrite He.
  cbn [mbind option_bind].
  destruct (Hrect e.2) as [-> _].
  replace (position e.2 <=? py point) with true by lia.
  assert (floorclamp (px point) (MSection._itemWidth s + infoMediaSkip) 0
            (MSection._itemsInRow s) = 0) as ->.
  { unfold floorclamp. rewrite HR.
    destruct (decide (0 <= px point)) as [Hpos|Hneg].
    - rewrite Z.quot_small by lia. lia.
    - assert (MSection._itemWidth s + infoMediaSkip ≠ 0) as Hne by lia.
      pose proof (Z.quot_opp_l (- px point) _ Hne) as Hq.
      rewrite Z.opp_involutive in Hq.
      assert (0 <= - px point) as Hopp by lia.
      pose proof (Z.quot_pos (- px point) _ Hopp HH). lia. }
  assert (MSection.advance (length (MSection._items s)) i0 0 = i0) as ->.
  { unfold MSection.advance. simpl. lia. }
  rewrite clampToLast_id by lia. rewrite He. cbn [mbind option_bind].
  by rewrite Hin.
Qed.

(** The positions the grid loop of [recountHeight] hands out. *)
Lemma recountGrid_lookup itemsInRow itemHeight items result index i e :
  0 < itemsInRow -> 0 <= index < itemsInRow ->
  (MSection.recountGrid itemsInRow itemHeight items result index).1 !! i
  = Some e ->
  position e.2
  = itemsInRow
    * (result + (index + Z.of_nat i) `div` itemsInRow * itemHeight)
    + (index + Z.of_nat i) `mod` itemsInRow.
Proof.
  intros HR. revert result index i.
  induction items as [|[id item] items IH]; intros result index i Hidx;
    simpl; [done|].
  destruct (index + 1 =? itemsInRow) eqn:Ei.
  - specialize (IH (result + itemHeight) 0).
    destruct (MSection.recountGrid _ _ items _ _) as [rest final].
    destruct i as [|i]; simpl.
    + intros [= <-]. simpl.
      rewrite Z.add_0_r, Z.div_small, Z.mod_small by lia. lia.
    + intros Hi. rewrite (IH i) by (first [lia|done]).
      replace (index + Z.of_nat (S i))
        with (1 * itemsInRow + (0 + Z.of_nat i)) by lia.
      rewrite Z.div_add_l by lia.
      rewrite (Z.add_comm (1 * itemsInRow)), Z_mod_plus_full. ring.
  - specialize (IH result (index + 1)).
    destruct (MSection.recountGrid _ _ items _ _) as [rest final].
    destruct i as [|i]; simpl.
    + intros [= <-]. simpl.
      rewrite Z.add_0_r, Z.div_small, Z.mod_small by lia. lia.
    + intros Hi. rewrite (IH i) by (first [lia|done]).
      by replace (index + 1 + Z.of_nat i) with (index + Z.of_nat (S i)) by lia.
Qed.

(** The column loop hands out tops from [result] on. *)
Lemma recountColumn_low items result k x :
  (forall y, y ∈ items -> 0 <= height y.2) ->
  (MSection.recountColumn items result).1 !! k = Some x ->
  result <= position x.2.
Proof.
  revert result k. induction items as [|[id item] items IH];
    intros result k Hheights; simpl; [done|].
  pose proof (Hheights (id, item) ltac:(left)) as Hitem. simpl in Hitem.
  assert (forall y, y ∈ items -> 0 <= height y.2) as Hrest
    by (intros y Hy; apply Hheights; by right).
  specialize (IH (result + height item)).
  destruct (MSection.recountColumn items (result + height item))
    as [rest final].
  destruct k as [|k]; simpl.
  - intros [= <-]. simpl. lia.
  - intros Hx. pose proof (IH k Hrest Hx). lia.
Qed.

(** The positions the column loop hands out. *)
Lemma recountColumn_chain items result i j e e' :
  (forall x, x ∈ items -> 0 <= height x.2) -> (i < j)%nat ->
  (MSection.recountColumn items result).1 !! i = Some e ->
  (MSection.recountColumn items result).1 !! j = Some e' ->
  result <= position e.2 ∧ position e.2 + height e.2 <= position e'.2.
Proof.
  revert result i j. induction items as [|[id item] items IH];
    intros result i j Hheights Hij; simpl; [done|].
  pose proof (Hheights (id, item) ltac:(left)) as Hitem. simpl in Hitem.
  assert (forall x, x ∈ items -> 0 <= height x.2) as Hrest
    by (intros x Hx; apply Hheights; by right).
  pose proof (fun k x => recountColumn_low items (result + height item) k x
                           Hrest) as Hlow.
  specialize (IH (result + height item)).
  destruct (MSection.recountColumn items (result + height item))
    as [rest final].
  simpl in *. destruct i as [|i], j as [|j]; try lia; simpl.
  - intros [= <-] He'. simpl. split; [lia|]. by apply (Hlow j).
  - intros He He'.
    destruct (IH i j Hrest ltac:(lia) He He') as [? ?].
    split; [lia|done].
Qed.

End hit_test_column.

Section laid_out.
Context {sty : Style} {host : Host}.

Implicit Types (s : MSection.t).

(** [refreshHeight] lays a grid of equally high items out. *)
Lemma refreshHeight_gridLaidOut s h :
  gridKind (MSection._type s) = true ->
  0 < MSection._itemsInRow s ->
  (forall e, e ∈ MSection._items s -> height e.2 = h) ->
  gridLaidOut (MSection.refreshHeight s)
    (MSection.headerHeight s + MSection._itemsTop s) h.
Proof.
  intros Ht HR Hh i e. rewrite refreshHeight_refreshed. unfold refreshed.
  assert (forall r : MSection.Items * Z, r.1 !! i = Some e ->
            Forall2 moved (MSection._items s) r.1 -> height e.2 = h) as Hheight.
  { intros r He Hm.
    destruct (Forall2_lookup_r _ _ _ _ _ Hm He) as (e0 & He0 & _ & ->).
    apply (Hh e0). by eapply list_elem_of_lookup_2. }
  destruct (MSection._type s) eqn:Et; simpl;
    try discriminate Ht;
    (intros He; split;
     [ apply recountGrid_lookup in He; [|done|lia];
       by rewrite Z.add_0_l in He
     | eapply Hheight; [exact He|apply recountGrid_moved] ]).
Qed.

(** [refreshHeight] lays a single column out. *)
Lemma refreshHeight_columnLaidOut s :
  gridKind (MSection._type s) = false ->
  MSection._itemsInRow s = 1 ->
  (forall e, e ∈ MSection._items s -> 0 <= height e.2) ->
  columnLaidOut (MSection.refreshHeight s).
Proof.
  intros Ht HR Hh. rewrite refreshHeight_refreshed. unfold refreshed.
  assert (forall r : MSection.Items * Z,
            Forall2 moved (MSection._items s) r.1 ->
            forall e, e ∈ r.1 -> 0 <= height e.2) as Hheight.
  { intros r Hm e [i He]%list_elem_of_lookup_1.
    destruct (Forall2_lookup_r _ _ _ _ _ Hm He) as (e0 & He0 & _ & ->).
    apply (Hh e0). by eapply list_elem_of_lookup_2. }
  destruct (MSection._type s) eqn:Et; simpl;
    try discriminate Ht;
    (split; [done|]; split;
     [ apply Hheight, recountColumn_moved
     | intros i j e e' Hij He He';
       by destruct (recountColumn_chain _ _ _ _ _ _ Hh Hij He He') ]).
Qed.

End laid_out.

Section find_claim.
Context {sty : Style} {host : Host}.

Implicit Types (s : MSection.t).

(** C7.  In a non-empty Section [findItemByPoint] never fails: it
    returns an item of the Section with its rectangle, and [exact] says
    whether that rectangle holds the point.  In a laid-out Section a
    point inside the rectangle of an item gives that item with
    exact=true, anywhere in a grid and left of [_itemWidth + skip] in a
    single column.  [findItemNearId] returns the item filed under the id
    with exact=true when there is one, and otherwise, with exact=false,
    the item of the largest id below it, or the last item when every id
    is above it. *)
Theorem find_item_lookups s :
  MSection._items s ≠ [] ->
  (forall point, exists e, e ∈ MSection._items s
     ∧ MSection.findItemByPoint s point
       = Some (mkFound e.2 (MSection.findItemRect s e.2)
                 (rect_contains (MSection.findItemRect s e.2) point)))
  ∧ (laidOut s ->
     forall point e, e ∈ MSection._items s ->
       rect_contains (MSection.findItemRect s e.2) point = true ->
       columnResolved s point ->
       MSection.findItemByPoint s point
       = Some (mkFound e.2 (MSection.findItemRect s e.2) true))
  ∧ (flat_map.sorted Z.gtb (MSection._items s) ->
     keyed (MSection._items s) ->
     forall universalId, exists e, e ∈ MSection._items s
       ∧ MSection.findItemNearId s universalId
         = Some (mkFound e.2 (MSection.findItemRect s e.2)
                   (bool_decide (e.1 = universalId)))
       ∧ (universalId ∈ flat_map.keys (MSection._items s) ->
          e.1 = universalId)
       ∧ (universalId ∉ flat_map.keys (MSection._items s) ->
          (e.1 < universalId
           ∧ forall e', e' ∈ MSection._items s -> e'.1 < universalId ->
               e'.1 <= e.1)
          ∨ (last (MSection._items s) = Some e
             ∧ forall e', e' ∈ MSection._items s -> universalId < e'.1))).
Proof.
  intros Hne. split; [|split].
  - intros point. by apply findItemByPoint_member.
  - intros Hlaid point e [i He]%list_elem_of_lookup_1 Hin Hcol.
    unfold laidOut, columnResolved in *.
    destruct (MSection._type s);
      first [ destruct Hlaid as (HR & Hskip & HW & Hleft & base & h & Hbase
                                 & Hh & Hgrid);
              by eapply findItemByPoint_grid
            | destruct Hlaid as [HH Hcolumn];
              by eapply findItemByPoint_column ].
  - intros Hs Hkeyed universalId. by apply findItemNearId_spec.
Qed.

End find_claim.

Lemma find_item_lookups_witness :
  let s := demoPhotoSection in
  let byPoint :=
    MSection.findItemByPoint (sty := demoStyle) s
      (mkPoint 110 40) in
  let nearId :=
    MSection.findItemNearId (sty := demoStyle) s 104 in
  (GetUniversalId_layout ∘ found_layout <$> byPoint = Some 105
   ∧ found_exact <$> byPoint = Some true)
  ∧ (GetUniversalId_layout ∘ found_layout <$> nearId = Some 104
     ∧ found_exact <$> nearId = Some true).
Proof.
  destruct (find_item_lookups (sty := demoStyle) demoPhotoSection)
    as (_ & Hpoint & Hnear); [done|].
  assert (laidOut (sty := demoStyle) demoPhotoSection) as Hlaid.
  { do 4 (split; [by vm_compute|]).
    exists 33, 93. split; [done|]. split; [by vm_compute|].
    intros i e He.
    do 6 (destruct i as [|?i];
          [vm_compute in He; injection He as <-; by vm_compute|]);
      by vm_compute in He. }
  assert (keyed (MSection._items demoPhotoSection)) as Hkeyed.
  { intros e He. vm_compute in He.
    repeat (apply elem_of_cons in He as [->|He]; [done|]).
    by apply elem_of_nil in He. }
  assert (flat_map.sorted Z.gtb (MSection._items demoPhotoSection)) as Hsorted.
  { vm_compute. repeat split; done. }
  split.
  - rewrite (Hpoint Hlaid (mkPoint 110 40)
               (105, setPosition
                       (resizeGetHeight (host := demoHost) (demoPhoto 105) 93)
                       100)).
    + by vm_compute.
    + vm_compute. right. left.
    + by vm_compute.
    + done.
  - destruct (Hnear Hsorted Hkeyed 104) as (e & He & -> & Hpresent & _).
    assert (e.1 = 104) as He1.
    { apply Hpresent. vm_compute. do 2 right. left. }
    simpl. rewrite bool_decide_eq_true_2 by done. split; [|done].
    f_equal. by rewrite <- (Hkeyed e He).
Defined.

(** Between two rows of a grid the first item of the lower row is
    returned whatever the column: the point (250, 128) lies three pixels
    below the item 104 in the third column, and gets the item 103 of the
    first column, 156 pixels away. *)
Lemma findItemByPoint_between_rows_not_nearest :
  exists found,
    MSection.findItemByPoint (sty := demoStyle)
      demoPhotoSection (mkPoint 250 128) = Some found
    ∧ found_exact found = false
    ∧ ¬ nearestItem (sty := demoStyle) demoPhotoSection (mkPoint 250 128)
          found.
Proof.
  eexists. split; [by vm_compute|]. split; [done|].
  intros Hnearest.
  specialize (Hnearest
                (104, setPosition
                        (resizeGetHeight (host := demoHost) (demoPhoto 104) 93)
                        101)).
  vm_compute in Hnearest. apply Hnearest; [|done].
  do 2 right. left.
Qed.

(** In a File or Link column, whose items start [px infoMediaHeaderPosition]
    from the left, the last pixels of an item give a column shift of 1:
    the point (380, 30) lies in the rectangle of the item 105 and gets
    the item 104 with exact=false. *)
Lemma findItemByPoint_column_shift_past_item :
  let s := demoFileSection in
  let point := mkPoint 380 30 in
  (exists e, e ∈ MSection._items s ∧ e.1 = 105
     ∧ rect_contains (MSection.findItemRect (sty := demoStyle) s e.2) point
       = true)
  ∧ GetUniversalId_layout ∘ found_layout
      <$> MSection.findItemByPoint (sty := demoStyle)
            s point = Some 104
  ∧ found_exact
      <$> MSection.findItemByPoint (sty := demoStyle)
            s point = Some false.
Proof.
  split; [|by vm_compute].
  eexists. split; [vm_compute; left|]. by vm_compute.
Qed.

(** ** The viewer callback *)

Section viewer_claim.
Context {sty : Style} {host : Host}.

Implicit Types (w : ListWidget.t) (slice : ListWidget.Slice).

(** C5.  A slice whose full count is unknown changes nothing: the
    callback returns the widget it was given, whatever the id the
    subscription was made for, so the stored slice, the around-id, the
    Sections and the effects sent so far are those from before; rows are
    rebuilt only for a slice whose count is known. *)
Theorem unknown_count_slice_ignored w slice :
  ListWidget.fullCount slice = None ->
  (forall idForViewer, ListWidget.viewerNext w idForViewer slice = Some w)
  ∧ ListWidget.sliceDelivered w slice = Some w
  ∧ forall w', ListWidget.sliceDelivered w slice = Some w' ->
      ListWidget._slice w' = ListWidget._slice w
      ∧ ListWidget._universalAroundId w' = ListWidget._universalAroundId w
      ∧ ListWidget._sections w' = ListWidget._sections w
      ∧ ListWidget._layouts w' = ListWidget._layouts w
      ∧ ListWidget.log w' = ListWidget.log w.
Proof.
  intros Hcount.
  assert (forall idForViewer,
            ListWidget.viewerNext w idForViewer slice = Some w) as Hnext.
  { intros idForViewer. unfold ListWidget.viewerNext. by rewrite Hcount. }
  assert (ListWidget.sliceDelivered w slice = Some w) as Hdelivered.
  { unfold ListWidget.sliceDelivered.
    destruct (ListWidget._viewer w); [apply Hnext|done]. }
  split; [done|]. split; [done|].
  intros w'. rewrite Hdelivered. by intros [= <-].
Qed.

End viewer_claim.

Lemma unknown_count_slice_ignored_witness :
  ListWidget.sliceDelivered (sty := demoStyle) (host := demoHost)
    demoSubscribed (demoSlice None) = Some demoSubscribed.
Proof.
  apply (unknown_count_slice_ignored (sty := demoStyle) (host := demoHost)
           demoSubscribed (demoSlice None)).
  reflexivity.
Defined.

(** With the count known the same slice is stored, the around-id moves
    to the nearest id and the rows are rebuilt. *)
Lemma known_count_slice_displayed :
  let shown w :=
    (ListWidget.fullCount (ListWidget._slice w),
     ListWidget._universalAroundId w,
     (fun s => flat_map.keys (MSection._items s))
       <$> ListWidget._sections w) in
  shown <$> ListWidget.sliceDelivered (sty := demoStyle) (host := demoHost)
              demoSubscribed (demoSlice (Some 3))
  = Some (Some 3, 102, [[103; 102; 101]]).
Proof. by vm_compute. Qed.

(** ** Removing an item *)

Section widget_find.
Context {sty : Style} {host : Host}.

Implicit Types (w : ListWidget.t) (s : MSection.t).

Lemma findSectionByItem_total w universalId :
  (forall s, s ∈ ListWidget._sections w -> MSection._items s ≠ []) ->
  ListWidget.findSectionByItem w universalId
  = Some (lower_bound (endsAbove universalId) (ListWidget._sections w)).
Proof.
  intros Hne. apply lower_bound_opt_total. intros s Hs.
  unfold endsAbove, MSection.minId.
  destruct (last (MSection._items s)) as [e|] eqn:El; [done|].
  apply last_None in El. by destruct (Hne s Hs).
Qed.

Lemma findItemNearId_total s universalId :
  MSection._items s ≠ [] ->
  is_Some (MSection.findItemNearId s universalId).
Proof.
  intros Hne. unfold MSection.findItemNearId.
  assert (0 < length (MSection._items s))%nat as Hlen
    by (destruct (MSection._items s); [done|simpl; lia]).
  rewrite option_guard_True by by apply empty_false_length.
  cbn [mbind option_bind].
  destruct (lookup_lt_is_Some_2 (MSection._items s)
              (MSection.clampToLast (length (MSection._items s))
                 (lower_bound
                    (fun item : Z * BaseLayout => item.1 >? universalId)
                    (MSection._items s)))) as [e He].
  { apply clampToLast_lt; [done|]. apply lower_bound_le_length. }
  rewrite He. by eexists.
Qed.

Lemma repaintItem_total w universalId :
  (forall s, s ∈ ListWidget._sections w -> MSection._items s ≠ []) ->
  is_Some (ListWidget.repaintItem w universalId).
Proof.
  intros Hne. unfold ListWidget.repaintItem, ListWidget.findItemById.
  rewrite findSectionByItem_total by done. cbn [mbind option_bind].
  destruct (ListWidget._sections w !! _) as [s|] eqn:Es; [|by eexists].
  destruct (findItemNearId_total s universalId) as [item ->];
    [|by eexists].
  apply Hne. by eapply list_elem_of_lookup_2.
Qed.

(** The hit test of the widget never fails on rows without an empty
    Section, and what it finds is a layout of one of the Sections. *)
Lemma findItemByPoint_shown w point :
  ListWidget._sections w ≠ [] ->
  (forall s, s ∈ ListWidget._sections w -> MSection._items s ≠ []) ->
  exists s e found, s ∈ ListWidget._sections w ∧ e ∈ MSection._items s
    ∧ ListWidget.findItemByPoint w point = Some found
    ∧ found_layout found = e.2.
Proof.
  intros Hrows Hne. unfold ListWidget.findItemByPoint.
  rewrite option_guard_True by done. cbn [mbind option_bind].
  assert (0 < length (ListWidget._sections w))%nat as Hlen
    by (destruct (ListWidget._sections w); [done|simpl; lia]).
  destruct (lookup_lt_is_Some_2 (ListWidget._sections w)
              (MSection.clampToLast (length (ListWidget._sections w))
                 (ListWidget.findSectionAfterTop w (py point)))) as [s Hs].
  { apply clampToLast_lt; [done|]. apply lower_bound_le_length. }
  rewrite Hs. cbn [mbind option_bind].
  pose proof (list_elem_of_lookup_2 _ _ _ Hs) as Hin.
  destruct (findItemByPoint_member s
              (point_sub point (mkPoint 0 (MSection._top s))) (Hne s Hin))
    as (e & He & ->).
  cbn [mbind option_bind]. by eexists s, e, _.
Qed.

End widget_find.

Section selection_steps.
Context {sty : Style} {host : Host}.

Implicit Types (w : ListWidget.t) (m : ListWidget.SelectedMap).

Lemma sameRows_refl w : sameRows w w.
Proof. repeat split. by exists []. Qed.

Lemma sameRows_trans w1 w2 w3 :
  sameRows w1 w2 -> sameRows w2 w3 -> sameRows w1 w3.
Proof.
  intros (Hp & Ht & Hs & Hl & n1 & Hn1) (Hp' & Ht' & Hs' & Hl' & n2 & Hn2).
  repeat split; try congruence.
  exists (n2 ++ n1). by rewrite Hn2, Hn1, app_assoc.
Qed.

Lemma sameRows_emit w w' e :
  sameRows w w' -> sameRows w (ListWidget.emit e w').
Proof.
  intros (Hp & Ht & Hs & Hl & n & Hn). repeat split; try done.
  exists (e :: n). simpl. by rewrite Hn.
Qed.

Lemma changeItemSelection_total w m universalId selection :
  universalId ≠ 0 ->
  is_Some (ListWidget.changeItemSelection w m universalId selection).
Proof.
  intros Hne.
  destruct (flat_map.find Z.ltb universalId m) as [data|] eqn:Hf.
  - rewrite (changeItemSelection_existing _ _ _ _ _ Hf). by eexists.
  - destruct (decide (Z.of_nat (length m) < MaxSelectedItems)) as [Hcap|Hcap].
    + rewrite changeItemSelection_fresh by done.
      destruct (computeFullId_is_Some w universalId Hne) as [f ->].
      by eexists.
    + rewrite changeItemSelection_absent_capped by done. by eexists.
Qed.

Lemma dragSelectLayouts_total w fromId tillId
    (layouts : list (UniversalMsgId * ListWidget.CachedItem)) m :
  (forall e, e ∈ layouts -> e.1 ≠ 0) ->
  is_Some (ListWidget.dragSelectLayouts w fromId tillId layouts m).
Proof.
  revert m. induction layouts as [|[u c] layouts IH]; intros m Hne; simpl;
    [by eexists|].
  assert (forall e, e ∈ layouts -> e.1 ≠ 0) as Hrest
    by (intros e He; apply Hne; by right).
  destruct ((u <=? fromId) && (u >? tillId)); simpl; [|by apply IH].
  destruct (changeItemSelection_total w m u FullSelection) as [[m1 ?] ->].
  { apply (Hne (u, c)). left. }
  simpl. by apply IH.
Qed.

Lemma dragSelectLayouts_from w fromId tillId
    (layouts : list (UniversalMsgId * ListWidget.CachedItem)) m m' k :
  ListWidget.dragSelectLayouts w fromId tillId layouts m = Some m' ->
  k ∈ flat_map.keys m' -> k ∈ flat_map.keys m ∨ k ∈ layouts.*1.
Proof.
  revert m. induction layouts as [|[u c] layouts IH]; intros m; simpl.
  - intros [= <-]. by left.
  - assert (forall m1,
              ListWidget.dragSelectLayouts w fromId tillId layouts m1
              = Some m' -> k ∈ flat_map.keys m' ->
              k ∈ flat_map.keys m1 ∨ k ∈ u :: layouts.*1) as Hrest.
    { intros m1 Hm1 Hk. destruct (IH _ Hm1 Hk); [by left|right; by right]. }
    destruct ((u <=? fromId) && (u >? tillId)); simpl; [|apply Hrest].
    destruct (ListWidget.changeItemSelection w m u FullSelection)
      as [[m1 changed]|] eqn:Hc; simpl; [|done].
    intros Hm1 Hk. destruct (Hrest _ Hm1 Hk) as [Hk1|?]; [|by right].
    destruct (changeItemSelection_keys _ _ _ _ _ _ _ Hc Hk1) as [?| ->];
      [by left|right; left].
Qed.

Lemma clearDragSelection_rows w :
  sameRows w (ListWidget.clearDragSelection w)
  ∧ ListWidget._selected (ListWidget.clearDragSelection w)
    = ListWidget._selected w
  ∧ (forall k,
       k ∈ flat_map.keys
             (ListWidget._dragSelected (ListWidget.clearDragSelection w)) ->
       k ∈ flat_map.keys (ListWidget._dragSelected w)).
Proof.
  unfold ListWidget.clearDragSelection.
  change (ListWidget._dragSelected
            (ListWidget.set_dragSelectAction ListWidget.DragNone w))
    with (ListWidget._dragSelected w).
  destruct (ListWidget._dragSelected w) eqn:E; simpl.
  - repeat split; try done; [by exists []|by rewrite E].
  - repeat split; try done; [by eexists [_]|].
    intros k Hk. by apply elem_of_nil in Hk.
Qed.

End selection_steps.

(** The walk over [_layouts] meets exactly its entries. *)
Lemma elem_of_layoutsInOrder (w : ListWidget.t) k c :
  (k, c) ∈ ListWidget.layoutsInOrder w <-> ListWidget._layouts w !! k = Some c.
Proof.
  unfold ListWidget.layoutsInOrder. rewrite merge_sort_Permutation.
  apply elem_of_map_to_list.
Qed.

Section selection_rows.
Context {sty : Style} {host : Host}.

Implicit Types (w : ListWidget.t) (m : ListWidget.SelectedMap).

Lemma filter_keys_sub {V} (P : Z * V -> bool) (l : list (Z * V)) k :
  k ∈ flat_map.keys (List.filter P l) -> k ∈ flat_map.keys l.
Proof.
  intros [v He]%keys_elem. apply keys_elem. exists v.
  apply list_elem_of_In, filter_In in He. apply list_elem_of_In, He.
Qed.

Lemma repaintItem_rows w universalId w' :
  ListWidget.repaintItem w universalId = Some w' ->
  w' = w ∨ exists r, w' = ListWidget.emit (ListWidget.RtlUpdated r) w.
Proof.
  unfold ListWidget.repaintItem.
  destruct (ListWidget.findItemById w universalId) as [[item|]|]; [| |done];
    intros [= <-]; [right; by eexists|by left].
Qed.

Lemma updateDragSelection_rows w :
  ListWidget._layouts w !! 0 = None ->
  exists w', ListWidget.updateDragSelection w = Some w'
    ∧ sameRows w w'
    ∧ ListWidget._selected w' = ListWidget._selected w
    ∧ forall k, k ∈ flat_map.keys (ListWidget._dragSelected w') ->
        k ∈ flat_map.keys (ListWidget._dragSelected w)
        ∨ is_Some (ListWidget._layouts w !! k).
Proof.
  intros H0. unfold ListWidget.updateDragSelection.
  destruct (clearDragSelection_rows w) as (Hclear & Hclear' & Hclear'').
  destruct (ListWidget.IsAfter _ _);
    (destruct (_ || _);
     [ eexists; split; [done|]; split; [done|]; split; [done|];
       intros k Hk; left; by apply Hclear''
     | ]);
    (match goal with
     | |- context [ListWidget.dragSelectLayouts ?w ?f ?t ?l ?m] =>
         destruct (dragSelectLayouts_total w f t l m) as [m' Hm'];
           [ intros [k c] He%elem_of_layoutsInOrder; simpl; congruence
           | rewrite Hm';
             pose proof (fun k => dragSelectLayouts_from _ _ _ _ _ _ k Hm')
               as Hfrom ]
     end);
    cbn [mbind option_bind];
    (destruct (_ && _ && _);
     (eexists; split; [done|]; split;
      [ repeat split; try done; first [by eexists [_]|by eexists [_; _]]
      | split; [done|] ];
      intros k Hk; destruct (Hfrom k Hk) as [Hkept|Hlay];
      [ left; by eapply filter_keys_sub
      | right; apply list_elem_of_fmap in Hlay as ([k' c] & -> & He);
        apply elem_of_layoutsInOrder in He; by eexists ])).
Qed.

Lemma applyItemSelection_rows w universalId selection :
  (forall s, s ∈ ListWidget._sections w -> MSection._items s ≠ []) ->
  universalId ≠ 0 ->
  0 ∉ flat_map.keys (ListWidget._selected w) ->
  exists w', ListWidget.applyItemSelection w universalId selection = Some w'
    ∧ sameRows w w'
    ∧ ListWidget._dragSelected w' = ListWidget._dragSelected w
    ∧ forall k, k ∈ flat_map.keys (ListWidget._selected w') ->
        k ∈ flat_map.keys (ListWidget._selected w) ∨ k = universalId.
Proof.
  intros Hne Hid H0. unfold ListWidget.applyItemSelection.
  destruct (changeItemSelection_total w (ListWidget._selected w) universalId
              selection Hid) as [[m' changed] Hc].
  rewrite Hc. cbn [mbind option_bind].
  pose proof (fun k => changeItemSelection_keys _ _ _ _ _ _ k Hc) as Hkeys.
  destruct changed.
  - destruct (repaintItem_total (ListWidget.set_selected m' w) universalId Hne)
      as [w1 Hw1].
    rewrite Hw1. cbn [mbind option_bind].
    assert (sameRows w w1 ∧ ListWidget._selected w1 = m'
            ∧ ListWidget._dragSelected w1 = ListWidget._dragSelected w)
      as (Hrows & Hsel & Hdrag).
    { apply repaintItem_rows in Hw1 as [->|[r ->]];
        (split; [|done]); repeat split; try done;
        first [by exists []|by eexists [_]]. }
    destruct (collectSelectedItems_is_Some w1) as [items Hitems].
    { rewrite Hsel. intros Hk. destruct (Hkeys 0 Hk); [done|congruence]. }
    unfold ListWidget.pushSelectedItems. rewrite Hitems.
    cbn [mbind option_bind]. eexists. split; [done|].
    split; [by apply sameRows_emit|]. split; [done|].
    simpl. by rewrite Hsel.
  - eexists. split; [done|]. split; [|by split].
    repeat split. by exists [].
Qed.

Lemma updateTextSelection_rows w layout dragState :
  (forall s, s ∈ ListWidget._sections w -> MSection._items s ≠ []) ->
  ListWidget.itemId (ListWidget._overState w) ≠ 0 ->
  0 ∉ flat_map.keys (ListWidget._selected w) ->
  exists w', ListWidget.updateTextSelection w layout dragState = Some w'
    ∧ sameRows w w'
    ∧ (forall k, k ∈ flat_map.keys (ListWidget._selected w') ->
         k ∈ flat_map.keys (ListWidget._selected w)
         ∨ k = ListWidget.itemId (ListWidget._overState w))
    ∧ (forall k, k ∈ flat_map.keys (ListWidget._dragSelected w') ->
         k ∈ flat_map.keys (ListWidget._dragSelected w)).
Proof.
  intros Hne Hid H0. unfold ListWidget.updateTextSelection.
  match goal with
  | |- context [ListWidget.applyItemSelection w ?u ?sel] =>
      destruct (applyItemSelection_rows w u sel Hne Hid H0)
        as (w1 & -> & Hrows & Hdrag & Hkeys)
  end.
  cbn [mbind option_bind].
  match goal with
  | |- context [ListWidget.clearDragSelection ?x] =>
      destruct (clearDragSelection_rows x) as (Hclear & Hclear' & Hclear'');
        exists (ListWidget.clearDragSelection x)
  end.
  split; [done|].
  destruct (_ && _); simpl in *.
  - split; [eapply sameRows_trans; [|exact Hclear];
            by apply sameRows_emit|].
    rewrite Hclear'. split; [done|].
    intros k Hk%Hclear''. by rewrite <- Hdrag.
  - split; [by eapply sameRows_trans|].
    rewrite Hclear'. split; [done|].
    intros k Hk%Hclear''. by rewrite <- Hdrag.
Qed.

End selection_rows.

Section mouse_rows.
Context {sty : Style} {host : Host}.

Implicit Types (w : ListWidget.t) (m : ListWidget.SelectedMap).

(** [mouseActionUpdate] moves the cursor and the selection over the rows
    it finds: it never fails on rows without an empty Section and
    without the id 0, and whatever it selects is a layout of the rows or
    of the cache. *)
Lemma mouseActionUpdate_rows w screenPos :
  (forall s, s ∈ ListWidget._sections w -> MSection._items s ≠ []) ->
  (forall s e, s ∈ ListWidget._sections w -> e ∈ MSection._items s ->
     GetUniversalId_layout e.2 ≠ 0) ->
  ListWidget._layouts w !! 0 = None ->
  0 ∉ flat_map.keys (ListWidget._selected w) ->
  exists w', ListWidget.mouseActionUpdate w screenPos = Some w'
    ∧ sameRows w w'
    ∧ (forall k, k ∈ flat_map.keys (ListWidget._selected w') ->
         k ∈ flat_map.keys (ListWidget._selected w)
         ∨ exists s e, s ∈ ListWidget._sections w ∧ e ∈ MSection._items s
             ∧ GetUniversalId_layout e.2 = k)
    ∧ (forall k, k ∈ flat_map.keys (ListWidget._dragSelected w') ->
         k ∈ flat_map.keys (ListWidget._dragSelected w)
         ∨ is_Some (ListWidget._layouts w !! k)).
Proof.
  intros Hne Hids Hlay0 Hsel0. unfold ListWidget.mouseActionUpdate.
  destruct (_ || _) eqn:Hcond.
  { exists w. split; [done|]. split; [apply sameRows_refl|]. by split; left. }
  assert (ListWidget._sections w ≠ []) as Hrows.
  { intros Hnil. by rewrite Hnil in Hcond. }
  cbv zeta.
  match goal with
  | |- context [ListWidget.findItemByPoint ?a ?b] =>
      destruct (findItemByPoint_shown a b Hrows Hne)
        as (s & e & found & Hs & He & -> & Hfound)
  end.
  cbn [mbind option_bind].
  change (ListWidget._sections (ListWidget.set_mousePosition screenPos w))
    with (ListWidget._sections w) in Hs.
  pose proof (Hids s e Hs He) as Hid. rewrite <- Hfound in Hid.
  (* the hover update *)
  match goal with
  | |- exists w', ?first ≫= _ = Some w' ∧ _ =>
      assert (exists w1, first = Some w1 ∧ sameRows w w1
                ∧ ListWidget._selected w1 = ListWidget._selected w
                ∧ ListWidget._dragSelected w1 = ListWidget._dragSelected w)
        as (w1 & -> & Hrows1 & Hsel1 & Hdrag1)
  end.
  { destruct (ListWidget.isItemLayout _ _).
    { eexists. split; [done|]. split; [|done]. repeat split. by exists []. }
    unfold ListWidget.repaintLayout.
    destruct (ListWidget._overLayout _) as [over|].
    - destruct (repaintItem_total
                  (ListWidget.set_mousePosition screenPos w)
                  (GetUniversalId_layout over) Hne) as [w1 Hw1].
      rewrite Hw1. cbn [mbind option_bind]. eexists. split; [done|].
      apply repaintItem_rows in Hw1 as [->|[r ->]];
        (split; [|done]); repeat split;
        first [by eexists [_]|by eexists [_; _]].
    - cbn [mbind option_bind]. eexists. split; [done|]. split; [|done].
      repeat split. by eexists [_]. }
  cbn [mbind option_bind].
  (* the start of a drag or of a selection *)
  match goal with
  | |- context [ListWidget.set_clickActive ?l ?x] =>
      assert (sameRows w1 x
              ∧ ListWidget._selected x = ListWidget._selected w1
              ∧ ListWidget._dragSelected x = ListWidget._dragSelected w1
              ∧ ListWidget.itemId (ListWidget._overState x)
                = GetUniversalId_layout (found_layout found))
        as (Hrows3 & Hsel3 & Hdrag3 & Hover3);
        [|set (w3 := x) in *; clearbody w3]
  end.
  { match goal with
    | |- context [sameRows w1 (if ?c then _ else _)] => destruct c
    end; [|split; [|done]; repeat split; by exists []].
    simpl. destruct (ListWidget._mouseAction w1);
      (split; [|done]); repeat split;
      first [by exists []|by eexists [_]]. }
  match goal with
  | |- context [ListWidget.set_clickActive ?l w3] =>
      set (w4 := ListWidget.set_clickActive l w3) in *
  end.
  assert (sameRows w w4
          ∧ ListWidget._selected w4 = ListWidget._selected w
          ∧ ListWidget._dragSelected w4 = ListWidget._dragSelected w
          ∧ ListWidget.itemId (ListWidget._overState w4)
            = GetUniversalId_layout (found_layout found))
    as (Hrows4 & Hsel4 & Hdrag4 & Hover4).
  { split; [|by rewrite <- Hsel1, <- Hsel3, <- Hdrag1, <- Hdrag3, <- Hover3].
    eapply sameRows_trans; [exact Hrows1|].
    destruct Hrows3 as (? & ? & ? & ? & ?). by repeat split. }
  clearbody w4.
  pose proof Hrows4 as (_ & _ & Hsec4 & Hlay4 & _).
  assert (forall s, s ∈ ListWidget._sections w4 -> MSection._items s ≠ [])
    as Hne4 by (rewrite Hsec4; exact Hne).
  destruct (ListWidget._mouseAction w4) eqn:Haction;
    try (exists w4; split; [done|]; split; [done|];
         rewrite Hsel4, Hdrag4; by split; left).
  { eexists. split; [done|]. split.
    - destruct Hrows4 as (? & ? & ? & ? & ?). by repeat split.
    - simpl. rewrite Hsel4, Hdrag4. by split; left. }
  destruct (_ && _).
  - match goal with
    | |- context [ListWidget.updateTextSelection w4 ?l ?d] =>
        destruct (updateTextSelection_rows w4 l d Hne4)
          as (w' & -> & Hrows' & Hsel' & Hdrag');
          [by rewrite Hover4|by rewrite Hsel4|]
    end.
    exists w'. split; [done|]. split; [by eapply sameRows_trans|]. split.
    + intros k [Hk| ->]%Hsel'.
      * left. by rewrite <- Hsel4.
      * right. exists s, e. by rewrite Hover4, Hfound.
    + intros k Hk%Hdrag'. left. by rewrite <- Hdrag4.
  - destruct (negb _).
    + destruct (updateDragSelection_rows w4)
        as (w' & -> & Hrows' & Hsel' & Hdrag'); [by rewrite Hlay4|].
      exists w'. split; [done|]. split; [by eapply sameRows_trans|]. split.
      * intros k Hk. left. by rewrite Hsel', Hsel4 in Hk.
      * intros k [Hk|Hk]%Hdrag'.
        -- left. by rewrite <- Hdrag4.
        -- right. by rewrite <- Hlay4.
    + exists w4; split; [done|]; split; [done|].
      rewrite Hsel4, Hdrag4; by split; left.
Qed.

End mouse_rows.

Section removal_rows.
Context {sty : Style} {host : Host}.

Implicit Types (w : ListWidget.t) (s : MSection.t).

(** The last entry of a map sorted by std::greater has the least key. *)
Lemma minId_least (items : MSection.Items) e0 e :
  flat_map.sorted Z.gtb items -> last items = Some e0 -> e ∈ items ->
  e0.1 <= e.1.
Proof.
  intros Hs Hlast [i Hi]%list_elem_of_lookup_1.
  rewrite last_lookup in Hlast.
  pose proof (lookup_lt_Some _ _ _ Hi) as Hlt.
  destruct (decide (i = Nat.pred (length items))) as [->|Hne].
  - rewrite Hlast in Hi. injection Hi as ->. lia.
  - pose proof (sorted_gtb_lookup items i (Nat.pred (length items)) e e0 Hs
                  ltac:(lia) Hi Hlast). lia.
Qed.

(** [findSectionByItem] points at the only Section that can hold the
    id. *)
Lemma findSectionByItem_owner w universalId :
  rowsWellFormed w ->
  exists sectionIt,
    ListWidget.findSectionByItem w universalId = Some sectionIt
    ∧ forall j s, ListWidget._sections w !! j = Some s -> j ≠ sectionIt ->
        universalId ∉ flat_map.keys (MSection._items s).
Proof.
  intros [Hsec Hord].
  rewrite findSectionByItem_total by (intros s Hs; apply (Hsec s Hs)).
  eexists. split; [done|].
  assert (forall j s, ListWidget._sections w !! j = Some s ->
            exists e0, last (MSection._items s) = Some e0
              ∧ e0 ∈ MSection._items s
              ∧ endsAbove universalId s = (e0.1 >? universalId)) as Hmin.
  { intros j s Hj. apply list_elem_of_lookup_2 in Hj.
    destruct (Hsec s Hj) as (Hne & _ & _).
    unfold endsAbove, MSection.minId.
    destruct (last (MSection._items s)) as [e0|] eqn:El.
    - exists e0. split; [done|]. split; [|done].
      rewrite last_lookup in El. by eapply list_elem_of_lookup_2.
    - by apply last_None in El. }
  destruct (lower_bound_partition (endsAbove universalId)
              (ListWidget._sections w)) as [Htrue Hfalse].
  { intros i j x y Hij Hx Hy.
    destruct (decide (i = j)) as [->|Hne]; [congruence|].
    destruct (Hmin i x Hx) as (ex & _ & Hex & ->).
    destruct (Hmin j y Hy) as (ey & _ & Hey & ->).
    pose proof (Hord i j x y ex ey ltac:(lia) Hx Hy Hex Hey). lia. }
  set (r := lower_bound (endsAbove universalId) (ListWidget._sections w))
    in *.
  intros j s Hj Hne [v Hv]%keys_elem.
  destruct (Hmin j s Hj) as (e0 & Hlast & He0 & Hends).
  destruct (decide (j < r)%nat) as [Hlt|Hge].
  - specialize (Htrue j s Hlt Hj). rewrite Hends in Htrue.
    destruct (Hsec s (list_elem_of_lookup_2 _ _ _ Hj)) as (_ & Hsorted & _).
    pose proof (minId_least _ _ _ Hsorted Hlast Hv). simpl in *. lia.
  - destruct (lookup_lt_is_Some_2 (ListWidget._sections w) r) as [s0 Hs0].
    { apply lookup_lt_Some in Hj. lia. }
    destruct (Hmin r s0 Hs0) as (e1 & _ & He1 & Hends1).
    specialize (Hfalse r s0 (le_n _) Hs0). rewrite Hends1 in Hfalse.
    pose proof (Hord r j s0 s e1 _ ltac:(lia) Hs0 Hj He1 Hv).
    simpl in *. lia.
Qed.

Lemma placeSections_items (sections : list MSection.t) result :
  Forall2 (fun s s' => MSection._items s' = MSection._items s) sections
    (ListWidget.placeSections sections result).1.
Proof.
  revert result. induction sections as [|s sections IH]; intros result;
    simpl; [constructor|].
  specialize (IH (result + MSection._height (MSection.setTop s result))).
  destruct (ListWidget.placeSections sections _) as [rest final].
  simpl. by constructor.
Qed.

(** [refreshHeight] of the widget places the Sections and takes the new
    size; the items stay where they are filed. *)
Lemma refreshHeight_rows w :
  let w' := ListWidget.refreshHeight w in
  Forall2 (fun s s' => MSection._items s' = MSection._items s)
    (ListWidget._sections w) (ListWidget._sections w')
  ∧ ListWidget._peer w' = ListWidget._peer w
  ∧ ListWidget._type w' = ListWidget._type w
  ∧ ListWidget._layouts w' = ListWidget._layouts w
  ∧ ListWidget._selected w' = ListWidget._selected w
  ∧ ListWidget._dragSelected w' = ListWidget._dragSelected w
  ∧ exists newer, ListWidget.log w' = newer ++ ListWidget.log w.
Proof.
  simpl. unfold ListWidget.refreshHeight, ListWidget.recountHeight.
  destruct (match ListWidget._sections w with [] => _ | _ => _ end).
  - simpl. split; [by apply Forall_Forall2_diag, Forall_true|].
    repeat split. by eexists [_].
  - pose proof (placeSections_items (ListWidget._sections w)
                  (mtop ListWidget.padding)) as Hitems.
    destruct (ListWidget.placeSections _ _) as [sections result].
    simpl. split; [done|]. repeat split. by eexists [_].
Qed.

End removal_rows.

Section removal_sections.
Context {sty : Style} {host : Host}.

Implicit Types (w : ListWidget.t) (s : MSection.t).

(** What [Section::removeItem] leaves: the other entries, moved. *)
Lemma removeItem_entries s universalId e' :
  flat_map.sorted Z.gtb (MSection._items s) ->
  e' ∈ MSection._items (MSection.removeItem s universalId).1 ->
  exists e, e ∈ MSection._items s ∧ e.1 ≠ universalId ∧ moved e e'.
Proof.
  intros Hsorted. unfold MSection.removeItem.
  destruct (flat_map.find Z.gtb universalId (MSection._items s)) eqn:Hf;
    simpl.
  - destruct (refreshHeight_frame
                (MSection.with_items s
                   (flat_map.erase Z.gtb universalId (MSection._items s))))
      as (_ & _ & _ & _ & _ & _ & _ & Hmoved).
    intros [i Hi]%list_elem_of_lookup_1.
    destruct (Forall2_lookup_r _ _ _ _ _ Hmoved Hi) as (e & He & Hm).
    apply list_elem_of_lookup_2 in He. simpl in He.
    exists e. split; [by eapply fm_elem_erase|]. split; [|done].
    intros Heq.
    assert (flat_map.find Z.gtb universalId
              (flat_map.erase Z.gtb universalId (MSection._items s)) = None)
      as Hnone
      by (apply fm_find_erase; eauto using gtb_irrefl, gtb_total, gtb_trans).
    assert (flat_map.find Z.gtb universalId
              (flat_map.erase Z.gtb universalId (MSection._items s))
            = Some e.2) as Hsome.
    { apply fm_find_elem; eauto using gtb_irrefl, gtb_total, gtb_trans.
      - apply fm_sorted_erase; eauto using gtb_trans.
      - replace (universalId, e.2) with e; [done|].
        destruct e; simpl in *; congruence. }
    congruence.
  - intros He'. exists e'. split; [done|].
    split; [|split; [done|]; by destruct e' as [? []]].
    intros Heq.
    assert (flat_map.find Z.gtb universalId (MSection._items s) = Some e'.2)
      as Hsome; [|congruence].
    apply fm_find_elem; eauto using gtb_irrefl, gtb_total, gtb_trans.
    replace (universalId, e'.2) with e'; [done|].
    destruct e'; simpl in *; congruence.
Qed.

Lemma erase_keeps_others {V} cmp k (l : list (Z * V)) e :
  (forall a b, cmp a b = false -> cmp b a = false -> a = b) ->
  e ∈ l -> e.1 ≠ k -> e ∈ flat_map.erase cmp k l.
Proof.
  intros Htotal. induction l as [|[k' v'] l IH]; intros He Hne; [done|].
  simpl. destruct (cmp k' k) eqn:E1.
  - apply elem_of_cons in He as [->|He]; [left|right; by apply IH].
  - destruct (cmp k k') eqn:E2; [done|].
    apply elem_of_cons in He as [->|He]; [|done].
    destruct Hne. simpl. by apply Htotal.
Qed.

Lemma moved_refl (e : UniversalMsgId * BaseLayout) : moved e e.
Proof. by destruct e as [? []]. Qed.

(** [Section::removeItem] keeps every other entry. *)
Lemma removeItem_kept s universalId e :
  e ∈ MSection._items s -> e.1 ≠ universalId ->
  exists e', e' ∈ MSection._items (MSection.removeItem s universalId).1
    ∧ moved e e'.
Proof.
  intros He Hne. unfold MSection.removeItem.
  destruct (flat_map.find Z.gtb universalId (MSection._items s)); simpl;
    [|exists e; split; [done|apply moved_refl]].
  destruct (refreshHeight_frame
              (MSection.with_items s
                 (flat_map.erase Z.gtb universalId (MSection._items s))))
    as (_ & _ & _ & _ & _ & _ & _ & Hmoved).
  pose proof (erase_keeps_others Z.gtb universalId _ e gtb_total He Hne)
    as [i Hi]%list_elem_of_lookup_1.
  destruct (Forall2_lookup_l _ _ _ _ _ Hmoved Hi) as (e' & He' & Hm).
  exists e'. split; [by eapply list_elem_of_lookup_2|done].
Qed.

(** The first step of [itemRemoved]: the item leaves its Section, an
    emptied Section leaves the rows, and nothing else is touched. *)
Lemma itemRemoved_rows w universalId sectionIt :
  rowsWellFormed w ->
  (forall s, s ∈ ListWidget._sections w ->
     0 ∉ flat_map.keys (MSection._items s)) ->
  (forall j s, ListWidget._sections w !! j = Some s -> j ≠ sectionIt ->
     universalId ∉ flat_map.keys (MSection._items s)) ->
  let w' :=
    match ListWidget._sections w !! sectionIt with
    | Some section =>
        let '(section, removed) := MSection.removeItem section universalId in
        if removed then
          ListWidget.refreshHeight
            (ListWidget.set_sections
               (if MSection.empty section
                then delete sectionIt (ListWidget._sections w)
                else <[sectionIt := section]> (ListWidget._sections w))
               w)
        else w
    | None => w
    end in
  rowsWithout universalId w'
  ∧ ListWidget._peer w' = ListWidget._peer w
  ∧ ListWidget._type w' = ListWidget._type w
  ∧ ListWidget._layouts w' = ListWidget._layouts w
  ∧ ListWidget._selected w' = ListWidget._selected w
  ∧ ListWidget._dragSelected w' = ListWidget._dragSelected w
  ∧ (exists newer, ListWidget.log w' = newer ++ ListWidget.log w)
  ∧ (forall s e, s ∈ ListWidget._sections w -> e ∈ MSection._items s ->
       e.1 ≠ universalId ->
       exists s' e', s' ∈ ListWidget._sections w' ∧ e' ∈ MSection._items s'
         ∧ moved e e').
Proof.
  intros [Hsec Hord] Hzero Hother.
  assert (forall s e, s ∈ ListWidget._sections w -> e ∈ MSection._items s ->
            exists s' e', s' ∈ ListWidget._sections w
              ∧ e' ∈ MSection._items s' ∧ moved e e') as Hstay.
  { intros s e Hs He. exists s, e. split; [done|]. split; [done|].
    apply moved_refl. }
  assert (forall s e, s ∈ ListWidget._sections w -> e ∈ MSection._items s ->
            e.1 = GetUniversalId_layout e.2 ∧ e.1 ≠ 0) as Hentry.
  { intros s e Hs He. destruct (Hsec s Hs) as (_ & _ & Hkeyed).
    split; [by apply Hkeyed|]. intros Heq. apply (Hzero s Hs).
    apply keys_elem. exists e.2. rewrite <- Heq. by destruct e. }
  assert (forall j s, ListWidget._sections w !! j = Some s -> j ≠ sectionIt ->
            MSection._items s ≠ []
            ∧ forall e, e ∈ MSection._items s ->
                e.1 = GetUniversalId_layout e.2 ∧ e.1 ≠ universalId ∧ e.1 ≠ 0)
    as Hkept.
  { intros j s Hj Hne. pose proof (list_elem_of_lookup_2 _ _ _ Hj) as Hs.
    split; [apply (Hsec s Hs)|]. intros e He.
    destruct (Hentry s e Hs He) as [? ?]. split; [done|]. split; [|done].
    intros Heq. apply (Hother j s Hj Hne), keys_elem. exists e.2.
    rewrite <- Heq. by destruct e. }
  assert (forall section e',
            ListWidget._sections w !! sectionIt = Some section ->
            e' ∈ MSection._items (MSection.removeItem section universalId).1 ->
            e'.1 = GetUniversalId_layout e'.2 ∧ e'.1 ≠ universalId ∧ e'.1 ≠ 0)
    as Hremoved.
  { intros section e' Hsection He'.
    pose proof (list_elem_of_lookup_2 _ _ _ Hsection) as Hs.
    destruct (Hsec section Hs) as (_ & Hsorted & _).
    destruct (removeItem_entries section universalId e' Hsorted He')
      as (e & He & Hne & Hkey & Hlayout).
    destruct (Hentry section e Hs He) as [Hkeyed Hnz].
    rewrite Hkey, Hlayout. by repeat split. }
  simpl. destruct (ListWidget._sections w !! sectionIt) as [section|] eqn:Es.
  - specialize (Hremoved section).
    destruct (MSection.removeItem section universalId) as [section' removed]
      eqn:Er.
    simpl in Hremoved.
    assert (removed = false -> section' = section) as Hsame.
    { revert Er. unfold MSection.removeItem.
      destruct (flat_map.find _ _ _); intros [= <- <-]; [done|]. done. }
    destruct removed.
    + destruct (refreshHeight_rows
                  (ListWidget.set_sections
                     (if MSection.empty section'
                      then delete sectionIt (ListWidget._sections w)
                      else <[sectionIt := section']> (ListWidget._sections w))
                     w))
        as (Hitems & ? & ? & ? & ? & ? & Hlog).
      split; [|do 5 (split; [done|]); split; [done|]].
      2: { intros s e [j Hj]%list_elem_of_lookup_1 He Hne.
           assert (exists s0 e',
                     s0 ∈ (if MSection.empty section'
                           then delete sectionIt (ListWidget._sections w)
                           else <[sectionIt := section']>
                                  (ListWidget._sections w))
                     ∧ e' ∈ MSection._items s0 ∧ moved e e')
             as (s0 & e' & [i Hi]%list_elem_of_lookup_1 & He' & Hm).
           { destruct (decide (j = sectionIt)) as [->|Hj'].
             - rewrite Es in Hj. injection Hj as <-.
               destruct (removeItem_kept section universalId e He Hne)
                 as (e' & He' & Hm).
               rewrite Er in He'. simpl in He'.
               exists section', e'. split; [|done].
               destruct (MSection.empty section') eqn:Eempty.
               + unfold MSection.empty in Eempty.
                 destruct (MSection._items section'); [|done].
                 by apply elem_of_nil in He'.
               + apply (list_elem_of_lookup_2 _ sectionIt).
                 apply list_lookup_insert_Some. left.
                 split; [done|]. split; [done|].
                 by eapply lookup_lt_Some.
             - exists s, e. split; [|split; [done|apply moved_refl]].
               destruct (MSection.empty section').
               + destruct (decide (j < sectionIt)%nat).
                 * apply (list_elem_of_lookup_2 _ j).
                   by rewrite list_lookup_delete_lt.
                 * apply (list_elem_of_lookup_2 _ (Nat.pred j)).
                   rewrite list_lookup_delete_ge by lia.
                   by replace (S (Nat.pred j)) with j by lia.
               + apply (list_elem_of_lookup_2 _ j).
                 apply list_lookup_insert_Some. by right. }
           destruct (Forall2_lookup_l _ _ _ _ _ Hitems Hi)
             as (s' & Hs' & Heq).
           exists s', e'. split; [by eapply list_elem_of_lookup_2|].
           split; [by rewrite Heq|done]. }
      * intros s [i Hi]%list_elem_of_lookup_1.
        destruct (Forall2_lookup_r _ _ _ _ _ Hitems Hi) as (s0 & Hs0 & ->).
        simpl in Hs0. destruct (MSection.empty section') eqn:Eempty.
        -- destruct (decide (i < sectionIt)%nat).
           ++ rewrite list_lookup_delete_lt in Hs0 by done.
              apply (Hkept i s0 Hs0). lia.
           ++ rewrite list_lookup_delete_ge in Hs0 by lia.
              apply (Hkept (S i) s0 Hs0). lia.
        -- apply list_lookup_insert_Some in Hs0
             as [(-> & <- & _)|[Hne Hs0]].
           ++ split; [|intros e He; by apply Hremoved].
              intros Hnil. unfold MSection.empty in Eempty.
              by rewrite Hnil in Eempty.
           ++ by apply (Hkept i s0 Hs0).
    + rewrite (Hsame eq_refl) in Hremoved.
      split; [|do 5 (split; [done|]); split; [by exists []|];
               intros s e Hs He _; exact (Hstay s e Hs He)].
      intros s [j Hj]%list_elem_of_lookup_1.
      destruct (decide (j = sectionIt)) as [->|Hne]; [|by apply (Hkept j)].
      rewrite Es in Hj. injection Hj as <-.
      split; [apply (Hsec section), (list_elem_of_lookup_2 _ _ _ Es)|].
      intros e He. by apply Hremoved.
  - split; [|do 5 (split; [done|]); split; [by exists []|];
             intros s e Hs He _; exact (Hstay s e Hs He)].
    intros s [j Hj]%list_elem_of_lookup_1. apply (Hkept j s Hj).
    intros ->. by rewrite Es in Hj.
Qed.

End removal_sections.

Section removal_selection.
Context {sty : Style} {host : Host}.

Implicit Types (w : ListWidget.t) (m : ListWidget.SelectedMap).

Lemma erase_ltb_absent {V} k (l : list (Z * V)) :
  flat_map.sorted Z.ltb l -> k ∉ flat_map.keys (flat_map.erase Z.ltb k l).
Proof.
  intros Hsorted [v Hv]%keys_elem.
  assert (flat_map.find Z.ltb k (flat_map.erase Z.ltb k l) = None) as Hnone
    by (apply fm_find_erase; eauto using ltb_irrefl, ltb_total, ltb_trans).
  assert (flat_map.find Z.ltb k (flat_map.erase Z.ltb k l) = Some v) as Hsome;
    [|congruence].
  apply fm_find_elem; eauto using ltb_irrefl, ltb_total, ltb_trans.
  apply fm_sorted_erase; eauto using ltb_trans.
Qed.

Lemma erase_keys_sub {V} cmp k k' (l : list (Z * V)) :
  k' ∈ flat_map.keys (flat_map.erase cmp k l) -> k' ∈ flat_map.keys l.
Proof.
  intros [v Hv]%keys_elem. apply keys_elem. exists v.
  by eapply fm_elem_erase.
Qed.

(** The snapshot reads the selection, the peer and the type only. *)
Lemma collectSelectedItems_ext w1 w2 :
  ListWidget._selected w1 = ListWidget._selected w2 ->
  ListWidget._peer w1 = ListWidget._peer w2 ->
  ListWidget._type w1 = ListWidget._type w2 ->
  ListWidget.collectSelectedItems w1 = ListWidget.collectSelectedItems w2.
Proof.
  unfold ListWidget.collectSelectedItems, ListWidget.hasSelectedItems,
    ListWidget.computeFullId.
  by intros -> -> ->.
Qed.

(** [removeItemSelection] erases the entry and sends the snapshot of
    what is left. *)
Lemma removeItemSelection_rows w universalId :
  is_Some (flat_map.find Z.ltb universalId (ListWidget._selected w)) ->
  0 ∉ flat_map.keys (ListWidget._selected w) ->
  exists w' items,
    ListWidget.removeItemSelection w universalId = Some w'
    ∧ ListWidget.collectSelectedItems
        (ListWidget.set_selected
           (flat_map.erase Z.ltb universalId (ListWidget._selected w)) w)
      = Some items
    ∧ ListWidget._selected w'
      = flat_map.erase Z.ltb universalId (ListWidget._selected w)
    ∧ ListWidget._dragSelected w' = ListWidget._dragSelected w
    ∧ ListWidget._sections w' = ListWidget._sections w
    ∧ ListWidget._layouts w' = ListWidget._layouts w
    ∧ exists older,
        ListWidget.log w'
        = ListWidget.SelectedListFired items :: older ++ ListWidget.log w.
Proof.
  intros Hfound Hzero. unfold ListWidget.removeItemSelection.
  rewrite option_guard_True by done. cbn [mbind option_bind]. cbv zeta.
  set (w1 := ListWidget.set_selected _ w).
  destruct (collectSelectedItems_is_Some w1) as [items Hitems].
  { intros Hk. by apply Hzero, (erase_keys_sub Z.ltb universalId). }
  unfold ListWidget.pushSelectedItems.
  destruct (ListWidget.hasSelected w1).
  - rewrite Hitems. cbn [mbind option_bind]. eexists _, items.
    repeat split; try done. by exists [].
  - change (ListWidget.collectSelectedItems
              (ListWidget.emit ListWidget.Updated w1))
      with (ListWidget.collectSelectedItems w1).
    rewrite Hitems. cbn [mbind option_bind]. eexists _, items.
    repeat split; try done. by eexists [_].
Qed.

End removal_selection.

(** What [collectSelectedItems] returns is the snapshot of the committed
    selection. *)
Lemma collectSelectedItems_snapshot (w : ListWidget.t) items :
  ListWidget.collectSelectedItems w = Some items ->
  snapshotOf w (ListWidget._selected w) items.
Proof.
  unfold ListWidget.collectSelectedItems, ListWidget.hasSelectedItems,
    snapshotOf.
  destruct (ListWidget.isSelectedItem _).
  - destruct (mapM _ _) as [list|] eqn:Hlist; [|done].
    intros [= <-]. split; [done|]. simpl.
    apply mapM_Some in Hlist.
    eapply Forall2_impl; [exact Hlist|].
    intros entry item. simpl.
    destruct (ListWidget.computeFullId w entry.1) as [fullId|]; [|done].
    by intros [= <-].
  - by intros [= <-].
Qed.

Section removal_claim.
Context {sty : Style} {host : Host}.

Implicit Types (w : ListWidget.t).

(** C6.  When a message of this peer (or of the migrated peer) that is
    in the committed selection is removed, [itemRemoved] runs to its end
    and leaves a widget in which the id is gone: no Section holds it and
    no Section is empty, every other entry of the rows is still filed,
    the layout cache is the old one without the id,
    neither the committed nor the drag selection holds it, and among the
    effects sent meanwhile is the snapshot of the committed selection
    without the id: the type of the widget and, for an item selection,
    one entry for each id left, in order, with its message id and its
    permissions ([snapshotOf]).  The rows are taken as [refreshRows]
    builds them (no empty Section, ids descending, every layout under
    its own id), the selection maps sorted, and the id 0 in none of
    them. *)
Theorem itemRemoved_scrubs w item :
  let universalId := GetUniversalId (fullId item) in
  ListWidget.isMyItem w item = true ->
  rowsWellFormed w -> absent 0 w ->
  flat_map.sorted Z.ltb (ListWidget._selected w) ->
  flat_map.sorted Z.ltb (ListWidget._dragSelected w) ->
  is_Some (flat_map.find Z.ltb universalId (ListWidget._selected w)) ->
  exists w', ListWidget.itemRemoved w item = Some w'
    ∧ absent universalId w'
    ∧ (forall s, s ∈ ListWidget._sections w' -> MSection._items s ≠ [])
    ∧ (forall s e, s ∈ ListWidget._sections w -> e ∈ MSection._items s ->
         e.1 ≠ universalId ->
         exists s' e', s' ∈ ListWidget._sections w'
           ∧ e' ∈ MSection._items s' ∧ moved e e')
    ∧ ListWidget._layouts w' = delete universalId (ListWidget._layouts w)
    ∧ exists newer older items,
        ListWidget.log w'
        = newer ++ ListWidget.SelectedListFired items
                   :: older ++ ListWidget.log w
        ∧ ListWidget.collectSelectedItems
            (ListWidget.set_selected
               (flat_map.erase Z.ltb universalId (ListWidget._selected w)) w)
          = Some items
        ∧ snapshotOf w
            (flat_map.erase Z.ltb universalId (ListWidget._selected w)) items.
Proof.
  intros universalId Hmine Hwf (Hzsec & Hzlay & Hzsel & Hzdrag) Hsorted
    Hdsorted Hselected.
  destruct (findSectionByItem_owner w universalId Hwf)
    as (sectionIt & Hfind & Hother).
  pose proof (itemRemoved_rows w universalId sectionIt Hwf Hzsec Hother)
    as Hrows.
  unfold ListWidget.itemRemoved. rewrite Hmine. fold universalId.
  cbv zeta in *. rewrite Hfind. cbn [mbind option_bind].
  match type of Hrows with
  | rowsWithout _ ?x ∧ _ => set (wa := x) in *; clearbody wa
  end.
  destruct Hrows
    as (Hrows & Hpeer & Htype & Hlay & Hsel & Hdrag & Hlog & Hkeep).
  (* the hover pointer, the cache and the drag selection *)
  match goal with
  | |- context [ListWidget.removeItemSelection ?x universalId] =>
      set (wd := x) in *
  end.
  assert (ListWidget._sections wd = ListWidget._sections wa
          ∧ ListWidget._peer wd = ListWidget._peer w
          ∧ ListWidget._type wd = ListWidget._type w
          ∧ ListWidget._layouts wd = delete universalId (ListWidget._layouts w)
          ∧ ListWidget._selected wd = ListWidget._selected w
          ∧ ListWidget._dragSelected wd
            = flat_map.erase Z.ltb universalId (ListWidget._dragSelected w)
          ∧ exists newer, ListWidget.log wd = newer ++ ListWidget.log w)
    as (Hsecd & Hpeerd & Htyped & Hlayd & Hseld & Hdragd & newerd & Hlogd).
  { subst wd.
    destruct (ListWidget.isItemLayout item (ListWidget._overLayout wa));
      simpl; by rewrite Hlay, Hdrag. }
  clearbody wd.
  assert (rowsWithout universalId wd) as Hrowsd
    by (unfold rowsWithout; by rewrite Hsecd).
  rewrite bool_decide_true by by rewrite Hseld.
  (* the committed selection *)
  destruct (removeItemSelection_rows wd universalId)
    as (we & items & -> & Hitems & Hsele & Hdrage & Hsece & Hlaye & older
        & Hloge); [by rewrite Hseld..|].
  cbn [mbind option_bind].
  assert (0 ∉ flat_map.keys (ListWidget._selected we)) as Hzsele.
  { rewrite Hsele, Hseld. intros Hk.
    by apply Hzsel, (erase_keys_sub Z.ltb universalId). }
  assert (universalId ≠ 0) as Hid.
  { intros Heq. destruct Hselected as [data Hdata].
    apply Hzsel, keys_elem. exists data. rewrite <- Heq.
    apply (fm_find_key Z.ltb); eauto using ltb_irrefl, ltb_total, ltb_trans. }
  (* the cursor over what is left *)
  destruct (mouseActionUpdate_rows we (ListWidget._mousePosition we))
    as (w' & -> & (_ & _ & Hsec' & Hlay' & newer & Hlog') & Hsel' & Hdrag').
  { intros s Hs. rewrite Hsece in Hs. apply (Hrowsd s Hs). }
  { intros s e Hs He. rewrite Hsece in Hs.
    destruct (Hrowsd s Hs) as [_ Hentries].
    destruct (Hentries e He) as (<- & _ & ?). done. }
  { rewrite Hlaye, Hlayd. apply lookup_delete_None. by right. }
  { done. }
  exists w'. split; [done|].
  assert (forall s e, s ∈ ListWidget._sections we -> e ∈ MSection._items s ->
            GetUniversalId_layout e.2 ≠ universalId) as Hgone.
  { intros s e Hs He. rewrite Hsece in Hs.
    destruct (Hrowsd s Hs) as [_ Hentries].
    destruct (Hentries e He) as (<- & ? & _). done. }
  split; [|split; [|split; [|split]]].
  - split; [|split; [|split]].
    + intros s Hs [v Hv]%keys_elem. rewrite Hsec', Hsece in Hs.
      destruct (Hrowsd s Hs) as [_ Hentries].
      by destruct (Hentries _ Hv) as (_ & ? & _).
    + rewrite Hlay', Hlaye, Hlayd. apply lookup_delete_None. by left.
    + intros [Hk|(s & e & Hs & He & Hk)]%Hsel'.
      * rewrite Hsele, Hseld in Hk. by apply (erase_ltb_absent universalId _ Hsorted).
      * by apply (Hgone s e).
    + intros [Hk|Hk]%Hdrag'.
      * rewrite Hdrage, Hdragd in Hk.
        by apply (erase_ltb_absent universalId _ Hdsorted).
      * rewrite Hlaye, Hlayd in Hk. destruct Hk as [c Hc].
        apply lookup_delete_Some in Hc as [? _]. done.
  - intros s Hs. rewrite Hsec', Hsece in Hs. apply (Hrowsd s Hs).
  - rewrite Hsec', Hsece, Hsecd. exact Hkeep.
  - by rewrite Hlay', Hlaye, Hlayd.
  - assert (ListWidget.collectSelectedItems
              (ListWidget.set_selected
                 (flat_map.erase Z.ltb universalId (ListWidget._selected w)) w)
            = Some items) as Hsnapshot.
    { rewrite <- Hitems. apply collectSelectedItems_ext; simpl; congruence. }
    exists newer, (older ++ newerd), items. split; [|split; [done|]].
    + by rewrite Hlog', Hloge, Hlogd, <- app_assoc.
    + exact (collectSelectedItems_snapshot _ _ Hsnapshot).
Qed.

End removal_claim.

Lemma itemRemoved_scrubs_witness :
  exists w' newer older,
    ListWidget.itemRemoved (sty := demoStyle) (host := demoHost)
      demoTwoSelected (demoItem MediaPhoto 104) = Some w'
    ∧ absent 104 w'
    ∧ ListWidget.log w'
      = newer
        ++ ListWidget.SelectedListFired
             (ListWidget.mkSelectedItems Photo
                [ListWidget.mkSelectedItem (mkFullMsgId 7 105) true true])
           :: older.
Proof.
  assert (rowsWellFormed demoTwoSelected) as Hrows.
  { split.
    - intros s ->%list_elem_of_singleton. split; [by vm_compute|].
      split; [vm_compute; by repeat split|].
      intros e He. vm_compute in He.
      repeat (apply elem_of_cons in He as [->|He]; [done|]).
      by apply elem_of_nil in He.
    - intros i j s s' e e' Hij Hi Hj. destruct j; [lia|done]. }
  assert (absent 0 demoTwoSelected) as Hzero.
  { split; [|split; [done|split]].
    - intros s ->%list_elem_of_singleton Hk. vm_compute in Hk.
      repeat (apply elem_of_cons in Hk as [Hk|Hk]; [done|]).
      by apply elem_of_nil in Hk.
    - intros Hk. vm_compute in Hk.
      repeat (apply elem_of_cons in Hk as [Hk|Hk]; [done|]).
      by apply elem_of_nil in Hk.
    - apply not_elem_of_nil. }
  assert (is_Some (flat_map.find Z.ltb 104
                     (ListWidget._selected demoTwoSelected)))
    as Hselected by (by eexists).
  assert (ListWidget.isMyItem demoTwoSelected (demoItem MediaPhoto 104) = true)
    as Hmine by (by vm_compute).
  assert (flat_map.sorted Z.ltb (ListWidget._selected demoTwoSelected))
    as Hsorted by (by vm_compute).
  assert (flat_map.sorted Z.ltb (ListWidget._dragSelected demoTwoSelected))
    as Hdsorted by (by vm_compute).
  destruct (itemRemoved_scrubs (sty := demoStyle) (host := demoHost)
              demoTwoSelected (demoItem MediaPhoto 104) Hmine Hrows Hzero
              Hsorted Hdsorted Hselected)
    as (w' & Hremoved & Habsent & _ & _ & _ & newer & older & items & Hlog
        & _ & Htype & Hlist).
  change (Forall2
            (fun (entry : UniversalMsgId * ListWidget.SelectionData) item =>
               ListWidget.computeFullId demoTwoSelected entry.1
               = Some (ListWidget.msgId item)
               ∧ ListWidget.si_canDelete item
                 = ListWidget.sd_canDelete entry.2
               ∧ ListWidget.si_canForward item
                 = ListWidget.sd_canForward entry.2)
            [(105, demoFull)] (ListWidget.si_list items)) in Hlist.
  destruct items as [type list]. simpl in Htype, Hlist. subst type.
  inversion Hlist as [|entry [fullId del fwd] rest list' (Hid & Hdel & Hfwd)
                         Hrest]; subst.
  inversion Hrest; subst. simpl in Hid, Hdel, Hfwd.
  injection Hid as <-. subst del fwd.
  exists w', newer, (older ++ ListWidget.log demoTwoSelected).
  split; [exact Hremoved|]. split; [exact Habsent|exact Hlog].
Defined.

(** * Further properties of the code *)

(** ** Cursor order and message ids *)

Section ids_and_order.
Context {sty : Style} {host : Host}.

Implicit Types (w : ListWidget.t) (a b : ListWidget.CursorState).

(** X1.  [IsAfter] orders two cursor states of different items by their
    ids, one way only.  Two states of one item whose coordinate
    differences and their sum stay within 32 bits are ordered by the sum
    of their coordinates: one of the two directions holds, and both
    exactly when the sums agree. *)
Theorem IsAfter_orders a b :
  (ListWidget.itemId a ≠ ListWidget.itemId b ->
   ListWidget.IsAfter a b = (ListWidget.itemId a <? ListWidget.itemId b)
   ∧ ListWidget.IsAfter b a = negb (ListWidget.IsAfter a b))
  ∧ (ListWidget.itemId a = ListWidget.itemId b -> cursorsNear a b ->
     ListWidget.IsAfter a b
     = (px (ListWidget.cursor b) + py (ListWidget.cursor b)
        <=? px (ListWidget.cursor a) + py (ListWidget.cursor a))
     ∧ (ListWidget.IsAfter a b = true ∨ ListWidget.IsAfter b a = true)
     ∧ (ListWidget.IsAfter a b = true ∧ ListWidget.IsAfter b a = true
        <-> px (ListWidget.cursor a) + py (ListWidget.cursor a)
            = px (ListWidget.cursor b) + py (ListWidget.cursor b))).
Proof.
  unfold ListWidget.IsAfter, cursorsNear. split.
  - intros Hne.
    replace (ListWidget.itemId a =? ListWidget.itemId b) with false by lia.
    replace (ListWidget.itemId b =? ListWidget.itemId a) with false by lia.
    simpl. split; [done|]. lia.
  - intros Heq (Hx & Hy & Hsum). rewrite Heq, Z.eqb_refl. simpl.
    rewrite !int32_id by (unfold is_int32; rewrite ?int32_id;
                          unfold is_int32; lia).
    lia.
Qed.

(** Past 32 bits the order is lost: of these two states of one item
    neither is after the other. *)
Lemma IsAfter_wraps :
  let a := ListWidget.mkCursorState 2 (mkSize 93 93) (mkPoint 2147483647 0)
             true in
  let b := ListWidget.mkCursorState 2 (mkSize 93 93) (mkPoint (-1) 0) true in
  ListWidget.IsAfter a b = false ∧ ListWidget.IsAfter b a = false.
Proof. by vm_compute. Qed.

(** X2.  Every universal id that [computeFullId] accepts names a message
    id from which [GetUniversalId] gives it back: any negative one (the
    ids of the plain history), and any positive one when the peer is a
    channel. *)
Theorem GetUniversalId_computeFullId w (universalId : Z) :
  is_int32 universalId -> universalId ≠ 0 ->
  (0 < universalId ->
   isChannel (ListWidget._peer w) = true
   ∧ bareId (ListWidget._peer w) ≠ NoChannel) ->
  exists fullId,
    ListWidget.computeFullId w universalId = Some fullId
    ∧ GetUniversalId fullId = universalId
    ∧ is_int32 (msg fullId).
Proof.
  intros Hrange Hne Hpos. unfold ListWidget.computeFullId.
  rewrite option_guard_True by done. cbn [mbind option_bind].
  eexists. split; [done|]. unfold GetUniversalId, is_int32 in *.
  destruct (0 <? universalId) eqn:Hsign; simpl.
  - destruct Hpos as [-> Hbare]; [lia|].
    unfold NoChannel in Hbare.
    replace (bareId (ListWidget._peer w) =? 0) with false by lia.
    simpl. lia.
  - unfold NoChannel, ServerMaxMsgId, int32. simpl.
    rewrite (Z.mod_small (1073741823 + universalId + 2 ^ 31)) by lia.
    replace (1073741823 + universalId + 2 ^ 31 - 2 ^ 31 - 1073741823)
      with universalId by lia.
    rewrite Z.mod_small by lia. lia.
Qed.

(** X3.  Without a migrated history the slice key carries the plain
    message id of the universal id, the one [computeFullId] gives; with
    one it carries the universal id itself, beside both peers. *)
Theorem sliceKey_plain_id w (universalId : Z) :
  (ListWidget._migrated w = None ->
   ListWidget.key_peerId (ListWidget.sliceKey w universalId)
   = peer_id (ListWidget._peer w)
   ∧ ListWidget.key_migratedPeerId (ListWidget.sliceKey w universalId) = 0
   ∧ forall fullId,
       ListWidget.computeFullId w universalId = Some fullId ->
       ListWidget.key_universalId (ListWidget.sliceKey w universalId)
       = msg fullId)
  ∧ (forall migrated, ListWidget._migrated w = Some migrated ->
       ListWidget.sliceKey w universalId
       = ListWidget.mkKey (peer_id (ListWidget._peer w)) (peer_id migrated)
           universalId).
Proof.
  unfold ListWidget.sliceKey. split.
  - intros ->. simpl. split; [done|]. split; [done|].
    intros fullId. unfold ListWidget.computeFullId.
    case_guard; [|done]. cbn [mbind option_bind]. intros [= <-].
    destruct (0 <? universalId) eqn:Hpos; simpl.
    + by replace (universalId <? 0) with false by lia.
    + replace (universalId <? 0) with true by lia.
      by rewrite Z.add_comm.
  - by intros migrated ->.
Qed.

End ids_and_order.

Lemma GetUniversalId_computeFullId_witness :
  exists fullId,
    ListWidget.computeFullId (demoWidget Photo ∅ [] []) (-5) = Some fullId
    ∧ GetUniversalId fullId = -5
    ∧ is_int32 (msg fullId).
Proof.
  apply (GetUniversalId_computeFullId (demoWidget Photo ∅ [] []) (-5));
    [by vm_compute|done|lia].
Defined.

(** ** The geometry [recountHeight] hands out *)

Section section_geometry.
Context {sty : Style} {host : Host}.

Implicit Types (s : MSection.t) (items : MSection.Items).

Lemma refreshHeight_grid_position s i e :
  gridKind (MSection._type s) = true -> 0 < MSection._itemsInRow s ->
  MSection._items (MSection.refreshHeight s) !! i = Some e ->
  position e.2
  = MSection._itemsInRow s
    * (MSection.headerHeight s + MSection._itemsTop s
       + Z.of_nat i `div` MSection._itemsInRow s
         * (MSection._itemWidth s + infoMediaSkip))
    + Z.of_nat i `mod` MSection._itemsInRow s.
Proof.
  intros Ht HR. rewrite refreshHeight_refreshed. unfold refreshed.
  destruct (MSection._type s); try discriminate Ht; simpl;
    intros He; apply recountGrid_lookup in He; try done; try lia;
    by rewrite Z.add_0_l in He.
Qed.

(** X4.  After [refreshHeight] the item at index [i] of a grid Section
    sits in column [i mod itemsInRow] of row [i div itemsInRow]: its
    rectangle starts [_itemsLeft] plus that many cells from the left,
    below the header and [_itemsTop] plus that many rows, and it is the
    item that was at index [i], moved. *)
Theorem refreshHeight_grid_cells s i e :
  gridKind (MSection._type s) = true ->
  0 < MSection._itemsInRow s ->
  0 <= MSection.headerHeight s + MSection._itemsTop s ->
  0 <= MSection._itemWidth s + infoMediaSkip ->
  MSection._items (MSection.refreshHeight s) !! i = Some e ->
  MSection.findItemRect (MSection.refreshHeight s) e.2
  = mkRect
      (MSection._itemsLeft s
       + Z.of_nat i `mod` MSection._itemsInRow s
         * (MSection._itemWidth s + infoMediaSkip))
      (MSection.headerHeight s + MSection._itemsTop s
       + Z.of_nat i `div` MSection._itemsInRow s
         * (MSection._itemWidth s + infoMediaSkip))
      (MSection._itemWidth s) (height e.2)
  ∧ exists e0, MSection._items s !! i = Some e0 ∧ moved e0 e.
Proof.
  intros Ht HR Hbase HH He.
  pose proof (refreshHeight_grid_position s i e Ht HR He) as Hpos.
  destruct (refreshHeight_frame s)
    as (_ & _ & Hleft & _ & Hwidth & Hrow & _ & Hmoved).
  split.
  - unfold MSection.findItemRect. rewrite Hleft, Hwidth, Hrow, Hpos.
    pose proof (Z.mod_pos_bound (Z.of_nat i) _ HR) as Hmod.
    pose proof (Z.div_pos (Z.of_nat i) _ ltac:(lia) HR) as Hdiv.
    destruct (quot_rem_affine (MSection._itemsInRow s)
                (MSection.headerHeight s + MSection._itemsTop s
                 + Z.of_nat i `div` MSection._itemsInRow s
                   * (MSection._itemWidth s + infoMediaSkip))
                (Z.of_nat i `mod` MSection._itemsInRow s)) as [-> ->];
      [done|nia|done|done].
  - destruct (Forall2_lookup_r _ _ _ _ _ Hmoved He) as (e0 & He0 & Hm).
    by exists e0.
Qed.

End section_geometry.

Lemma refreshHeight_grid_cells_witness :
  exists e,
    MSection._items
      (MSection.refreshHeight (sty := demoStyle) demoPhotoSection) !! 4%nat
    = Some e
    ∧ MSection.findItemRect (sty := demoStyle)
        (MSection.refreshHeight (sty := demoStyle) demoPhotoSection) e.2
      = mkRect 103 131 93 93.
Proof.
  assert (exists e,
            MSection._items
              (MSection.refreshHeight (sty := demoStyle) demoPhotoSection)
              !! 4%nat = Some e ∧ height e.2 = 93) as (e & He & Hheight)
    by (eexists; split; vm_compute; reflexivity).
  exists e. split; [exact He|].
  destruct (refreshHeight_grid_cells (sty := demoStyle) demoPhotoSection
              4 e) as [Hrect _];
    [reflexivity|by vm_compute|by vm_compute|by vm_compute|exact He|].
  rewrite Hrect, Hheight. vm_compute. reflexivity.
Defined.

(** ** The height of a Section *)

Section section_heights.
Context {sty : Style} {host : Host}.

Implicit Types (s : MSection.t) (items : MSection.Items).

Lemma recountColumn_lookup items result i e :
  (MSection.recountColumn items result).1 !! i = Some e ->
  position e.2 = result + heightsOf (take i items).
Proof.
  revert result i. induction items as [|[id item] items IH];
    intros result i; simpl; [done|].
  specialize (IH (result + height item)).
  destruct (MSection.recountColumn items (result + height item))
    as [rest final].
  destruct i as [|i]; simpl.
  - intros [= <-]. simpl. lia.
  - intros He. rewrite (IH i He). lia.
Qed.

Lemma recountColumn_result items result :
  (MSection.recountColumn items result).2 = result + heightsOf items.
Proof.
  revert result. induction items as [|[id item] items IH]; intros result;
    simpl; [lia|].
  specialize (IH (result + height item)).
  destruct (MSection.recountColumn items (result + height item))
    as [rest final].
  simpl in *. lia.
Qed.

Lemma recountGrid_result itemsInRow itemHeight items result index :
  0 < itemsInRow -> 0 <= index < itemsInRow ->
  (MSection.recountGrid itemsInRow itemHeight items result index).2
  = result
    + (index + Z.of_nat (length items)) `div` itemsInRow * itemHeight.
Proof.
  intros HR. revert result index.
  induction items as [|[id item] items IH]; intros result index Hidx.
  - simpl. rewrite Z.add_0_r, Z.div_small by lia. lia.
  - cbn [MSection.recountGrid length].
    destruct (index + 1 =? itemsInRow) eqn:Ei.
    + specialize (IH (result + itemHeight) 0 ltac:(lia)).
      destruct (MSection.recountGrid _ _ items _ _) as [rest final].
      simpl in *. rewrite IH.
      replace (index + Z.of_nat (S (length items)))
        with (1 * itemsInRow + Z.of_nat (length items)) by lia.
      rewrite Z.div_add_l, Z.add_0_l by lia. ring.
    + specialize (IH result (index + 1) ltac:(lia)).
      destruct (MSection.recountGrid _ _ items _ _) as [rest final].
      simpl in *. rewrite IH.
      by replace (index + 1 + Z.of_nat (length items))
        with (index + Z.of_nat (S (length items))) by lia.
Qed.

(** X5.  In a single column [refreshHeight] stacks the items: the first
    starts below the header, every next one where the one before it ends;
    the Section is as high as the header and all its items, and counts
    one row per item. *)
Theorem refreshHeight_column_stacked s :
  gridKind (MSection._type s) = false ->
  let s' := MSection.refreshHeight s in
  (forall i e, MSection._items s' !! i = Some e ->
     position e.2
     = MSection.headerHeight s + heightsOf (take i (MSection._items s))
     ∧ exists e0, MSection._items s !! i = Some e0 ∧ moved e0 e)
  ∧ MSection._height s'
    = MSection.headerHeight s + heightsOf (MSection._items s)
  ∧ MSection._rowsCount s' = Z.of_nat (length (MSection._items s)).
Proof.
  intros Ht. simpl.
  destruct (refreshHeight_frame s) as (_ & _ & _ & _ & _ & _ & _ & Hmoved).
  split.
  - intros i e He. split.
    + revert He. rewrite refreshHeight_refreshed. unfold refreshed.
      destruct (MSection._type s); try discriminate Ht; simpl;
        apply recountColumn_lookup.
    + destruct (Forall2_lookup_r _ _ _ _ _ Hmoved He) as (e0 & He0 & Hm).
      by exists e0.
  - rewrite refreshHeight_refreshed. unfold refreshed.
    destruct (MSection._type s); try discriminate Ht; simpl;
      by rewrite recountColumn_result.
Qed.

(** X6.  A grid Section of [n] items in rows of [itemsInRow] counts
    [ceil (n / itemsInRow)] rows after [refreshHeight], and is as high as
    the header, [_itemsTop] and that many rows of [_itemWidth + skip]. *)
Theorem refreshHeight_grid_height s :
  gridKind (MSection._type s) = true ->
  0 < MSection._itemsInRow s ->
  let s' := MSection.refreshHeight s in
  let n := Z.of_nat (length (MSection._items s)) in
  MSection._rowsCount s'
  = (n + MSection._itemsInRow s - 1) `div` MSection._itemsInRow s
  ∧ MSection._height s'
    = MSection.headerHeight s + MSection._itemsTop s
      + MSection._rowsCount s' * (MSection._itemWidth s + infoMediaSkip).
Proof.
  intros Ht HR. simpl.
  set (n := Z.of_nat (length (MSection._items s))).
  set (R := MSection._itemsInRow s) in *.
  assert (0 <= n) as Hn by (unfold n; lia).
  pose proof (Z.div_mod n R ltac:(lia)) as Hdm.
  pose proof (Z.mod_pos_bound n R HR) as Hmod.
  assert ((n + R - 1) `div` R
          = n `div` R + if n `mod` R =? 0 then 0 else 1) as Hceil.
  { destruct (n `mod` R =? 0) eqn:E.
    - symmetry. apply (Z.div_unique_pos _ _ _ (R - 1)); lia.
    - symmetry. apply (Z.div_unique_pos _ _ _ (n `mod` R - 1)); lia. }
  rewrite Hceil, refreshHeight_refreshed. unfold refreshed.
  fold R n.
  destruct (MSection._type s); try discriminate Ht; simpl;
    rewrite recountGrid_result by lia;
    rewrite Z.add_0_l, Z.rem_mod_nonneg, Z.quot_div_nonneg by lia;
    fold n; destruct (n `mod` R =? 0); simpl; split; lia.
Qed.

End section_heights.

Lemma refreshHeight_column_stacked_witness :
  MSection._height (MSection.refreshHeight (sty := demoStyle) demoFileSection)
  = MSection.headerHeight (sty := demoStyle) demoFileSection
    + heightsOf (MSection._items demoFileSection).
Proof.
  destruct (refreshHeight_column_stacked (sty := demoStyle) demoFileSection)
    as (_ & Hheight & _); [reflexivity|].
  exact Hheight.
Defined.

Lemma refreshHeight_grid_height_witness :
  MSection._rowsCount
    (MSection.refreshHeight (sty := demoStyle) demoPhotoSection) = 2.
Proof.
  destruct (refreshHeight_grid_height (sty := demoStyle) demoPhotoSection)
    as [Hrows _]; [reflexivity|by vm_compute|].
  rewrite Hrows. vm_compute. reflexivity.
Defined.

(** ** What a Section files and what it lets go *)

Section flat_map_order.
Context {V : Type} (cmp : Z -> Z -> bool).
Hypothesis cmp_irrefl : forall a, cmp a a = false.
Hypothesis cmp_total : forall a b, cmp a b = false -> cmp b a = false -> a = b.
Hypothesis cmp_trans :
  forall a b c, cmp a b = true -> cmp b c = true -> cmp a c = true.

Implicit Types (m : list (Z * V)) (k : Z) (v : V).

Lemma fm_emplace_head k v m e :
  head (flat_map.emplace cmp k v m).1 = Some e ->
  e = (k, v) ∨ head m = Some e.
Proof.
  destruct m as [|[k' v'] m]; simpl; [intros [= <-]; by left|].
  destruct (cmp k' k).
  - destruct (flat_map.emplace cmp k v m) as [r ok]. simpl.
    intros [= <-]. by right.
  - destruct (cmp k k'); simpl; intros [= <-]; [by left|by right].
Qed.

Lemma fm_sorted_cons k v m :
  flat_map.sorted cmp ((k, v) :: m)
  <-> (forall e, head m = Some e -> cmp k e.1 = true) ∧ flat_map.sorted cmp m.
Proof.
  simpl. destruct m as [|[k' v'] m]; simpl.
  - split; [by intros _|done].
  - split.
    + intros [Hk Hs]. split; [|done]. by intros e [= <-].
    + intros [Hk Hs]. split; [|done]. by apply (Hk (k', v')).
Qed.

Lemma fm_sorted_emplace k v m :
  flat_map.sorted cmp m -> flat_map.sorted cmp (flat_map.emplace cmp k v m).1.
Proof.
  induction m as [|[k' v'] m IH]; intros Hs; [done|].
  cbn [flat_map.emplace]. destruct (cmp k' k) eqn:E1.
  - destruct (proj1 (fm_sorted_cons _ _ _) Hs) as [Hhead Hs'].
    pose proof (fm_emplace_head k v m) as Hh.
    destruct (flat_map.emplace cmp k v m) as [r ok]. simpl in Hh, IH.
    change (flat_map.sorted cmp ((k', v') :: r)).
    apply fm_sorted_cons. split; [|by apply IH].
    intros e [->|He]%Hh; [done|by apply Hhead].
  - destruct (cmp k k') eqn:E2; simpl; [|done].
    split; [done|]. apply Hs.
Qed.

Lemma fm_keys_above k k' v' m :
  flat_map.sorted cmp ((k', v') :: m) ->
  cmp k k' = true ∨ k = k' -> k ∉ flat_map.keys m.
Proof.
  intros Hs Hk [v Hv]%keys_elem.
  pose proof (fm_sorted_head cmp cmp_trans _ _ _ _ Hs Hv) as Hlt.
  simpl in Hlt.
  assert (cmp k k = true) as Habs; [|by rewrite cmp_irrefl in Habs].
  destruct Hk as [Hk| ->]; [by eapply cmp_trans|done].
Qed.

Lemma filter_others (l : list Z) k :
  k ∉ l -> List.filter (fun k' => negb (k' =? k)) l = l.
Proof.
  induction l as [|a l IH]; intros Hk; [done|]. simpl.
  apply not_elem_of_cons in Hk as [Hne Hk].
  replace (a =? k) with false by lia. simpl. by rewrite IH.
Qed.

Lemma fm_keys_erase k m :
  flat_map.sorted cmp m ->
  flat_map.keys (flat_map.erase cmp k m)
  = List.filter (fun k' => negb (k' =? k)) (flat_map.keys m).
Proof.
  induction m as [|[k' v'] m IH]; intros Hs; [done|].
  cbn [flat_map.erase]. destruct (cmp k' k) eqn:E1.
  - change (flat_map.keys ((k', v') :: flat_map.erase cmp k m))
      with (k' :: flat_map.keys (flat_map.erase cmp k m)).
    rewrite IH by apply Hs. simpl.
    assert (k' ≠ k) by (intros ->; by rewrite cmp_irrefl in E1).
    by replace (k' =? k) with false by lia.
  - destruct (cmp k k') eqn:E2.
    + symmetry. apply filter_others.
      change (flat_map.keys ((k', v') :: m)) with (k' :: flat_map.keys m).
      apply not_elem_of_cons. split.
      * intros ->. by rewrite cmp_irrefl in E2.
      * eapply fm_keys_above; [exact Hs|by left].
    + pose proof (cmp_total _ _ E1 E2) as ->. simpl.
      rewrite Z.eqb_refl. simpl. symmetry. apply filter_others.
      eapply fm_keys_above; [exact Hs|by right].
Qed.

Lemma fm_sorted_keys (m : list (Z * V)) {V'} (m' : list (Z * V')) :
  flat_map.keys m' = flat_map.keys m ->
  flat_map.sorted cmp m -> flat_map.sorted cmp m'.
Proof.
  revert m'. induction m as [|[k v] m IH]; intros [|[k' v'] m'] Hk;
    try done.
  injection Hk as -> Hk. simpl. intros [Hhead Hs]. split; [|by apply IH].
  destruct m as [|[k1 v1] m], m' as [|[k1' v1'] m']; try done.
  by injection Hk as -> _.
Qed.

End flat_map_order.

Lemma fm_emplace_nonempty {V} cmp k (v : V) m :
  (flat_map.emplace cmp k v m).1 ≠ [].
Proof.
  destruct m as [|[k' v'] m]; simpl; [done|].
  destruct (cmp k' k); [by destruct (flat_map.emplace cmp k v m)|].
  by destruct (cmp k k').
Qed.

Section section_items.
Context {sty : Style} {host : Host}.

Implicit Types (s : MSection.t) (items : MSection.Items).

Lemma moved_keys items items' :
  Forall2 moved items items' -> flat_map.keys items' = flat_map.keys items.
Proof.
  induction 1 as [|e e' l l' [Hk _] _ IH]; [done|].
  unfold flat_map.keys in *. simpl. by rewrite Hk, IH.
Qed.

Lemma refreshHeight_keys s :
  flat_map.keys (MSection._items (MSection.refreshHeight s))
  = flat_map.keys (MSection._items s).
Proof.
  destruct (refreshHeight_frame s) as (_ & _ & _ & _ & _ & _ & _ & Hmoved).
  by apply moved_keys.
Qed.

(** X7.  [Section::removeItem] on a Section sorted by id: it answers
    whether the id was filed; if not, nothing changes; if so, exactly
    that entry goes, the other ids keep their order, every layout left is
    an old one (moved at most), and the Section stays sorted. *)
Theorem removeItem_exact s (universalId : Z) :
  flat_map.sorted Z.gtb (MSection._items s) ->
  let removed := MSection.removeItem s universalId in
  (removed.2 = true <-> universalId ∈ flat_map.keys (MSection._items s))
  ∧ (removed.2 = false -> removed.1 = s)
  ∧ flat_map.keys (MSection._items removed.1)
    = List.filter (fun k => negb (k =? universalId))
        (flat_map.keys (MSection._items s))
  ∧ (forall e', e' ∈ MSection._items removed.1 ->
       exists e, e ∈ MSection._items s ∧ moved e e')
  ∧ flat_map.sorted Z.gtb (MSection._items removed.1).
Proof.
  intros Hsorted. simpl.
  assert (flat_map.keys
            (flat_map.erase Z.gtb universalId (MSection._items s))
          = List.filter (fun k => negb (k =? universalId))
              (flat_map.keys (MSection._items s))) as Hkeys
    by (apply fm_keys_erase; eauto using gtb_irrefl, gtb_total, gtb_trans).
  split; [|split; [|split; [|split]]].
  - unfold MSection.removeItem.
    destruct (flat_map.find Z.gtb universalId (MSection._items s)) as [l|]
      eqn:Hf; simpl.
    + split; [intros _|done]. apply keys_elem. exists l.
      apply (fm_find_key Z.gtb);
        eauto using gtb_irrefl, gtb_total, gtb_trans.
    + split; [done|]. intros [l Hl]%keys_elem.
      assert (flat_map.find Z.gtb universalId (MSection._items s) = Some l)
        as Hsome; [|congruence].
      apply fm_find_elem; eauto using gtb_irrefl, gtb_total, gtb_trans.
  - unfold MSection.removeItem.
    by destruct (flat_map.find Z.gtb universalId (MSection._items s)).
  - unfold MSection.removeItem.
    destruct (flat_map.find Z.gtb universalId (MSection._items s)) as [l|]
      eqn:Hf; simpl.
    + by rewrite refreshHeight_keys.
    + symmetry. apply filter_others. intros [l Hl]%keys_elem.
      assert (flat_map.find Z.gtb universalId (MSection._items s) = Some l)
        as Hsome; [|congruence].
      apply fm_find_elem; eauto using gtb_irrefl, gtb_total, gtb_trans.
  - intros e' He'.
    destruct (removeItem_entries s universalId e' Hsorted He')
      as (e & He & _ & Hm).
    by exists e.
  - unfold MSection.removeItem.
    destruct (flat_map.find Z.gtb universalId (MSection._items s)); simpl;
      [|done].
    eapply (fm_sorted_keys Z.gtb); [apply refreshHeight_keys|]. simpl.
    apply fm_sorted_erase; eauto using gtb_trans.
Qed.

Lemma appendItem_sorted_keyed s item (P : BaseLayout -> Prop) :
  flat_map.sorted Z.gtb (MSection._items s) -> keyed (MSection._items s) ->
  (forall e, e ∈ MSection._items s -> P e.2) -> P item ->
  let s' := MSection.appendItem s item in
  flat_map.sorted Z.gtb (MSection._items s') ∧ keyed (MSection._items s')
  ∧ forall e, e ∈ MSection._items s' -> P e.2.
Proof.
  intros Hsorted Hkeyed HP Hitem. simpl. unfold MSection.appendItem. simpl.
  split; [|split].
  - apply fm_sorted_emplace; eauto using gtb_trans.
  - intros e [->|He]%fm_elem_emplace; [done|by apply Hkeyed].
  - intros e [->|He]%fm_elem_emplace; [done|by apply HP].
Qed.

Lemma addItems_sorted_keyed layouts s s' (P : BaseLayout -> Prop) :
  addItems s layouts = Some s' ->
  flat_map.sorted Z.gtb (MSection._items s) -> keyed (MSection._items s) ->
  (forall e, e ∈ MSection._items s -> P e.2) ->
  (forall l, l ∈ layouts -> P l) ->
  flat_map.sorted Z.gtb (MSection._items s') ∧ keyed (MSection._items s')
  ∧ forall e, e ∈ MSection._items s' -> P e.2.
Proof.
  revert s. induction layouts as [|layout layouts IH];
    intros s Hadd Hsorted Hkeyed HP Hlayouts; simpl in Hadd.
  - by injection Hadd as <-.
  - rewrite addItem_eq in Hadd. cbn [mbind option_bind] in Hadd.
    assert (forall l, l ∈ layouts -> P l) as Hrest
      by (intros l Hl; apply Hlayouts; by right).
    destruct (accepts s layout); [|by eapply IH].
    eapply IH; [exact Hadd|..|exact Hrest];
      apply (appendItem_sorted_keyed _ layout P);
      try (by destruct (MSection.empty s)).
    all: apply Hlayouts; left.
Qed.

(** A run of [addItem] calls on a Section that is not empty and holds
    the bucket of [first]: the layouts of that bucket are filed, the
    others are not, and nothing filed is lost. *)
Lemma addItems_run s (layouts : list BaseLayout) s' (first : BaseLayout) :
  addItems s layouts = Some s' ->
  flat_map.sorted Z.gtb (MSection._items s) ->
  MSection._items s ≠ [] ->
  (forall e, e ∈ MSection._items s ->
     sameBucket (MSection._type s) (date (getItem e.2)) (date (getItem first))
     = true) ->
  MSection._type s' = MSection._type s
  ∧ (forall e, e ∈ MSection._items s -> e ∈ MSection._items s')
  ∧ (forall e, e ∈ MSection._items s' ->
       sameBucket (MSection._type s) (date (getItem e.2))
         (date (getItem first)) = true)
  ∧ (forall l, l ∈ layouts ->
       sameBucket (MSection._type s) (date (getItem l)) (date (getItem first))
       = true ->
       GetUniversalId_layout l ∈ flat_map.keys (MSection._items s'))
  ∧ (NoDup (GetUniversalId_layout <$> layouts) ->
     (forall l, l ∈ layouts ->
        GetUniversalId_layout l ∉ flat_map.keys (MSection._items s)) ->
     forall l, l ∈ layouts ->
       sameBucket (MSection._type s) (date (getItem l)) (date (getItem first))
       = true ->
       (GetUniversalId_layout l, l) ∈ MSection._items s').
Proof.
  revert s. induction layouts as [|layout rest IH];
    intros s Hadd Hsorted Hne Hbucket; simpl in Hadd.
  { injection Hadd as <-. repeat split; try done.
    - intros l Hl. by apply elem_of_nil in Hl.
    - intros _ _ l Hl. by apply elem_of_nil in Hl. }
  rewrite addItem_eq in Hadd. cbn [mbind option_bind] in Hadd.
  assert (accepts s layout
          = sameBucket (MSection._type s) (date (getItem layout))
              (date (getItem first))) as Haccepts.
  { unfold accepts.
    destruct (last (MSection._items s)) as [back|] eqn:Hlast;
      [|by apply last_None in Hlast].
    pose proof (Hbucket back (last_elem _ _ Hlast)) as Hback.
    destruct (sameBucket _ (date (getItem layout)) (date (getItem back.2)))
      eqn:Hhere; symmetry.
    - by eapply sameBucket_trans.
    - apply not_true_is_false. intros Hfirst. apply sameBucket_sym in Hback.
      by rewrite (sameBucket_trans _ _ _ _ Hfirst Hback) in Hhere. }
  rewrite Haccepts in Hadd.
  destruct (sameBucket _ (date (getItem layout)) (date (getItem first)))
    eqn:Hlayout.
  - set (s0 := if MSection.empty s then _ else s) in *.
    assert (MSection._items s0 = MSection._items s
            ∧ MSection._type s0 = MSection._type s) as [Hitems Htype]
      by (subst s0; by destruct (MSection.empty s)).
    set (s1 := MSection.appendItem s0 layout) in *.
    assert (MSection._items s1
            = (flat_map.emplace Z.gtb (GetUniversalId_layout layout) layout
                 (MSection._items s)).1) as Hitems1
      by (subst s1; unfold MSection.appendItem; simpl; by rewrite Hitems).
    assert (MSection._type s1 = MSection._type s) as Htype1 by done.
    destruct (IH s1 Hadd) as (Htype' & Hold & Hheld & Hfiled & Hexact).
    { rewrite Hitems1. apply fm_sorted_emplace; eauto using gtb_trans. }
    { rewrite Hitems1. apply fm_emplace_nonempty. }
    { intros e. rewrite Hitems1, Htype1.
      intros [->|He]%fm_elem_emplace; [done|by apply Hbucket]. }
    rewrite Htype1 in *.
    assert (forall e, e ∈ MSection._items s -> e ∈ MSection._items s1)
      as Hold1.
    { intros e He. rewrite Hitems1. by apply fm_elem_emplace_old. }
    assert (GetUniversalId_layout layout
            ∈ flat_map.keys (MSection._items s1)) as Hin1.
    { apply keys_elem. eexists. rewrite Hitems1.
      apply (fm_find_key Z.gtb);
        eauto using gtb_irrefl, gtb_total, gtb_trans.
      apply fm_find_emplace; eauto using gtb_irrefl. }
    split; [done|]. split; [by auto|]. split; [done|]. split.
    + intros l [->|Hl]%elem_of_cons Hl'; [|by apply Hfiled].
      apply keys_elem in Hin1 as [v Hv]. apply keys_elem. exists v.
      by apply Hold.
    + intros Hnodup Hfresh l Hl Hl'.
      simpl in Hnodup. apply NoDup_cons in Hnodup as [Hhead Hnodup].
      apply elem_of_cons in Hl as [->|Hl].
      * apply Hold. rewrite Hitems1. apply (fm_find_key Z.gtb);
          eauto using gtb_irrefl, gtb_total, gtb_trans.
        rewrite fm_find_emplace by eauto using gtb_irrefl.
        rewrite fm_find_None_notin; [done|..];
          eauto using gtb_irrefl, gtb_total, gtb_trans.
        apply Hfresh. left.
      * apply Hexact; [done| |done..].
        intros l' Hl'' [v Hv]%keys_elem. rewrite Hitems1 in Hv.
        apply fm_elem_emplace in Hv as [[= Hsame _]|Hv].
        -- apply Hhead. rewrite <- Hsame. apply list_elem_of_fmap.
           by exists l'.
        -- apply (Hfresh l'); [by right|]. apply keys_elem. by exists v.
  - destruct (IH s Hadd Hsorted Hne Hbucket)
      as (Htype' & Hold & Hheld & Hfiled & Hexact).
    split; [done|]. split; [done|]. split; [done|]. split.
    + intros l [->|Hl]%elem_of_cons Hl'; [congruence|by apply Hfiled].
    + intros Hnodup Hfresh l Hl Hl'.
      simpl in Hnodup. apply NoDup_cons in Hnodup as [_ Hnodup].
      apply elem_of_cons in Hl as [->|Hl]; [congruence|].
      apply Hexact; [done| |done..]. intros l' Hl''. apply Hfresh. by right.
Qed.

(** X8.  A Section filled from empty by [addItem] calls holds the bucket
    of the first layout offered: every layout of that bucket is filed
    under the id of its own message (the layout itself when no id is
    offered twice), no layout of another bucket and nothing that was not
    offered is held; the ids are in descending order, and [minId] and
    [maxId] are their bounds. *)
Theorem addItems_files_by_id (type : MediaType) (layouts : list BaseLayout) :
  exists s, addItems (MSection.create type) layouts = Some s
    ∧ flat_map.sorted Z.gtb (MSection._items s)
    ∧ keyed (MSection._items s)
    ∧ (forall e, e ∈ MSection._items s -> e.2 ∈ layouts)
    ∧ (forall first l, head layouts = Some first -> l ∈ layouts ->
         sameBucket type (date (getItem l)) (date (getItem first)) = true ->
         GetUniversalId_layout l ∈ flat_map.keys (MSection._items s))
    ∧ (forall first e, head layouts = Some first -> e ∈ MSection._items s ->
         sameBucket type (date (getItem e.2)) (date (getItem first)) = true)
    ∧ (NoDup (GetUniversalId_layout <$> layouts) ->
       forall first l, head layouts = Some first -> l ∈ layouts ->
         sameBucket type (date (getItem l)) (date (getItem first)) = true
         <-> (GetUniversalId_layout l, l) ∈ MSection._items s)
    ∧ (forall e least greatest, e ∈ MSection._items s ->
         MSection.minId s = Some least ->
         MSection.maxId s = Some greatest -> least <= e.1 <= greatest).
Proof.
  destruct (addItems_uniform layouts (MSection.create type))
    as (s & Hadd & _ & _);
    [intros e e' He; by apply elem_of_nil in He|].
  exists s. split; [done|].
  destruct (addItems_sorted_keyed layouts (MSection.create type) s
              (fun l => l ∈ layouts) Hadd) as (Hsorted & Hkeyed & Hfrom);
    [done|intros e He; by apply elem_of_nil in He
    |intros e He; by apply elem_of_nil in He|done|].
  split; [done|]. split; [done|]. split; [done|].
  assert (forall first, head layouts = Some first ->
            (forall l, l ∈ layouts ->
               sameBucket type (date (getItem l)) (date (getItem first)) = true ->
               GetUniversalId_layout l ∈ flat_map.keys (MSection._items s))
            ∧ (forall e, e ∈ MSection._items s ->
                 sameBucket type (date (getItem e.2)) (date (getItem first))
                 = true)
            ∧ (NoDup (GetUniversalId_layout <$> layouts) ->
               forall l, l ∈ layouts ->
                 sameBucket type (date (getItem l)) (date (getItem first))
                 = true ->
                 (GetUniversalId_layout l, l) ∈ MSection._items s)) as Hrun.
  { intros first Hhead. destruct layouts as [|layout rest]; [done|].
    injection Hhead as ->.
    set (s1 := MSection.appendItem
                 (MSection.setHeader (MSection.create type) first) first).
    assert (addItems s1 rest = Some s) as Hrest by exact Hadd.
    assert (MSection._items s1 = [(GetUniversalId_layout first, first)])
      as Hitems1 by done.
    assert (MSection._type s1 = type) as Htype1 by done.
    destruct (addItems_run s1 rest s first Hrest)
      as (_ & Hold & Hheld & Hfiled & Hexact); rewrite ?Hitems1, ?Htype1 in *.
    { done. }
    { done. }
    { intros e ->%list_elem_of_singleton. apply sameBucket_refl. }
    assert ((GetUniversalId_layout first, first) ∈ MSection._items s)
      as Hfirst by (apply Hold; left).
    split; [|split; [done|]].
    - intros l [->|Hl]%elem_of_cons Hl'; [|by apply Hfiled].
      apply keys_elem. by exists first.
    - intros Hnodup l Hl Hl'. simpl in Hnodup.
      apply NoDup_cons in Hnodup as [Hhead Hnodup].
      apply elem_of_cons in Hl as [->|Hl]; [done|].
      apply Hexact; [done| |done..].
      intros l' Hl'' [v Hv]%keys_elem.
      apply list_elem_of_singleton in Hv as [= Hsame _]. apply Hhead.
      rewrite <- Hsame. apply list_elem_of_fmap. by exists l'. }
  split; [intros first l Hhead; by apply (Hrun first Hhead)|].
  split; [intros first e Hhead; by apply (Hrun first Hhead)|].
  split.
  { intros Hnodup first l Hhead Hl. split.
    - by apply (Hrun first Hhead).
    - intros He. by apply (proj1 (proj2 (Hrun first Hhead)) _ He). }
  intros e least greatest He. unfold MSection.minId, MSection.maxId.
  destruct (last (MSection._items s)) as [e0|] eqn:Hlast; [|done].
  destruct (head (MSection._items s)) as [e1|] eqn:Hhead; [|done].
  simpl. intros [= <-] [= <-].
  pose proof (minId_least _ _ _ Hsorted Hlast He).
  split; [done|].
  apply list_elem_of_lookup_1 in He as [i Hi].
  destruct i as [|i].
  - rewrite <- head_lookup, Hhead in Hi. injection Hi as ->. lia.
  - rewrite head_lookup in Hhead.
    pose proof (sorted_gtb_lookup _ 0 (S i) e1 e Hsorted ltac:(lia) Hhead Hi).
    lia.
Qed.

End section_items.

(** Offered the photos 101, 102, 203 and 103, a Photo Section files the
    three of the first month and leaves the one of the next month out. *)
Lemma addItems_files_by_id_example :
  (fun s => flat_map.keys (MSection._items s))
    <$> addItems (host := demoHost) (MSection.create Photo)
          (demoPhoto <$> [101; 102; 203; 103])
  = Some [103; 102; 101].
Proof. by vm_compute. Qed.

Lemma removeItem_exact_witness :
  flat_map.keys
    (MSection._items
       (MSection.removeItem (sty := demoStyle) demoPhotoSection 104).1)
  = [106; 105; 103; 102; 101].
Proof.
  destruct (removeItem_exact (sty := demoStyle) demoPhotoSection 104)
    as (_ & _ & Hkeys & _); [vm_compute; by repeat split|].
  rewrite Hkeys. vm_compute. reflexivity.
Defined.

(** ** Finding Sections and items in the widget *)

Section widget_lookup.
Context {sty : Style} {host : Host}.

Implicit Types (w : ListWidget.t) (s : MSection.t).

Lemma sorted_gtb_unique (items : MSection.Items) e e' :
  flat_map.sorted Z.gtb items -> e ∈ items -> e' ∈ items -> e.1 = e'.1 ->
  e = e'.
Proof.
  intros Hs [i Hi]%list_elem_of_lookup_1 [j Hj]%list_elem_of_lookup_1 Hk.
  destruct (Nat.lt_trichotomy i j) as [Hlt|[->|Hlt]].
  - pose proof (sorted_gtb_lookup _ i j e e' Hs Hlt Hi Hj). lia.
  - congruence.
  - pose proof (sorted_gtb_lookup _ j i e' e Hs Hlt Hj Hi). lia.
Qed.

(** X9.  On well-formed rows (no Section empty, every Section sorted by
    id with each item under its own id, the Sections in descending order
    of their ids) [findItemById] finds every item by the id it is filed
    under, with its rectangle moved to the Section's top, and finds
    nothing for an id no Section holds. *)
Theorem findItemById_finds_shown w (universalId : Z) :
  rowsWellFormed w ->
  (forall s e, s ∈ ListWidget._sections w -> e ∈ MSection._items s ->
     e.1 = universalId ->
     ListWidget.findItemById w universalId
     = Some (Some (mkFound e.2
                     (translated (MSection.findItemRect s e.2) 0
                        (MSection._top s))
                     true)))
  ∧ ((forall s, s ∈ ListWidget._sections w ->
        universalId ∉ flat_map.keys (MSection._items s)) ->
     ListWidget.findItemById w universalId = Some None).
Proof.
  intros Hwf.
  destruct (findSectionByItem_owner w universalId Hwf)
    as (sectionIt & Hfind & Hother).
  destruct Hwf as [Hsec _].
  unfold ListWidget.findItemById. rewrite Hfind. cbn [mbind option_bind].
  split.
  - intros s e [j Hj]%list_elem_of_lookup_1 He Hkey.
    assert (universalId ∈ flat_map.keys (MSection._items s)) as Hin.
    { apply keys_elem. exists e.2. rewrite <- Hkey. by destruct e. }
    destruct (decide (j = sectionIt)) as [->|Hne];
      [|by destruct (Hother j s Hj Hne)].
    rewrite Hj.
    destruct (Hsec s (list_elem_of_lookup_2 _ _ _ Hj))
      as (Hne & Hsorted & Hkeyed).
    destruct (findItemNearId_spec s universalId Hne Hsorted Hkeyed)
      as (e0 & He0 & -> & Hpresent & _).
    cbn [mbind option_bind]. specialize (Hpresent Hin).
    assert (e0 = e) as -> by (apply (sorted_gtb_unique (MSection._items s));
                              [done..|congruence]).
    simpl. by rewrite bool_decide_eq_true_2.
  - intros Hnone.
    destruct (ListWidget._sections w !! sectionIt) as [s|] eqn:Es; [|done].
    pose proof (list_elem_of_lookup_2 _ _ _ Es) as Hs.
    destruct (Hsec s Hs) as (Hne & Hsorted & Hkeyed).
    destruct (findItemNearId_spec s universalId Hne Hsorted Hkeyed)
      as (e0 & He0 & -> & _).
    cbn [mbind option_bind]. simpl.
    rewrite bool_decide_eq_false_2; [done|].
    intros Hkey. apply (Hnone s Hs), keys_elem. exists e0.2.
    rewrite <- Hkey. by destruct e0.
Qed.

Lemma placeSections_stacks (sections : list MSection.t) (result : Z) :
  let placed := ListWidget.placeSections sections result in
  Forall2 (fun s s' => s' = MSection.setTop s (MSection._top s')) sections
    placed.1
  ∧ (forall s, head placed.1 = Some s -> MSection._top s = result)
  ∧ (forall i s s', placed.1 !! i = Some s -> placed.1 !! S i = Some s' ->
       MSection._top s' = MSection.bottom s)
  ∧ placed.2 = default result (MSection.bottom <$> last placed.1).
Proof.
  revert result. induction sections as [|s sections IH]; intros result;
    simpl; [by repeat split|].
  specialize (IH (result + MSection._height (MSection.setTop s result))).
  destruct (ListWidget.placeSections sections _) as [rest final].
  simpl in *. destruct IH as (Hsame & Hhead & Hnext & Hfinal).
  split; [by constructor|]. split; [by intros s0 [= <-]|]. split.
  - intros [|i] s0 s1; simpl.
    + intros [= <-] Hs1. rewrite <- head_lookup in Hs1.
      by rewrite (Hhead _ Hs1).
    + apply Hnext.
  - rewrite Hfinal. destruct rest as [|s0 rest]; [done|].
    change (last (MSection.setTop s result :: s0 :: rest))
      with (last (s0 :: rest)).
    destruct (last (s0 :: rest)) eqn:Hlast; [done|].
    by apply last_None in Hlast.
Qed.

(** X10.  The widget's [recountHeight] stacks the Sections: only their
    tops change, the first starts below the top padding, every next one
    where the one before it ends, and the height returned is the bottom
    of the last one plus the bottom padding. *)
Theorem recountHeight_stacks w :
  ListWidget._sections w ≠ [] ->
  let counted := ListWidget.recountHeight w in
  let sections := ListWidget._sections counted.1 in
  Forall2 (fun s s' => s' = MSection.setTop s (MSection._top s'))
    (ListWidget._sections w) sections
  ∧ (forall s, head sections = Some s ->
       MSection._top s = mtop ListWidget.padding)
  ∧ (forall i s s', sections !! i = Some s -> sections !! S i = Some s' ->
       MSection._top s' = MSection.bottom s)
  ∧ (forall s, last sections = Some s ->
       counted.2 = MSection.bottom s + mbottom ListWidget.padding).
Proof.
  intros Hne. simpl. unfold ListWidget.recountHeight.
  destruct (ListWidget._sections w) as [|s0 rest] eqn:Es; [done|].
  rewrite <- Es.
  pose proof (placeSections_stacks (ListWidget._sections w)
                (mtop ListWidget.padding)) as Hplaced.
  destruct (ListWidget.placeSections _ _) as [sections result].
  simpl in *. destruct Hplaced as (Hsame & Hhead & Hnext & Hfinal).
  split; [done|]. split; [done|]. split; [done|].
  intros s Hlast. by rewrite Hfinal, Hlast.
Qed.

Lemma stacked_below (sections : list MSection.t) i j s s' :
  stacked sections -> (i < j)%nat ->
  sections !! i = Some s -> sections !! j = Some s' ->
  MSection.bottom s <= MSection._top s'.
Proof.
  intros [Hnext Hheight] Hij Hi. revert s'.
  induction j as [|j IH]; intros s' Hj; [lia|].
  destruct (decide (i = j)) as [->|Hne].
  - rewrite (Hnext j s s' Hi Hj). lia.
  - destruct (lookup_lt_is_Some_2 sections j) as [s1 Hs1].
    { apply lookup_lt_Some in Hj. lia. }
    specialize (IH ltac:(lia) s1 Hs1).
    rewrite (Hnext j s1 s' Hs1 Hj).
    pose proof (Hheight s1 (list_elem_of_lookup_2 _ _ _ Hs1)).
    unfold MSection.bottom in *. lia.
Qed.

(** X11.  Over stacked Sections the hit test of the widget goes to the
    Section whose span holds the point: it asks that Section with the
    point taken relative to its top, and moves the rectangle found back
    by the top. *)
Theorem findItemByPoint_in_section w point k s :
  stacked (ListWidget._sections w) ->
  ListWidget._sections w !! k = Some s ->
  MSection._top s <= py point < MSection.bottom s ->
  ListWidget.findItemByPoint w point
  = (fun item => ListWidget.foundItemInSection item s)
      <$> MSection.findItemByPoint s
            (point_sub point (mkPoint 0 (MSection._top s))).
Proof.
  intros Hstacked Hk Hspan.
  pose proof (lookup_lt_Some _ _ _ Hk) as Hlen.
  assert (forall i j x y, (i <= j)%nat ->
            ListWidget._sections w !! i = Some x ->
            ListWidget._sections w !! j = Some y ->
            MSection.bottom x <= MSection.bottom y) as Hmono.
  { intros i j x y Hij Hx Hy.
    destruct (decide (i = j)) as [->|Hne]; [by (assert (x = y) by congruence;
                                                subst)|].
    pose proof (stacked_below _ i j x y Hstacked ltac:(lia) Hx Hy).
    pose proof (proj2 Hstacked y (list_elem_of_lookup_2 _ _ _ Hy)).
    unfold MSection.bottom in *. lia. }
  assert (ListWidget.findSectionAfterTop w (py point) = k) as Hafter.
  { unfold ListWidget.findSectionAfterTop. apply lower_bound_unique.
    - intros i j x y Hij Hx Hy Hpred.
      pose proof (Hmono i j x y Hij Hx Hy). lia.
    - lia.
    - intros i x Hi Hx.
      pose proof (stacked_below _ i k x s Hstacked Hi Hx Hk). lia.
    - intros i x Hi Hx. pose proof (Hmono k i s x Hi Hk Hx). lia. }
  unfold ListWidget.findItemByPoint.
  rewrite option_guard_True by (by intros Hnil; rewrite Hnil in Hk).
  cbn [mbind option_bind]. rewrite Hafter, clampToLast_id by lia.
  rewrite Hk. cbn [mbind option_bind].
  by destruct (MSection.findItemByPoint s _).
Qed.

End widget_lookup.

Lemma findItemById_finds_shown_witness :
  ListWidget.findItemById (sty := demoStyle) demoRows 999 = Some None.
Proof.
  assert (rowsWellFormed demoRows) as Hrows.
  { split.
    - intros s ->%list_elem_of_singleton. split; [by vm_compute|].
      split; [vm_compute; by repeat split|].
      intros e He. vm_compute in He.
      repeat (apply elem_of_cons in He as [->|He]; [done|]).
      by apply elem_of_nil in He.
    - intros i j s s' e e' Hij Hi Hj. destruct j; [lia|done]. }
  destruct (findItemById_finds_shown (sty := demoStyle) demoRows 999 Hrows)
    as [_ Hnone].
  apply Hnone. intros s ->%list_elem_of_singleton Hk. vm_compute in Hk.
  repeat (apply elem_of_cons in Hk as [Hk|Hk]; [done|]).
  by apply elem_of_nil in Hk.
Defined.

Lemma recountHeight_stacks_witness :
  exists s,
    last (ListWidget._sections
            (ListWidget.recountHeight (sty := demoStyle) demoRows).1) = Some s
    ∧ (ListWidget.recountHeight (sty := demoStyle) demoRows).2
      = MSection.bottom s + mbottom (ListWidget.padding (sty := demoStyle)).
Proof.
  destruct (recountHeight_stacks (sty := demoStyle) demoRows)
    as (_ & _ & _ & Hlast); [done|].
  assert (exists s,
            last (ListWidget._sections
                    (ListWidget.recountHeight (sty := demoStyle) demoRows).1)
            = Some s) as [s Hs] by (eexists; vm_compute; reflexivity).
  exists s. split; [exact Hs|exact (Hlast s Hs)].
Defined.

Lemma findItemByPoint_in_section_witness :
  exists s,
    ListWidget._sections demoPlaced !! 0%nat = Some s
    ∧ ListWidget.findItemByPoint (sty := demoStyle) demoPlaced (mkPoint 110 40)
      = (fun item => ListWidget.foundItemInSection item s)
          <$> MSection.findItemByPoint (sty := demoStyle) s
                (point_sub (mkPoint 110 40) (mkPoint 0 (MSection._top s))).
Proof.
  assert (exists s,
            ListWidget._sections demoPlaced = [s]
            ∧ (MSection._top s <=? 40) && (40 <? MSection.bottom s) = true
            ∧ (0 <=? MSection._height s) = true) as (s & Hs & Hin & Hheight)
    by (eexists; repeat split; vm_compute; reflexivity).
  exists s. split; [by rewrite Hs|].
  apply (findItemByPoint_in_section (sty := demoStyle) demoPlaced
           (mkPoint 110 40) 0 s).
  - rewrite Hs. split.
    + intros i s1 s2 _ Hnext. by destruct i.
    + intros s1 ->%list_elem_of_singleton. lia.
  - by rewrite Hs.
  - simpl. lia.
Defined.

(** ** The selection maps *)

Section selection_maps.
Context {sty : Style} {host : Host}.

Implicit Types (w : ListWidget.t) (m : ListWidget.SelectedMap).

(** X12.  [mouseActionUpdate] never fails on rows without an empty
    Section when the id 0 names nothing; it leaves the Sections and the
    layout cache as they are and only adds effects; whatever it adds to
    the committed selection is a layout of the rows, whatever it adds to
    the drag selection a layout of the cache. *)
Theorem mouseActionUpdate_keeps_rows w screenPos :
  (forall s, s ∈ ListWidget._sections w -> MSection._items s ≠ []) ->
  (forall s e, s ∈ ListWidget._sections w -> e ∈ MSection._items s ->
     GetUniversalId_layout e.2 ≠ 0) ->
  ListWidget._layouts w !! 0 = None ->
  0 ∉ flat_map.keys (ListWidget._selected w) ->
  exists w', ListWidget.mouseActionUpdate w screenPos = Some w'
    ∧ sameRows w w'
    ∧ (forall k, k ∈ flat_map.keys (ListWidget._selected w') ->
         k ∈ flat_map.keys (ListWidget._selected w)
         ∨ exists s e, s ∈ ListWidget._sections w ∧ e ∈ MSection._items s
             ∧ GetUniversalId_layout e.2 = k)
    ∧ (forall k, k ∈ flat_map.keys (ListWidget._dragSelected w') ->
         k ∈ flat_map.keys (ListWidget._dragSelected w)
         ∨ is_Some (ListWidget._layouts w !! k)).
Proof. apply mouseActionUpdate_rows. Qed.

(** X13.  [updateDragSelection] never touches the committed selection,
    the Sections or the cache.  With a null press or over id it empties
    the drag selection; otherwise every id it leaves there lies in the
    dragged interval and is a cached layout or was drag-selected
    before. *)
Theorem updateDragSelection_covers w :
  ListWidget._layouts w !! 0 = None ->
  exists w', ListWidget.updateDragSelection w = Some w'
    ∧ ListWidget._selected w' = ListWidget._selected w
    ∧ ListWidget._sections w' = ListWidget._sections w
    ∧ ListWidget._layouts w' = ListWidget._layouts w
    ∧ (ListWidget.itemId (ListWidget._pressState w) = 0
       ∨ ListWidget.itemId (ListWidget._overState w) = 0 ->
       ListWidget._dragSelected w' = []
       ∧ ListWidget._dragSelectAction w' = ListWidget.DragNone)
    ∧ (forall k, k ∈ flat_map.keys (ListWidget._dragSelected w') ->
         dragCovers (ListWidget._pressState w) (ListWidget._overState w) k
         ∧ (k ∈ flat_map.keys (ListWidget._dragSelected w)
            ∨ is_Some (ListWidget._layouts w !! k))).
Proof.
  intros H0. unfold ListWidget.updateDragSelection, dragCovers.
  assert (ListWidget._dragSelected (ListWidget.clearDragSelection w) = []
          ∧ ListWidget._dragSelectAction (ListWidget.clearDragSelection w)
            = ListWidget.DragNone) as [Hcleared Haction].
  { unfold ListWidget.clearDragSelection.
    change (ListWidget._dragSelected
              (ListWidget.set_dragSelectAction ListWidget.DragNone w))
      with (ListWidget._dragSelected w).
    by destruct (ListWidget._dragSelected w) eqn:E. }
  destruct (clearDragSelection_rows w) as ((_ & _ & ? & ? & _) & ? & _).
  destruct (ListWidget.IsAfter _ _);
    (destruct (_ || _) eqn:Hnull;
     [ eexists; split; [done|]; do 3 (split; [done|]);
       split; [done|]; rewrite Hcleared; intros k Hk;
       by apply elem_of_nil in Hk
     | ]);
    (match goal with
     | |- context [ListWidget.dragSelectLayouts ?w ?f ?t ?l ?m] =>
         destruct (dragSelectLayouts_total w f t l m) as [m' Hm'];
           [ intros [k c] He%elem_of_layoutsInOrder; simpl; congruence
           | rewrite Hm';
             pose proof (fun k => dragSelectLayouts_from _ _ _ _ _ _ k Hm')
               as Hfrom;
             pose proof (fun k => dragSelectLayouts_keys _ _ _ _ _ _ k Hm')
               as Hin ]
     end);
    cbn [mbind option_bind];
    (destruct (_ && _ && _);
     (eexists; split; [done|]; do 3 (split; [done|]);
      split; [intros Hzero; exfalso; lia|];
      intros k Hk; split;
      [ destruct (Hin k Hk) as [Hkept|?]; [|done];
        apply filter_keys in Hkept as [v Hv]; simpl in Hv; lia
      | destruct (Hfrom k Hk) as [Hkept|Hlay];
        [ left; by eapply filter_keys_sub
        | right; apply list_elem_of_fmap in Hlay as ([k' c] & -> & He);
          apply elem_of_layoutsInOrder in He; by eexists ] ])).
Qed.

End selection_maps.

Lemma mouseActionUpdate_keeps_rows_witness :
  exists w',
    ListWidget.mouseActionUpdate (sty := demoStyle) (host := demoHost)
      demoRows (mkPoint 110 40) = Some w'
    ∧ ListWidget._sections w' = ListWidget._sections demoRows.
Proof.
  destruct (mouseActionUpdate_keeps_rows (sty := demoStyle)
              (host := demoHost) demoRows (mkPoint 110 40))
    as (w' & Hupdate & (_ & _ & Hsections & _) & _).
  - intros s ->%list_elem_of_singleton. by vm_compute.
  - intros s e ->%list_elem_of_singleton He. vm_compute in He.
    repeat (apply elem_of_cons in He as [->|He]; [by vm_compute|]).
    by apply elem_of_nil in He.
  - done.
  - intros Hk. vm_compute in Hk.
    apply elem_of_cons in Hk as [Hk|Hk]; [done|].
    by apply elem_of_nil in Hk.
  - exists w'. split; [exact Hupdate|exact Hsections].
Defined.

Lemma updateDragSelection_covers_witness :
  exists w',
    ListWidget.updateDragSelection (host := demoHost)
      (withCursors (demoCursorIn 1) (demoCursorIn 3)
         (demoWidget Photo demoLayouts [] [])) = Some w'
    ∧ ListWidget._selected w' = [].
Proof.
  destruct (updateDragSelection_covers (host := demoHost)
              (withCursors (demoCursorIn 1) (demoCursorIn 3)
                 (demoWidget Photo demoLayouts [] [])))
    as (w' & Hupdate & Hselected & _); [by vm_compute|].
  exists w'. split; [exact Hupdate|exact Hselected].
Defined.

(** ** Committing a selection *)

Section selection_commit.
Context {sty : Style} {host : Host}.

Implicit Types (w : ListWidget.t) (m : ListWidget.SelectedMap).

Lemma fm_erase_assign {V} cmp k (v : V) (l : list (Z * V)) :
  flat_map.erase cmp k (flat_map.assign cmp k v l) = flat_map.erase cmp k l.
Proof.
  induction l as [|[k' v'] l IH]; [done|]. simpl.
  destruct (cmp k' k) eqn:E1; simpl; rewrite ?E1; [by rewrite IH|].
  destruct (cmp k k') eqn:E2; simpl; by rewrite ?E1, ?E2.
Qed.

Lemma changeItemSelection_keeps w m universalId selection m' changed k :
  ListWidget.changeItemSelection w m universalId selection
  = Some (m', changed) ->
  k ∈ flat_map.keys m -> k ∈ flat_map.keys m'.
Proof.
  destruct (flat_map.find Z.ltb universalId m) as [data|] eqn:Hf.
  - rewrite (changeItemSelection_existing _ _ _ _ _ Hf).
    case_bool_decide; intros [= <- <-]; [|done]. by rewrite fm_keys_assign.
  - destruct (decide (Z.of_nat (length m) < MaxSelectedItems)) as [Hcap|Hcap].
    + rewrite changeItemSelection_fresh by done.
      destruct (ListWidget.computeFullId w universalId); simpl; [|done].
      destruct (histItemById f); intros [= <- <-]; [|done].
      rewrite fm_keys_assign. intros [v Hv]%keys_elem.
      apply keys_elem. exists v. by apply fm_elem_emplace_old.
    + rewrite changeItemSelection_absent_capped by done. by intros [= <- <-].
Qed.

Lemma selectAll_commits w (dragSelected : ListWidget.SelectedMap) m :
  0 ∉ flat_map.keys dragSelected ->
  exists m', ListWidget.selectAll w dragSelected m = Some m'
    ∧ (forall k, k ∈ flat_map.keys m -> k ∈ flat_map.keys m')
    ∧ (forall k, k ∈ flat_map.keys m' ->
         k ∈ flat_map.keys m ∨ k ∈ flat_map.keys dragSelected)
    ∧ (Z.of_nat (length m) <= MaxSelectedItems ->
       Z.of_nat (length m') <= MaxSelectedItems).
Proof.
  revert m. induction dragSelected as [|[u d] l IH]; intros m Hzero.
  - exists m. split; [done|]. split; [done|]. split; [by left|done].
  - apply not_elem_of_cons in Hzero as [Hu Hzero]. simpl in Hu.
    cbn [ListWidget.selectAll].
    destruct (changeItemSelection_total w m u FullSelection ltac:(lia))
      as [[m1 changed] Hc].
    rewrite Hc. cbn [mbind option_bind].
    destruct (IH m1 Hzero) as (m' & -> & Hkeep & Hfrom & Hcap).
    exists m'. split; [done|]. split; [|split].
    + intros k Hk. by eapply Hkeep, changeItemSelection_keeps.
    + intros k [Hk|Hk]%Hfrom; [|right; by right].
      destruct (changeItemSelection_keys _ _ _ _ _ _ _ Hc Hk) as [?| ->];
        [by left|right; left].
    + intros Hm. apply Hcap.
      apply changeItemSelection_length in Hc. lia.
Qed.

Lemma eraseAll_keys (dragSelected : ListWidget.SelectedMap) m k :
  flat_map.sorted Z.ltb m ->
  let m' :=
    foldl (fun applyTo i => flat_map.erase Z.ltb i.1 applyTo) m dragSelected in
  flat_map.sorted Z.ltb m'
  ∧ (k ∈ flat_map.keys m'
     <-> k ∈ flat_map.keys m ∧ k ∉ flat_map.keys dragSelected).
Proof.
  revert m. induction dragSelected as [|[u d] l IH]; intros m Hs; simpl.
  - split; [done|]. split; [intros Hk; split; [done|apply not_elem_of_nil]|].
    by intros [? _].
  - destruct (IH (flat_map.erase Z.ltb u m)) as [Hsorted Hkeys].
    { apply fm_sorted_erase; eauto using ltb_trans. }
    split; [done|]. rewrite Hkeys.
    rewrite (fm_keys_erase Z.ltb ltb_irrefl ltb_total ltb_trans) by done.
    rewrite list_elem_of_In, filter_In, <- list_elem_of_In.
    change (flat_map.keys ((u, d) :: l)) with (u :: flat_map.keys l).
    rewrite not_elem_of_cons. split.
    + intros [[? ?] ?]. split; [done|]. split; [lia|done].
    + intros [? [? ?]]. split; [|done]. split; [done|lia].
Qed.

(** X14.  Releasing a drag selection: [applyDragSelection] empties the
    drag selection, sends the snapshot of the committed selection it
    leaves (one entry for each id, in order, with its message id and
    permissions: [snapshotOf]), and while deselecting takes exactly the dragged ids out of
    the committed selection; while selecting it keeps every committed id,
    adds dragged ids only, and stays within [MaxSelectedItems]. *)
Theorem applyDragSelection_commits w :
  0 ∉ flat_map.keys (ListWidget._selected w) ->
  0 ∉ flat_map.keys (ListWidget._dragSelected w) ->
  flat_map.sorted Z.ltb (ListWidget._selected w) ->
  exists w' items older,
    ListWidget.applyDragSelection w = Some w'
    ∧ ListWidget._dragSelected w' = []
    ∧ ListWidget._dragSelectAction w' = ListWidget.DragNone
    ∧ ListWidget.log w'
      = ListWidget.SelectedListFired items :: older ++ ListWidget.log w
    ∧ ListWidget.collectSelectedItems w' = Some items
    ∧ snapshotOf w' (ListWidget._selected w') items
    ∧ match ListWidget._dragSelectAction w with
      | ListWidget.DragNone =>
          ListWidget._selected w' = ListWidget._selected w
      | ListWidget.DragDeselecting =>
          forall k, k ∈ flat_map.keys (ListWidget._selected w')
            <-> k ∈ flat_map.keys (ListWidget._selected w)
                ∧ k ∉ flat_map.keys (ListWidget._dragSelected w)
      | ListWidget.DragSelecting =>
          (forall k, k ∈ flat_map.keys (ListWidget._selected w) ->
             k ∈ flat_map.keys (ListWidget._selected w'))
          ∧ (forall k, k ∈ flat_map.keys (ListWidget._selected w') ->
               k ∈ flat_map.keys (ListWidget._selected w)
               ∨ k ∈ flat_map.keys (ListWidget._dragSelected w))
          ∧ (Z.of_nat (length (ListWidget._selected w)) <= MaxSelectedItems ->
             Z.of_nat (length (ListWidget._selected w')) <= MaxSelectedItems)
      end.
Proof.
  intros Hzero Hdzero Hsorted.
  assert (forall selected,
            0 ∉ flat_map.keys selected ->
            exists w' items older,
              ListWidget.pushSelectedItems
                (ListWidget.clearDragSelection
                   (ListWidget.set_selected selected w)) = Some w'
              ∧ ListWidget._dragSelected w' = []
              ∧ ListWidget._dragSelectAction w' = ListWidget.DragNone
              ∧ ListWidget.log w'
                = ListWidget.SelectedListFired items
                    :: older ++ ListWidget.log w
              ∧ ListWidget.collectSelectedItems w' = Some items
              ∧ snapshotOf w' (ListWidget._selected w') items
              ∧ ListWidget._selected w' = selected) as Hpush.
  { intros selected Hsel. unfold ListWidget.pushSelectedItems.
    set (w1 := ListWidget.clearDragSelection _).
    assert (ListWidget._selected w1 = selected
            ∧ ListWidget._dragSelected w1 = []
            ∧ ListWidget._dragSelectAction w1 = ListWidget.DragNone
            ∧ exists older, ListWidget.log w1 = older ++ ListWidget.log w)
      as (Hs1 & Hd1 & Ha1 & older & Hl1).
    { subst w1. unfold ListWidget.clearDragSelection.
      change (ListWidget._dragSelected
                (ListWidget.set_dragSelectAction ListWidget.DragNone
                   (ListWidget.set_selected selected w)))
        with (ListWidget._dragSelected w).
      destruct (ListWidget._dragSelected w) eqn:E; simpl; rewrite ?E;
        (do 3 (split; [done|])); [by exists []|by eexists [_]]. }
    destruct (collectSelectedItems_is_Some w1) as [items Hitems];
      [by rewrite Hs1|].
    rewrite Hitems. cbn [mbind option_bind].
    exists (ListWidget.emit (ListWidget.SelectedListFired items) w1), items,
      older.
    split; [done|]. split; [done|]. split; [done|].
    assert (ListWidget.collectSelectedItems
              (ListWidget.emit (ListWidget.SelectedListFired items) w1)
            = Some items) as Hsent
      by (rewrite <- Hitems; by apply collectSelectedItems_ext).
    split; [simpl; by rewrite Hl1|]. split; [done|]. split; [|done].
    by apply collectSelectedItems_snapshot. }
  unfold ListWidget.applyDragSelection, ListWidget.applyDragSelectionTo.
  destruct (ListWidget._dragSelectAction w).
  - cbn [mbind option_bind].
    destruct (Hpush _ Hzero)
      as (w' & items & older & ? & ? & ? & ? & ? & ? & ?).
    by exists w', items, older.
  - destruct (selectAll_commits w (ListWidget._dragSelected w)
                (ListWidget._selected w) Hdzero)
      as (m' & -> & Hkeep & Hfrom & Hcap).
    cbn [mbind option_bind].
    destruct (Hpush m')
      as (w' & items & older & ? & ? & ? & ? & ? & Hsnap & Hsel').
    { intros [?|?]%Hfrom; done. }
    exists w', items, older. rewrite Hsel' in Hsnap |- *.
    by repeat (split; [done|]).
  - cbn [mbind option_bind].
    set (m' := foldl _ _ _).
    pose proof (fun k => eraseAll_keys (ListWidget._dragSelected w)
                           (ListWidget._selected w) k Hsorted) as Herased.
    simpl in Herased. fold m' in Herased.
    destruct (Hpush m')
      as (w' & items & older & ? & ? & ? & ? & ? & Hsnap & Hsel').
    { intros Hk. apply (Herased 0) in Hk as [? _]. done. }
    exists w', items, older. rewrite Hsel' in Hsnap |- *.
    repeat (split; [done|]). intros k. apply (Herased k).
Qed.

(** X15.  Toggling twice: for an id that is not selected, names a
    message of the store and fits under the cap, the first
    [toggleItemSelection] selects it in full with the message's
    permissions, and the second gives back the committed selection as it
    was. *)
Theorem toggleItemSelection_twice w (universalId : Z) fullId item :
  (forall s, s ∈ ListWidget._sections w -> MSection._items s ≠ []) ->
  0 ∉ flat_map.keys (ListWidget._selected w) ->
  flat_map.find Z.ltb universalId (ListWidget._selected w) = None ->
  Z.of_nat (length (ListWidget._selected w)) < MaxSelectedItems ->
  ListWidget.computeFullId w universalId = Some fullId ->
  histItemById fullId = Some item ->
  exists w1 w2,
    ListWidget.toggleItemSelection w universalId = Some w1
    ∧ flat_map.find Z.ltb universalId (ListWidget._selected w1)
      = Some (ListWidget.mkSelData FullSelection (canDelete item)
                (canForward item))
    ∧ ListWidget.toggleItemSelection w1 universalId = Some w2
    ∧ ListWidget._selected w2 = ListWidget._selected w.
Proof.
  intros Hne Hzero Habsent Hcap Hid Hitem.
  assert (universalId ≠ 0) as Hnz.
  { intros ->. unfold ListWidget.computeFullId in Hid.
    by rewrite option_guard_False in Hid by (intros ?; done). }
  set (data := ListWidget.mkSelData FullSelection (canDelete item)
                 (canForward item)).
  set (m1 := flat_map.assign Z.ltb universalId data
               (flat_map.emplace Z.ltb universalId
                  (ListWidget.mkSelData FullSelection false false)
                  (ListWidget._selected w)).1).
  assert (ListWidget.changeItemSelection w (ListWidget._selected w)
            universalId FullSelection = Some (m1, true)) as Hchange.
  { rewrite changeItemSelection_fresh by done. rewrite Hid. simpl.
    by rewrite Hitem. }
  assert (flat_map.find Z.ltb universalId m1 = Some data) as Hfound.
  { apply fm_find_assign. rewrite fm_find_emplace by apply ltb_irrefl.
    by eexists. }
  assert (flat_map.erase Z.ltb universalId m1 = ListWidget._selected w)
    as Herase.
  { unfold m1. rewrite fm_erase_assign.
    apply fm_erase_emplace; [apply ltb_irrefl|done]. }
  destruct (applyItemSelection_rows w universalId FullSelection Hne Hnz Hzero)
    as (w1 & Happly & (_ & _ & Hsec1 & _) & _ & Hkeys1).
  pose proof Happly as [changed Hsel1]%applyItemSelection_selected.
  rewrite Hchange in Hsel1. injection Hsel1 as Hsel1 _.
  unfold ListWidget.toggleItemSelection at 1. rewrite Habsent.
  exists w1. 
  destruct (removeItemSelection_rows w1 universalId)
    as (w2 & items & Hremove & _ & Hsel2 & _).
  { rewrite <- Hsel1, Hfound. by eexists. }
  { intros [Hk|Hk]%Hkeys1; [done|congruence]. }
  exists w2. split; [done|]. split; [by rewrite <- Hsel1|].
  unfold ListWidget.toggleItemSelection. rewrite <- Hsel1, Hfound.
  split; [done|]. by rewrite Hsel2, <- Hsel1.
Qed.

(** X16.  [clearSelected] always ends with nothing selected and leaves
    the rows, the cache and the drag selection alone; when items were
    selected it sends the snapshot of the empty selection. *)
Theorem clearSelected_clears w :
  (forall s, s ∈ ListWidget._sections w -> MSection._items s ≠ []) ->
  exists w', ListWidget.clearSelected w = Some w'
    ∧ ListWidget._selected w' = []
    ∧ sameRows w w'
    ∧ ListWidget._dragSelected w' = ListWidget._dragSelected w
    ∧ (ListWidget.hasSelectedItems w = true ->
       exists older,
         ListWidget.log w'
         = older
           ++ ListWidget.SelectedListFired
                (ListWidget.mkSelectedItems (ListWidget._type w) [])
              :: ListWidget.log w).
Proof.
  intros Hne. unfold ListWidget.clearSelected.
  destruct (ListWidget._selected w) as [|first rest] eqn:Hsel.
  - exists w. split; [done|]. split; [done|]. split; [apply sameRows_refl|].
    split; [done|]. unfold ListWidget.hasSelectedItems. by rewrite Hsel.
  - unfold ListWidget.hasSelectedText, ListWidget.hasSelected. rewrite Hsel.
    destruct (ListWidget.hasSelectedItems w) eqn:Hitems; simpl.
    + eexists. split; [done|]. split; [done|].
      split; [repeat split; by eexists [_; _]|]. split; [done|].
      intros _. by eexists [_].
    + destruct (repaintItem_total w first.1 Hne) as [w1 Hw1].
      rewrite Hw1. cbn [mbind option_bind]. eexists. split; [done|].
      split; [done|].
      apply repaintItem_rows in Hw1 as [->|[r ->]];
        (split; [repeat split; first [by exists []|by eexists [_]]|]);
        by split.
Qed.

End selection_commit.

Lemma applyDragSelection_commits_witness :
  exists w' older,
    ListWidget.applyDragSelection (host := demoHost) demoDragging = Some w'
    ∧ ListWidget._dragSelected w' = []
    ∧ ListWidget.log w'
      = ListWidget.SelectedListFired
          (ListWidget.mkSelectedItems Photo
             [ListWidget.mkSelectedItem (mkFullMsgId 7 104) true true;
              ListWidget.mkSelectedItem (mkFullMsgId 7 105) true true])
        :: older.
Proof.
  assert (0 ∉ flat_map.keys (ListWidget._selected demoDragging)) as Hzero.
  { intros Hk. vm_compute in Hk.
    apply elem_of_cons in Hk as [Hk|Hk]; [done|].
    by apply elem_of_nil in Hk. }
  assert (0 ∉ flat_map.keys (ListWidget._dragSelected demoDragging))
    as Hdzero.
  { intros Hk. vm_compute in Hk.
    apply elem_of_cons in Hk as [Hk|Hk]; [done|].
    by apply elem_of_nil in Hk. }
  assert (flat_map.sorted Z.ltb (ListWidget._selected demoDragging))
    as Hsorted by (by vm_compute).
  assert (exists w0,
            ListWidget.applyDragSelection (host := demoHost) demoDragging
            = Some w0
            ∧ ListWidget._selected w0 = [(104, demoFull); (105, demoFull)]
            ∧ ListWidget._type w0 = Photo
            ∧ ListWidget._peer w0 = mkPeer 7 true 7)
    as (w0 & Hw0 & Hselected & Htype0 & Hpeer0)
    by (eexists; repeat split; vm_compute; reflexivity).
  destruct (applyDragSelection_commits (host := demoHost)
              demoDragging Hzero Hdzero Hsorted)
    as (w' & items & older & Happly & Hempty & _ & Hlog & _ & Hsnapshot & _).
  rewrite Hw0 in Happly. injection Happly as <-.
  rewrite Hselected in Hsnapshot. destruct Hsnapshot as [Htype Hlist].
  change (Forall2
            (fun (entry : UniversalMsgId * ListWidget.SelectionData) item =>
               ListWidget.computeFullId w0 entry.1
               = Some (ListWidget.msgId item)
               ∧ ListWidget.si_canDelete item
                 = ListWidget.sd_canDelete entry.2
               ∧ ListWidget.si_canForward item
                 = ListWidget.sd_canForward entry.2)
            [(104, demoFull); (105, demoFull)] (ListWidget.si_list items))
    in Hlist.
  unfold ListWidget.computeFullId in Hlist.
  rewrite Htype0 in Htype. rewrite Hpeer0 in Hlist.
  destruct items as [type list]. simpl in Htype, Hlist. subst type.
  inversion Hlist as [|entry [fullId del fwd] rest list' (Hid & Hdel & Hfwd)
                         Hrest]; subst.
  inversion Hrest as [|entry [fullId' del' fwd'] rest' list''
                         (Hid' & Hdel' & Hfwd') Hrest']; subst.
  inversion Hrest'; subst. simpl in Hid, Hdel, Hfwd, Hid', Hdel', Hfwd'.
  injection Hid as <-. injection Hid' as <-. subst del fwd del' fwd'.
  exists w0, (older ++ ListWidget.log demoDragging).
  split; [exact Hw0|]. split; [exact Hempty|exact Hlog].
Defined.

Lemma toggleItemSelection_twice_witness :
  exists w1 w2,
    ListWidget.toggleItemSelection (sty := demoStyle) (host := demoHost)
      demoRows 105 = Some w1
    ∧ ListWidget.toggleItemSelection (sty := demoStyle) (host := demoHost)
        w1 105 = Some w2
    ∧ ListWidget._selected w2 = ListWidget._selected demoRows.
Proof.
  assert (forall s, s ∈ ListWidget._sections demoRows ->
            MSection._items s ≠ []) as Hrows
    by (intros s ->%list_elem_of_singleton; by vm_compute).
  assert (0 ∉ flat_map.keys (ListWidget._selected demoRows)) as Hzero.
  { intros Hk. vm_compute in Hk.
    apply elem_of_cons in Hk as [Hk|Hk]; [done|].
    by apply elem_of_nil in Hk. }
  destruct (toggleItemSelection_twice (sty := demoStyle) (host := demoHost)
              demoRows 105 (mkFullMsgId 7 105) (demoItem MediaPhoto 105)
              Hrows Hzero)
    as (w1 & w2 & Hfirst & _ & Hsecond & Hsame);
    [reflexivity|by vm_compute|reflexivity|reflexivity|].
  exists w1, w2. split; [exact Hfirst|]. split; [exact Hsecond|exact Hsame].
Defined.

Lemma clearSelected_clears_witness :
  exists w',
    ListWidget.clearSelected (sty := demoStyle) demoRows
    = Some w'
    ∧ ListWidget._selected w' = [].
Proof.
  assert (forall s, s ∈ ListWidget._sections demoRows ->
            MSection._items s ≠ []) as Hrows
    by (intros s ->%list_elem_of_singleton; by vm_compute).
  destruct (clearSelected_clears (sty := demoStyle)
              demoRows Hrows) as (w' & Hclear & Hempty & _).
  exists w'. split; [exact Hclear|exact Hempty].
Defined.

(** ** The direction of a drag *)

Section drag_direction.
Context {sty : Style} {host : Host}.

Implicit Types (w : ListWidget.t) (m : ListWidget.SelectedMap).

Lemma selectAll_keeps w (dragSelected : ListWidget.SelectedMap) m m' k :
  ListWidget.selectAll w dragSelected m = Some m' ->
  k ∈ flat_map.keys m -> k ∈ flat_map.keys m'.
Proof.
  revert m. induction dragSelected as [|[u d] l IH]; intros m; simpl.
  - by intros [= <-].
  - destruct (ListWidget.changeItemSelection w m u FullSelection)
      as [[m1 changed]|] eqn:Hc; [|done].
    cbn [mbind option_bind]. intros Hrest Hk.
    eapply IH; [exact Hrest|]. by eapply changeItemSelection_keeps.
Qed.

Lemma clearDragSelection_cleared w :
  ListWidget._dragSelected (ListWidget.clearDragSelection w) = []
  ∧ ListWidget._selected (ListWidget.clearDragSelection w)
    = ListWidget._selected w.
Proof.
  unfold ListWidget.clearDragSelection.
  change (ListWidget._dragSelected
            (ListWidget.set_dragSelectAction ListWidget.DragNone w))
    with (ListWidget._dragSelected w).
  by destruct (ListWidget._dragSelected w) eqn:E.
Qed.

(** What [updateDragSelection] settles for the press state [P] and the
    over state [Q] when it leaves a drag selection: the committed
    selection stays, and the action is read off the first entry when the
    states were swapped, off the last one otherwise. *)
Lemma updateDragSelection_action w P Q w1 first final :
  ListWidget.updateDragSelection (withCursors P Q w) = Some w1 ->
  head (ListWidget._dragSelected w1) = Some first ->
  last (ListWidget._dragSelected w1) = Some final ->
  ListWidget._selected w1 = ListWidget._selected w
  ∧ ListWidget._dragSelectAction w1
    = if committed w (if ListWidget.IsAfter P Q then first.1 else final.1)
      then ListWidget.DragDeselecting else ListWidget.DragSelecting.
Proof.
  unfold ListWidget.updateDragSelection, committed.
  change (ListWidget._pressState (withCursors P Q w)) with P.
  change (ListWidget._overState (withCursors P Q w)) with Q.
  destruct (ListWidget.IsAfter P Q).
  all: destruct (_ || _);
    [ intros [= <-];
      by rewrite (proj1 (clearDragSelection_cleared (withCursors P Q w)))
    | ].
  all: destruct (ListWidget.dragSelectLayouts _ _ _ _ _) as [dragSelected|];
         [|done].
  all: cbn [mbind option_bind]; intros [= <-].
  all: change (ListWidget._selected (withCursors P Q w))
         with (ListWidget._selected w).
  all: destruct (_ && _ && _); simpl; intros Hfirst Hfinal;
         rewrite ?Hfirst, ?Hfinal; by destruct first, final.
Qed.

Lemma updateDragSelection_same_drag w A B wa wb :
  ListWidget.IsAfter A B ≠ ListWidget.IsAfter B A ->
  ListWidget.updateDragSelection (withCursors A B w) = Some wa ->
  ListWidget.updateDragSelection (withCursors B A w) = Some wb ->
  ListWidget._dragSelected wb = ListWidget._dragSelected wa.
Proof.
  intros Hstrict. unfold ListWidget.updateDragSelection.
  change (ListWidget._pressState (withCursors B A w)) with B.
  change (ListWidget._overState (withCursors B A w)) with A.
  change (ListWidget._pressState (withCursors A B w)) with A.
  change (ListWidget._overState (withCursors A B w)) with B.
  destruct (ListWidget.IsAfter A B), (ListWidget.IsAfter B A); try done.
  all: rewrite !dragSelectLayouts_withCursors.
  all: change (ListWidget.layoutsInOrder (withCursors B A w))
         with (ListWidget.layoutsInOrder w).
  all: change (ListWidget.layoutsInOrder (withCursors A B w))
         with (ListWidget.layoutsInOrder w).
  all: change (ListWidget._dragSelected (withCursors B A w))
         with (ListWidget._dragSelected w).
  all: change (ListWidget._dragSelected (withCursors A B w))
         with (ListWidget._dragSelected w).
  all: destruct (_ || _);
    [ intros [= <-] [= <-];
      by rewrite !(proj1 (clearDragSelection_cleared _))
    | ].
  all: destruct (ListWidget.dragSelectLayouts _ _ _ _ _) as [dragSelected|];
         [|done].
  all: cbn [mbind option_bind]; intros [= <-] [= <-].
  all: by repeat (destruct (_ && _ && _)).
Qed.

Lemma finishSelecting_dragged w w' :
  ListWidget._dragSelected w ≠ [] ->
  ListWidget.finishSelecting w = Some w' ->
  ListWidget.applyDragSelectionTo w (ListWidget._selected w)
  = Some (ListWidget._selected w').
Proof.
  unfold ListWidget.finishSelecting, ListWidget.applyDragSelection.
  destruct (ListWidget._dragSelected w) eqn:Hdrag; [done|]. intros _.
  destruct (ListWidget.applyDragSelectionTo w _) as [selected|]; [|done].
  cbn [mbind option_bind].
  intros (items & _ & ->)%pushSelectedItems_inv.
  change (ListWidget._selected (ListWidget.emit _ ?x))
    with (ListWidget._selected x).
  by rewrite (proj2 (clearDragSelection_cleared _)).
Qed.

(** The condition on the two ends of the drag selection is the one that
    matters: when its first and its last entry differ in their committed
    status, the two directions settle on different actions, and the
    committed selections they leave differ in the end that was
    selected. *)
Lemma drag_selection_ends_decide w A B w1 first final wa wb :
  ListWidget.IsAfter A B ≠ ListWidget.IsAfter B A ->
  flat_map.sorted Z.ltb (ListWidget._selected w) ->
  ListWidget.updateDragSelection (withCursors A B w) = Some w1 ->
  head (ListWidget._dragSelected w1) = Some first ->
  last (ListWidget._dragSelected w1) = Some final ->
  committed w first.1 ≠ committed w final.1 ->
  dragSelectAndRelease w A B = Some wa ->
  dragSelectAndRelease w B A = Some wb ->
  ListWidget._selected wa ≠ ListWidget._selected wb.
Proof.
  intros Hstrict Hsorted Hw1 Hfirst Hfinal Hdiffer.
  unfold dragSelectAndRelease. rewrite Hw1. cbn [mbind option_bind].
  destruct (ListWidget.updateDragSelection (withCursors B A w)) as [w2|]
    eqn:Hw2; [|done].
  cbn [mbind option_bind]. intros Ha Hb.
  pose proof (updateDragSelection_same_drag w A B w1 w2 Hstrict Hw1 Hw2)
    as Hsame.
  destruct (updateDragSelection_action w A B w1 first final Hw1 Hfirst Hfinal)
    as [Hsel1 Hact1].
  destruct (updateDragSelection_action w B A w2 first final Hw2)
    as [Hsel2 Hact2]; [by rewrite Hsame..|].
  assert (ListWidget._dragSelected w1 ≠ []) as Hne1
    by (intros Hnil; by rewrite Hnil in Hfirst).
  assert (ListWidget._dragSelected w2 ≠ []) as Hne2 by by rewrite Hsame.
  apply (finishSelecting_dragged _ _ Hne1) in Ha.
  apply (finishSelecting_dragged _ _ Hne2) in Hb.
  unfold ListWidget.applyDragSelectionTo in Ha, Hb.
  rewrite Hsel1, Hact1 in Ha. rewrite Hsel2, Hact2, Hsame in Hb.
  assert (forall k selecting deselecting,
            committed w k = true ->
            k ∈ flat_map.keys (ListWidget._dragSelected w1) ->
            ListWidget.selectAll w1 (ListWidget._dragSelected w1)
              (ListWidget._selected w) = Some selecting
            ∨ ListWidget.selectAll w2 (ListWidget._dragSelected w1)
                (ListWidget._selected w) = Some selecting ->
            Some (foldl (fun applyTo i => flat_map.erase Z.ltb i.1 applyTo)
                    (ListWidget._selected w) (ListWidget._dragSelected w1))
            = Some deselecting ->
            selecting ≠ deselecting) as Hsplit.
  { intros k selecting deselecting Hk Hdragged Hselect [= <-] Heq.
    assert (k ∈ flat_map.keys (ListWidget._selected w)) as Hin.
    { unfold committed in Hk.
      destruct (flat_map.find Z.ltb k (ListWidget._selected w)) as [data|]
        eqn:Hfind; [|done].
      apply keys_elem. exists data.
      apply (fm_find_key Z.ltb); eauto using ltb_irrefl, ltb_total, ltb_trans. }
    assert (k ∈ flat_map.keys selecting) as Hkept
      by (destruct Hselect; by eapply selectAll_keeps).
    rewrite Heq in Hkept.
    apply (eraseAll_keys (ListWidget._dragSelected w1)
             (ListWidget._selected w) k Hsorted) in Hkept as [_ Hout].
    done. }
  assert (first.1 ∈ flat_map.keys (ListWidget._dragSelected w1)) as Hinfirst.
  { apply keys_elem. exists first.2. apply head_elem.
    by destruct first. }
  assert (final.1 ∈ flat_map.keys (ListWidget._dragSelected w1)) as Hinfinal.
  { apply keys_elem. exists final.2. apply last_elem.
    by destruct final. }
  destruct (ListWidget.IsAfter A B), (ListWidget.IsAfter B A); try done;
    destruct (committed w first.1) eqn:Hc1,
      (committed w final.1) eqn:Hc2; try done.
  - intros Heq. symmetry in Heq. revert Heq.
    eapply (Hsplit first.1); [done|done|by right|done].
  - eapply (Hsplit final.1); [done|done|by left|done].
  - eapply (Hsplit first.1); [done|done|by left|done].
  - intros Heq. symmetry in Heq. revert Heq.
    eapply (Hsplit final.1); [done|done|by right|done].
Qed.

End drag_direction.

(** With item 2 selected and items 1 and 3 not, the two ends of a drag
    over 1..3 agree: both directions select all three. *)
Lemma drag_selection_over_selected_item :
  let w := demoWidget Photo demoLayouts [] [(2, demoFull)] in
  ListWidget._selected <$>
    dragSelectAndRelease (sty := demoStyle) (host := demoHost) w
      (demoCursorIn 1) (demoCursorIn 3)
  = Some [(1, demoFull); (2, demoFull); (3, demoFull)]
  ∧ ListWidget._selected <$>
      dragSelectAndRelease (sty := demoStyle) (host := demoHost) w
        (demoCursorIn 3) (demoCursorIn 1)
    = Some [(1, demoFull); (2, demoFull); (3, demoFull)].
Proof. split; by vm_compute. Qed.

(** ** The layout cache *)

Section layout_cache.
Context {sty : Style} {host : Host}.

Implicit Types (w : ListWidget.t).

Lemma set_layouts_same w :
  ListWidget.set_layouts (ListWidget._layouts w) w = w.
Proof. by destruct w. Qed.

(** X17.  [getLayout] answers from the cache when the id is cached and
    otherwise returns what [createLayout] makes for the id and the type
    of the widget, a layout of the message the id names, and caches it:
    afterwards the id is cached with the layout returned and not stale,
    no other entry has changed, and asking again gives the same layout
    and changes nothing.  When [createLayout] makes no layout the widget
    is left as it was. *)
Theorem getLayout_caches w (universalId : Z) :
  universalId ≠ 0 ->
  exists w' layout,
    ListWidget.getLayout w universalId = Some (w', layout)
    ∧ (forall k, k ≠ universalId ->
         ListWidget._layouts w' !! k = ListWidget._layouts w !! k)
    ∧ (forall cached, ListWidget._layouts w !! universalId = Some cached ->
         layout = Some (ListWidget.cached_item cached))
    ∧ (ListWidget._layouts w !! universalId = None ->
       ListWidget.createLayout w universalId (ListWidget._type w)
       = Some layout
       ∧ forall l, layout = Some l ->
           exists fullId,
             ListWidget.computeFullId w universalId = Some fullId
             ∧ histItemById fullId = Some (getItem l))
    ∧ match layout with
      | Some l =>
          ListWidget._layouts w' !! universalId
          = Some (ListWidget.mkCached l false)
          ∧ ListWidget.getLayout w' universalId = Some (w', Some l)
      | None => w' = w ∧ ListWidget._layouts w !! universalId = None
      end.
Proof.
  intros Hne.
  assert (forall l,
            let w' :=
              ListWidget.set_layouts
                (<[universalId := ListWidget.mkCached l false]>
                   (ListWidget._layouts w)) w in
            (forall k, k ≠ universalId ->
               ListWidget._layouts w' !! k = ListWidget._layouts w !! k)
            ∧ ListWidget._layouts w' !! universalId
              = Some (ListWidget.mkCached l false)
            ∧ ListWidget.getLayout w' universalId = Some (w', Some l))
    as Hcached.
  { intros l. simpl. split; [|split].
    - intros k Hk. by apply lookup_insert_ne.
    - apply lookup_insert_eq.
    - unfold ListWidget.getLayout. simpl. rewrite lookup_insert_eq. simpl.
      by rewrite insert_insert_eq. }
  unfold ListWidget.getLayout.
  destruct (ListWidget._layouts w !! universalId) as [cached|] eqn:Hc.
  - destruct (Hcached (ListWidget.cached_item cached)) as (? & ? & ?).
    eexists _, _. split; [done|]. split; [done|].
    split; [by intros ? [= <-]|]. split; [done|]. by split.
  - assert (forall created,
              ListWidget.createLayout w universalId (ListWidget._type w)
              = Some created ->
              forall l, created = Some l ->
                exists fullId,
                  ListWidget.computeFullId w universalId = Some fullId
                  ∧ histItemById fullId = Some (getItem l)) as Hmade.
    { unfold ListWidget.createLayout. intros created Hcreated l ->.
      destruct (ListWidget.computeFullId w universalId) as [fullId|]; [|done].
      cbn [mbind option_bind] in Hcreated. injection Hcreated as Hcreated.
      exists fullId. split; [done|].
      destruct (histItemById fullId) as [item|]; [|done].
      destruct (ListWidget._type w); repeat case_match; by simplify_eq. }
    destruct (ListWidget.createLayout w universalId (ListWidget._type w))
      as [[l|]|] eqn:Hcreate.
    + cbn [mbind option_bind]. destruct (Hcached l) as (? & ? & ?).
      eexists _, _. split; [done|]. split; [done|]. split; [done|].
      split; [intros _; split; [done|by apply Hmade]|]. by split.
    + cbn [mbind option_bind].
      eexists _, _. split; [done|]. split; [done|]. split; [done|].
      split; [intros _; split; [done|by apply Hmade]|]. by split.
    + unfold ListWidget.createLayout in Hcreate.
      destruct (computeFullId_is_Some w universalId Hne) as [fullId Hfull].
      by rewrite Hfull in Hcreate.
Qed.

(** X18.  Marking and sweeping: [markLayoutsStale] marks every cached
    layout and drops none; [clearStaleLayouts] keeps exactly the entries
    that are not stale, as they are, and forgets the hovered layout when
    its entry is swept; neither touches the rows or the selection. *)
Theorem clearStaleLayouts_sweeps w :
  (forall k,
     ListWidget._layouts (ListWidget.markLayoutsStale w) !! k
     = (fun cached =>
          ListWidget.mkCached (ListWidget.cached_item cached) true)
         <$> ListWidget._layouts w !! k)
  ∧ (forall k cached,
       ListWidget._layouts (ListWidget.clearStaleLayouts w) !! k = Some cached
       <-> ListWidget._layouts w !! k = Some cached
           ∧ ListWidget.stale cached = false)
  ∧ (forall over,
       ListWidget._overLayout (ListWidget.clearStaleLayouts w) = Some over ->
       ListWidget._overLayout w = Some over
       ∧ forall cached,
           ListWidget._layouts w !! GetUniversalId_layout over = Some cached ->
           ListWidget._layouts (ListWidget.clearStaleLayouts w)
             !! GetUniversalId_layout over = Some cached)
  ∧ ListWidget._sections (ListWidget.clearStaleLayouts w)
    = ListWidget._sections w
  ∧ ListWidget._selected (ListWidget.clearStaleLayouts w)
    = ListWidget._selected w
  ∧ ListWidget._layouts (ListWidget.clearStaleLayouts
                           (ListWidget.markLayoutsStale w)) = ∅.
Proof.
  assert (forall w k cached,
            ListWidget._layouts (ListWidget.clearStaleLayouts w) !! k
            = Some cached
            <-> ListWidget._layouts w !! k = Some cached
                ∧ ListWidget.stale cached = false) as Hsweep.
  { intros w0 k cached. unfold ListWidget.clearStaleLayouts.
    destruct (match ListWidget._overLayout w0 with
              | Some _ => _ | None => _ end); simpl;
      by rewrite map_lookup_filter_Some. }
  split; [|split; [|split; [|split; [|split]]]].
  - intros k. unfold ListWidget.markLayoutsStale. simpl.
    by rewrite lookup_fmap.
  - apply Hsweep.
  - intros over Hover'.
    assert (ListWidget._overLayout w = Some over
            ∧ forall cached,
                ListWidget._layouts w !! GetUniversalId_layout over
                = Some cached -> ListWidget.stale cached = false)
      as [Hover Hfresh].
    { revert Hover'. unfold ListWidget.clearStaleLayouts.
      destruct (ListWidget._overLayout w) as [over0|] eqn:Ho;
        [|simpl; by rewrite Ho].
      destruct (ListWidget._layouts w !! GetUniversalId_layout over0)
        as [cached0|] eqn:Hcached;
        [destruct (ListWidget.stale cached0) eqn:Hstale|];
        simpl; rewrite ?Ho; try done;
        intros [= <-]; (split; [done|]); intros cached; congruence. }
    split; [done|]. intros cached Hc. apply Hsweep. split; [done|].
    by apply Hfresh.
  - unfold ListWidget.clearStaleLayouts.
    by destruct (match ListWidget._overLayout w with
                 | Some _ => _ | None => _ end).
  - unfold ListWidget.clearStaleLayouts.
    by destruct (match ListWidget._overLayout w with
                 | Some _ => _ | None => _ end).
  - apply map_eq. intros k. rewrite lookup_empty.
    destruct (ListWidget._layouts _ !! k) as [cached|] eqn:Hk; [|done].
    apply Hsweep in Hk as [Hk Hfresh].
    unfold ListWidget.markLayoutsStale in Hk. simpl in Hk.
    rewrite lookup_fmap in Hk.
    destruct (ListWidget._layouts w !! k); [|done].
    injection Hk as <-. done.
Qed.

End layout_cache.

Lemma getLayout_caches_witness :
  exists w',
    ListWidget.getLayout (host := demoHost) (demoWidget Photo ∅ [] []) 5
    = Some (w', Some (demoPhoto 5))
    ∧ ListWidget._layouts w' !! 5
      = Some (ListWidget.mkCached (demoPhoto 5) false).
Proof.
  destruct (getLayout_caches (host := demoHost) (demoWidget Photo ∅ [] []) 5)
    as (w' & layout & Hget & _ & _ & Hmade & Hcached); [done|].
  destruct (Hmade eq_refl) as [Hcreate _].
  assert (layout = Some (demoPhoto 5)) as ->
    by (vm_compute in Hcreate; injection Hcreate as <-; vm_compute;
        reflexivity).
  exists w'. split; [exact Hget|exact (proj1 Hcached)].
Defined.

(** ** The scroll anchor and the mouse position *)

Section scroll_anchor.
Context {sty : Style} {host : Host}.

Implicit Types (w : ListWidget.t) (s : MSection.t).

Lemma findItemByPoint_found w point :
  ListWidget._sections w ≠ [] ->
  (forall s, s ∈ ListWidget._sections w -> MSection._items s ≠ []) ->
  exists k s e exact,
    ListWidget._sections w !! k = Some s ∧ e ∈ MSection._items s
    ∧ ListWidget.findItemByPoint w point
      = Some (mkFound e.2
                (translated (MSection.findItemRect s e.2) 0 (MSection._top s))
                exact).
Proof.
  intros Hrows Hne. unfold ListWidget.findItemByPoint.
  rewrite option_guard_True by done. cbn [mbind option_bind].
  assert (0 < length (ListWidget._sections w))%nat as Hlen
    by (destruct (ListWidget._sections w); [done|simpl; lia]).
  destruct (lookup_lt_is_Some_2 (ListWidget._sections w)
              (MSection.clampToLast (length (ListWidget._sections w))
                 (ListWidget.findSectionAfterTop w (py point)))) as [s Hs].
  { apply clampToLast_lt; [done|]. apply lower_bound_le_length. }
  rewrite Hs. cbn [mbind option_bind].
  pose proof (list_elem_of_lookup_2 _ _ _ Hs) as Hin.
  destruct (findItemByPoint_member s
              (point_sub point (mkPoint 0 (MSection._top s))) (Hne s Hin))
    as (e & He & ->).
  cbn [mbind option_bind]. by eexists _, s, e, _.
Qed.

(** X19.  Saving the scroll anchor and restoring it over the same rows
    asks for no scrolling: [saveScrollState] takes the item at the top of
    the viewport with the offset into it, [restoreScrollState] finds that
    item again at the same place, so the widget ends as it was, with the
    anchor cleared and no effect sent. *)
Theorem scroll_anchor_round_trip w :
  rowsWellFormed w ->
  (forall s, s ∈ ListWidget._sections w ->
     0 ∉ flat_map.keys (MSection._items s)) ->
  ListWidget.scroll_item (ListWidget._scrollTopState w) = 0 ->
  exists w1,
    ListWidget.saveScrollState w = Some w1
    ∧ ListWidget.restoreScrollState w1
      = Some (ListWidget.set_scrollTopState (ListWidget.mkScrollTop 0 0) w).
Proof.
  intros Hwf Hzero Hnone.
  unfold ListWidget.saveScrollState, ListWidget.countScrollState.
  rewrite Hnone. simpl.
  destruct (ListWidget._sections w) as [|s0 rest] eqn:Hsec.
  { cbn [mbind option_bind]. eexists. split; [done|].
    unfold ListWidget.restoreScrollState. simpl. by rewrite Hsec. }
  destruct (findItemByPoint_found w (mkPoint 0 (ListWidget._visibleTop w)))
    as (k & s & e & exact & Hk & He & ->).
  { by rewrite Hsec. }
  { intros s Hs. apply (proj1 Hwf s Hs). }
  cbn [mbind option_bind]. eexists. split; [done|].
  pose proof (list_elem_of_lookup_2 _ _ _ Hk) as Hs.
  destruct (proj1 Hwf s Hs) as (Hne & Hsorted & Hkeyed).
  set (universalId := GetUniversalId_layout e.2).
  assert (e.1 = universalId) as Hkey by by apply Hkeyed.
  assert (universalId ∈ flat_map.keys (MSection._items s)) as Hin.
  { apply keys_elem. exists e.2. rewrite <- Hkey. by destruct e. }
  assert (universalId ≠ 0) as Hnz.
  { intros Heq. apply (Hzero s); [by rewrite <- Hsec|]. by rewrite <- Heq. }
  destruct (findSectionByItem_owner w universalId Hwf)
    as (sectionIt & Hfind & Hother).
  assert (sectionIt = k) as ->.
  { destruct (decide (k = sectionIt)) as [->|Hne']; [done|].
    by destruct (Hother k s Hk Hne'). }
  destruct (findItemNearId_spec s universalId Hne Hsorted Hkeyed)
    as (e0 & He0 & Hnear & Hpresent & _).
  assert (e0 = e) as ->.
  { apply (sorted_gtb_unique (MSection._items s)); try done.
    rewrite (Hpresent Hin). done. }
  unfold ListWidget.restoreScrollState. simpl.
  rewrite bool_decide_eq_false_2 by (by rewrite Hsec).
  fold universalId. replace (universalId =? 0) with false by lia. simpl.
  change (ListWidget.findSectionByItem _ universalId)
    with (ListWidget.findSectionByItem w universalId).
  rewrite Hfind. cbn [mbind option_bind].
  rewrite clampToLast_id by (by eapply lookup_lt_Some).
  rewrite Hk. cbn [mbind option_bind]. rewrite Hnear.
  cbn [mbind option_bind]. simpl.
  replace (_ =? _) with true by lia. done.
Qed.

(** X20.  [clampMousePosition] brings a point into the visible part of
    the widget: with a viewport that is not empty the result lies between
    its top and its bottom and between 0 and the last column, and a point
    already there is returned as it is. *)
Theorem clampMousePosition_inside w (position : QPoint) :
  ListWidget._visibleTop w < ListWidget._visibleBottom w ->
  let clamped := ListWidget.clampMousePosition w position in
  0 <= px clamped <= Z.max 0 (sw (ListWidget.widget_size w) - 1)
  ∧ ListWidget._visibleTop w <= py clamped < ListWidget._visibleBottom w
  ∧ (0 <= px position <= Z.max 0 (sw (ListWidget.widget_size w) - 1) ->
     ListWidget._visibleTop w <= py position < ListWidget._visibleBottom w ->
     clamped = position)
  ∧ ListWidget.clampMousePosition w clamped = clamped.
Proof.
  intros Hview. simpl.
  unfold ListWidget.clampMousePosition, ListWidget.clamp. simpl.
  repeat case_match; repeat split; try lia;
    try (intros; destruct position; simpl in *; f_equal; lia).
Qed.

End scroll_anchor.

Lemma scroll_anchor_round_trip_witness :
  exists w1,
    ListWidget.saveScrollState (sty := demoStyle) demoRows = Some w1
    ∧ ListWidget.restoreScrollState (sty := demoStyle) w1
      = Some (ListWidget.set_scrollTopState (ListWidget.mkScrollTop 0 0)
                demoRows).
Proof.
  assert (rowsWellFormed demoRows) as Hrows.
  { split.
    - intros s ->%list_elem_of_singleton. split; [by vm_compute|].
      split; [vm_compute; by repeat split|].
      intros e He. vm_compute in He.
      repeat (apply elem_of_cons in He as [->|He]; [done|]).
      by apply elem_of_nil in He.
    - intros i j s s' e e' Hij Hi Hj. destruct j; [lia|done]. }
  apply (scroll_anchor_round_trip (sty := demoStyle) demoRows Hrows);
    [|reflexivity].
  intros s ->%list_elem_of_singleton Hk. vm_compute in Hk.
  repeat (apply elem_of_cons in Hk as [Hk|Hk]; [done|]).
  by apply elem_of_nil in Hk.
Defined.

Lemma clampMousePosition_inside_witness :
  ListWidget.clampMousePosition demoRows
    (ListWidget.clampMousePosition demoRows (mkPoint 500 900))
  = ListWidget.clampMousePosition demoRows (mkPoint 500 900).
Proof.
  destruct (clampMousePosition_inside demoRows (mkPoint 500 900))
    as (_ & _ & _ & Hagain); [by vm_compute|].
  exact Hagain.
Defined.

(** ** The rows [refreshRows] builds *)

Section refresh_rows.
Context {sty : Style} {host : Host}.

Implicit Types (w : ListWidget.t) (s : MSection.t).

Lemma repaintItem_sections w universalId w' :
  ListWidget.repaintItem w universalId = Some w' ->
  ListWidget._sections w' = ListWidget._sections w.
Proof.
  unfold ListWidget.repaintItem.
  destruct (ListWidget.findItemById w universalId) as [[item|]|];
    by intros [= <-].
Qed.

Lemma clearDragSelection_sections w :
  ListWidget._sections (ListWidget.clearDragSelection w)
  = ListWidget._sections w.
Proof.
  unfold ListWidget.clearDragSelection. simpl.
  by destruct (ListWidget._dragSelected w).
Qed.

Lemma applyItemSelection_sections w universalId selection w' :
  ListWidget.applyItemSelection w universalId selection = Some w' ->
  ListWidget._sections w' = ListWidget._sections w.
Proof.
  unfold ListWidget.applyItemSelection.
  destruct (ListWidget.changeItemSelection _ _ _ _) as [[selected changed]|];
    [|done].
  cbn [mbind option_bind]. destruct changed; [|by intros [= <-]].
  destruct (ListWidget.repaintItem _ _) as [w1|] eqn:Hrepaint; [|done].
  apply repaintItem_sections in Hrepaint.
  cbn [mbind option_bind]. unfold ListWidget.pushSelectedItems.
  destruct (ListWidget.collectSelectedItems w1); [|done].
  by intros [= <-].
Qed.

Lemma updateTextSelection_sections w layout dragState w' :
  ListWidget.updateTextSelection w layout dragState = Some w' ->
  ListWidget._sections w' = ListWidget._sections w.
Proof.
  unfold ListWidget.updateTextSelection.
  destruct (ListWidget.applyItemSelection _ _ _) as [w1|] eqn:Happly; [|done].
  apply applyItemSelection_sections in Happly.
  cbn [mbind option_bind]. intros [= <-].
  rewrite clearDragSelection_sections. by destruct (negb _ && _).
Qed.

Lemma updateDragSelection_sections w w' :
  ListWidget.updateDragSelection w = Some w' ->
  ListWidget._sections w' = ListWidget._sections w.
Proof.
  unfold ListWidget.updateDragSelection.
  destruct (if ListWidget.IsAfter _ _ then _ else _) as [fromState tillState].
  destruct (_ || _);
    [intros [= <-]; apply clearDragSelection_sections|].
  destruct (ListWidget.dragSelectLayouts _ _ _ _ _) as [dragSelected|];
    [|done].
  cbn [mbind option_bind]. intros [= <-].
  by destruct (negb _ && _ && _).
Qed.

Lemma mouseActionUpdate_sections w screenPos w' :
  ListWidget.mouseActionUpdate w screenPos = Some w' ->
  ListWidget._sections w' = ListWidget._sections w.
Proof.
  unfold ListWidget.mouseActionUpdate.
  destruct (_ || _); [by intros [= <-]|].
  destruct (ListWidget.findItemByPoint _ _) as [found|]; [|done].
  cbn [mbind option_bind].
  set (w0 := ListWidget.set_mousePosition screenPos w).
  destruct (if ListWidget.isItemLayout _ _ then _ else _) as [w1|] eqn:Hover; [|done].
  assert (ListWidget._sections w1 = ListWidget._sections w) as Hw1.
  { destruct (ListWidget.isItemLayout _ _); [by injection Hover as <-|].
    destruct (ListWidget.repaintLayout w0 _) as [w2|] eqn:Hrepaint; [|done].
    injection Hover as <-. simpl.
    unfold ListWidget.repaintLayout in Hrepaint.
    destruct (ListWidget._overLayout w0);
      [by apply repaintItem_sections in Hrepaint|by injection Hrepaint as <-]. }
  cbn [mbind option_bind].
  set (w2 := ListWidget.set_clickActive _ _).
  assert (ListWidget._sections w2 = ListWidget._sections w) as Hw2.
  { subst w2. simpl. destruct (_ || _); [|done].
    by destruct (ListWidget._mouseAction _). }
  clearbody w2.
  destruct (ListWidget._mouseAction w2); try by intros [= <-].
  destruct (_ && _).
  - intros ->%updateTextSelection_sections. done.
  - destruct (negb _); [|by intros [= <-]].
    intros ->%updateDragSelection_sections. done.
Qed.

Lemma restoreScrollState_sections w w' :
  ListWidget.restoreScrollState w = Some w' ->
  ListWidget._sections w' = ListWidget._sections w.
Proof.
  unfold ListWidget.restoreScrollState.
  destruct (_ || _); [by intros [= <-]|].
  destruct (ListWidget.findSectionByItem _ _); [|done].
  cbn [mbind option_bind].
  destruct (ListWidget._sections w !! _); [|done].
  cbn [mbind option_bind].
  destruct (MSection.findItemNearId _ _); [|done].
  cbn [mbind option_bind]. intros [= <-]. by destruct (_ =? _).
Qed.

Lemma addItem_filed s item s' ok :
  filed s -> MSection.addItem s item = Some (s', ok) ->
  filed s' ∧ MSection._items s' ≠ []
  ∧ (ok = false -> s' = s).
Proof.
  intros (Hsorted & Hkeyed & Huniform) Hadd.
  pose proof (addItem_uniform s item s' ok Huniform Hadd) as Huniform'.
  rewrite addItem_eq in Hadd.
  destruct (accepts s item) eqn:Haccepts; injection Hadd as <- <-.
  - set (s0 := if MSection.empty s then _ else s) in *.
    assert (MSection._items s0 = MSection._items s) as Hitems
      by (subst s0; by destruct (MSection.empty s)).
    destruct (appendItem_sorted_keyed s0 item (fun _ => True))
      as (Hsorted' & Hkeyed' & _); rewrite ?Hitems; try done.
    split; [done|]. split; [apply fm_emplace_nonempty|done].
  - split; [done|]. split; [|done]. intros Hnil.
    unfold accepts in Haccepts. by rewrite Hnil in Haccepts.
Qed.

Lemma create_filed type : filed (MSection.create type).
Proof.
  split; [done|]. split; [by intros e He%elem_of_nil|].
  by intros e e' He%elem_of_nil.
Qed.

Lemma buildSections_filed w ids sections section w' sections' section' :
  ListWidget.buildSections w ids sections section
  = Some (w', sections', section') ->
  (forall s, s ∈ sections -> MSection._items s ≠ [] ∧ filed s) ->
  filed section ->
  (forall s, s ∈ sections' -> MSection._items s ≠ [] ∧ filed s)
  ∧ filed section'.
Proof.
  revert w sections section.
  induction ids as [|id ids IH]; intros w sections section Hbuild Hall Hopen;
    simpl in Hbuild.
  - by injection Hbuild as <- <- <-.
  - destruct (ListWidget.getLayout w _) as [[w1 [layout|]]|]; [| |done];
      cbn [mbind option_bind] in Hbuild; [|by eapply IH].
    destruct (MSection.addItem section layout) as [[added ok]|] eqn:Hadd;
      [|done].
    cbn [mbind option_bind] in Hbuild.
    destruct (addItem_filed _ _ _ _ Hopen Hadd) as (Hadded & Hne & Hsame).
    destruct ok; [by eapply IH|].
    specialize (Hsame eq_refl) as ->.
    eapply IH; [exact Hbuild| |].
    2: { by apply (addItem_filed (MSection.create (ListWidget._type w1))
                     layout _ true (create_filed _)). }
    intros s [Hs| ->%list_elem_of_singleton]%elem_of_app; [by apply Hall|done].
Qed.

(** Items under the same ids, holding the same messages. *)
Lemma refiled_filed s s' :
  MSection._type s' = MSection._type s ->
  Forall2 (fun e e' => e'.1 = e.1 ∧ getItem e'.2 = getItem e.2)
    (MSection._items s) (MSection._items s') ->
  MSection._items s ≠ [] ∧ filed s -> MSection._items s' ≠ [] ∧ filed s'.
Proof.
  intros Htype Hitems (Hne & Hsorted & Hkeyed & Huniform).
  assert (forall e', e' ∈ MSection._items s' ->
            exists e, e ∈ MSection._items s ∧ e'.1 = e.1
              ∧ getItem e'.2 = getItem e.2) as Hfrom.
  { intros e' [i Hi]%list_elem_of_lookup_1.
    destruct (Forall2_lookup_r _ _ _ _ _ Hitems Hi) as (e & He & ? & ?).
    exists e. split; [by eapply list_elem_of_lookup_2|done]. }
  split; [|split; [|split]].
  - intros Hnil. rewrite Hnil in Hitems. by inversion Hitems.
  - eapply (fm_sorted_keys Z.gtb); [|exact Hsorted].
    unfold flat_map.keys. clear -Hitems.
    induction Hitems as [|e e' l l' [Hk _] _ IH]; [done|].
    simpl. by rewrite Hk, IH.
  - intros e' (e & He & Hk & Hi)%Hfrom.
    unfold GetUniversalId_layout. rewrite Hk, Hi. by apply Hkeyed.
  - intros e1' e2' (e1 & He1 & _ & Hi1)%Hfrom (e2 & He2 & _ & Hi2)%Hfrom.
    rewrite Htype, Hi1, Hi2. by apply Huniform.
Qed.

Lemma resizeToWidth_refiled s (newWidth : Z) :
  let s' := MSection.resizeToWidth s newWidth in
  MSection._type s' = MSection._type s
  ∧ Forall2 (fun e e' => e'.1 = e.1 ∧ getItem e'.2 = getItem e.2)
      (MSection._items s) (MSection._items s').
Proof.
  simpl. unfold MSection.resizeToWidth.
  destruct (newWidth <? _).
  { split; [done|]. by apply Forall_Forall2_diag, Forall_true. }
  assert (forall itemsLeft itemsTop itemsInRow itemWidth,
            let s' := MSection.refreshHeight
                        (MSection.resizeItems s itemsLeft itemsTop itemsInRow
                           itemWidth) in
            MSection._type s' = MSection._type s
            ∧ Forall2 (fun e e' => e'.1 = e.1 ∧ getItem e'.2 = getItem e.2)
                (MSection._items s) (MSection._items s')) as Hany.
  { intros itemsLeft itemsTop itemsInRow itemWidth. simpl. split.
    - by destruct (refreshHeight_frame
                     (MSection.resizeItems s itemsLeft itemsTop itemsInRow
                        itemWidth)) as [-> _].
    - eapply Forall2_impl; [apply resizeToWidth_items|].
      intros e e' [Hk He]. split; [done|]. by rewrite He. }
  destruct (MSection._type s); apply Hany.
Qed.

Lemma placeSections_refiled (sections : list MSection.t) result s' :
  s' ∈ (ListWidget.placeSections sections result).1 ->
  exists s, s ∈ sections ∧ MSection._type s' = MSection._type s
    ∧ MSection._items s' = MSection._items s.
Proof.
  revert result. induction sections as [|s sections IH]; intros result;
    simpl; [by intros ?%elem_of_nil|].
  specialize (IH (result + MSection._height (MSection.setTop s result))).
  destruct (ListWidget.placeSections sections _) as [rest final].
  simpl in *. intros [->|Hs']%elem_of_cons.
  - exists s. split; [by left|done].
  - destruct (IH Hs') as (s0 & Hs0 & ? & ?). exists s0.
    split; [by right|done].
Qed.

Lemma widget_resizeToWidth_filed w (newWidth : Z) :
  (forall s, s ∈ ListWidget._sections w -> MSection._items s ≠ [] ∧ filed s) ->
  forall s, s ∈ ListWidget._sections (ListWidget.resizeToWidth w newWidth) ->
    MSection._items s ≠ [] ∧ filed s.
Proof.
  intros Hall s'.
  unfold ListWidget.resizeToWidth, ListWidget.resizeGetHeight.
  set (w1 := if 0 <? newWidth then _ else w).
  assert (forall s, s ∈ ListWidget._sections w1 ->
            MSection._items s ≠ [] ∧ filed s) as Hall1.
  { subst w1. destruct (0 <? newWidth); [|done]. simpl.
    intros s (s0 & -> & Hs0)%list_elem_of_fmap.
    destruct (resizeToWidth_refiled s0 newWidth) as [Htype Hitems].
    eapply refiled_filed; [exact Htype|exact Hitems|by apply Hall]. }
  clearbody w1. unfold ListWidget.recountHeight.
  destruct (match ListWidget._sections w1 with [] => _ | _ => _ end).
  - destruct (bool_decide _); simpl; apply Hall1.
  - destruct (ListWidget.placeSections _ _) as [sections result] eqn:Hplace.
    assert (s' ∈ sections -> MSection._items s' ≠ [] ∧ filed s') as Hplaced.
    { intros Hs'.
      destruct (placeSections_refiled (ListWidget._sections w1)
                  (mtop ListWidget.padding) s') as (s & Hs & Htype & Hitems);
        [by rewrite Hplace|].
      eapply refiled_filed; [exact Htype| |by apply Hall1].
      rewrite Hitems. by apply Forall_Forall2_diag, Forall_true. }
    by destruct (bool_decide _).
Qed.

(** X21.  Whatever slice it is given, [refreshRows] leaves rows in which
    no Section is empty and every Section is sorted by id, newest first,
    files each item under the id of its own message and holds items of
    one month only (one day for links; any date for voice messages and
    music). *)
Theorem refreshRows_files w w' :
  ListWidget.refreshRows w = Some w' ->
  forall s, s ∈ ListWidget._sections w' ->
    MSection._items s ≠ []
    ∧ flat_map.sorted Z.gtb (MSection._items s)
    ∧ keyed (MSection._items s) ∧ uniform s.
Proof.
  unfold ListWidget.refreshRows, ListWidget.mouseActionUpdate_.
  destruct (ListWidget.saveScrollState w) as [w1|]; [|done].
  cbn [mbind option_bind].
  destruct (ListWidget.buildSections _ _ _ _)
    as [[[w2 sections] section]|] eqn:Hbuild; [|done].
  cbn [mbind option_bind].
  destruct (buildSections_filed _ _ _ _ _ _ _ Hbuild) as [Hall Hopen];
    [by intros s ?%elem_of_nil|apply create_filed|].
  set (rows := if MSection.empty section then _ else _).
  assert (forall s, s ∈ rows -> MSection._items s ≠ [] ∧ filed s) as Hrows.
  { subst rows. unfold MSection.empty.
    destruct (MSection._items section) eqn:Hitems; [done|].
    intros s [Hs| ->%list_elem_of_singleton]%elem_of_app; [by apply Hall|].
    split; [by rewrite Hitems|done]. }
  clearbody rows.
  set (w3 := ListWidget.clearStaleLayouts _).
  assert (ListWidget._sections w3 = rows) as Hw3.
  { subst w3. unfold ListWidget.clearStaleLayouts. simpl.
    repeat case_match; done. }
  clearbody w3.
  destruct (ListWidget.restoreScrollState _) as [w4|] eqn:Hrestore; [|done].
  cbn [mbind option_bind].
  intros Hmouse%mouseActionUpdate_sections s.
  rewrite Hmouse, (restoreScrollState_sections _ _ Hrestore).
  apply widget_resizeToWidth_filed. by rewrite Hw3.
Qed.

End refresh_rows.

Lemma refreshRows_files_witness :
  exists w',
    ListWidget.refreshRows (sty := demoStyle) (host := demoHost) demoSliced
    = Some w'
    ∧ (fun s => flat_map.keys (MSection._items s))
        <$> ListWidget._sections w' = [[203]; [102; 101]]
    ∧ forall s, s ∈ ListWidget._sections w' ->
        MSection._items s ≠ []
        ∧ flat_map.sorted Z.gtb (MSection._items s)
        ∧ keyed (MSection._items s) ∧ uniform s.
Proof.
  assert (exists w',
            ListWidget.refreshRows (sty := demoStyle) (host := demoHost)
              demoSliced = Some w'
            ∧ (fun s => flat_map.keys (MSection._items s))
                <$> ListWidget._sections w' = [[203]; [102; 101]])
    as (w' & Hrefresh & Hkeys)
    by (eexists; split; vm_compute; reflexivity).
  exists w'. split; [exact Hrefresh|]. split; [exact Hkeys|].
  exact (refreshRows_files (sty := demoStyle) (host := demoHost) demoSliced
           w' Hrefresh).
Defined.

(** ** The memento *)

Section memento.
Context {sty : Style} {host : Host}.

Implicit Types (w : ListWidget.t).

Lemma computeFullId_own w w0 (universalId : Z) :
  ListWidget._peer w0 = ListWidget._peer w ->
  ListWidget._migrated w0 = ListWidget._migrated w ->
  ownId w universalId ->
  exists fullId,
    ListWidget.computeFullId w universalId = Some fullId
    ∧ GetUniversalId fullId = universalId
    ∧ ListWidget.isPossiblyMyId w0 fullId = true.
Proof.
  intros Hpeer Hmigrated (Hrange & Hne & Hpos & Hneg).
  unfold ListWidget.computeFullId, ListWidget.isPossiblyMyId.
  rewrite option_guard_True by done. cbn [mbind option_bind].
  rewrite Hpeer, Hmigrated.
  eexists. split; [done|]. unfold GetUniversalId, is_int32 in *.
  destruct (0 <? universalId) eqn:Hsign; simpl.
  - destruct Hpos as [-> Hbare]; [lia|].
    unfold NoChannel in Hbare.
    replace (bareId (ListWidget._peer w) =? 0) with false by lia.
    simpl. split; [done|]. by rewrite Z.eqb_refl.
  - unfold NoChannel, ServerMaxMsgId, int32. simpl.
    rewrite (Z.mod_small (1073741823 + universalId + 2 ^ 31)) by lia.
    replace (1073741823 + universalId + 2 ^ 31 - 2 ^ 31 - 1073741823)
      with universalId by lia.
    rewrite Z.mod_small by lia. split; [lia|].
    destruct Hneg as [->|Hm]; [lia|done|].
    rewrite bool_decide_eq_true_2 by done. apply orb_true_r.
Qed.

(** X22.  What [saveState] writes, [restoreState] reads back: when the
    widget shows items around an id of its own, with an item of its own
    at the top of the viewport and a limit that is not 0, the memento
    restored into a widget of the same peers gives it the same around-id,
    the same limit and the scroll anchor [countScrollState] found, and
    asks for the slice around that id. *)
Theorem restoreState_saveState (kDefaultAroundId : Z) w w0 memento0 state :
  ListWidget._peer w0 = ListWidget._peer w ->
  ListWidget._migrated w0 = ListWidget._migrated w ->
  ListWidget._universalAroundId w ≠ kDefaultAroundId ->
  ListWidget._idsLimit w ≠ 0 ->
  ListWidget.countScrollState w = Some state ->
  ownId w (ListWidget._universalAroundId w) ->
  ownId w (ListWidget.scroll_item state) ->
  exists memento,
    saveState kDefaultAroundId w memento0 = Some memento
    ∧ ListWidget._universalAroundId (restoreState w0 memento)
      = ListWidget._universalAroundId w
    ∧ ListWidget._idsLimit (restoreState w0 memento) = ListWidget._idsLimit w
    ∧ ListWidget._scrollTopState (restoreState w0 memento) = state
    ∧ ListWidget._viewer (restoreState w0 memento)
      = Some (ListWidget.key_universalId
                (ListWidget.sliceKey w (ListWidget._universalAroundId w))).
Proof.
  intros Hpeer Hmigrated Haround Hlimit Hstate Hown Htop.
  destruct (computeFullId_own w w0 _ Hpeer Hmigrated Hown)
    as (aroundId & Ha & Hback & Hmine).
  destruct (computeFullId_own w w0 _ Hpeer Hmigrated Htop)
    as (topId & Ht & Htback & _).
  unfold saveState.
  replace (_ =? kDefaultAroundId) with false by lia.
  rewrite Hstate. cbn [negb mbind option_bind].
  replace (ListWidget.scroll_item state =? 0) with false
    by (destruct Htop as (_ & ? & _); lia).
  cbn [negb]. rewrite Ha, Ht. cbn [mbind option_bind].
  eexists. split; [done|].
  unfold restoreState. cbn [memento_idsLimit memento_aroundId
    memento_scrollTopItem memento_scrollTopShift].
  replace (ListWidget._idsLimit w =? 0) with false by lia.
  cbn [negb]. rewrite Hmine, Hback, Htback.
  unfold ListWidget.refreshViewer, ListWidget.sliceKey. simpl.
  rewrite Hpeer, Hmigrated. repeat split. by destruct state.
Qed.

End memento.

Lemma restoreState_saveState_witness :
  exists memento,
    saveState (sty := demoStyle) 1073741822 demoAround
      (mkMemento (mkFullMsgId 0 0) 0 (mkFullMsgId 0 0) 0) = Some memento
    ∧ ListWidget._universalAroundId
        (restoreState (demoWidget Photo ∅ [] []) memento) = 104
    ∧ ListWidget._scrollTopState
        (restoreState (demoWidget Photo ∅ [] []) memento)
      = ListWidget.mkScrollTop 106 (-33).
Proof.
  assert (ListWidget.countScrollState (sty := demoStyle) demoAround
          = Some (ListWidget.mkScrollTop 106 (-33))) as Hstate
    by (vm_compute; reflexivity).
  destruct (restoreState_saveState (sty := demoStyle) 1073741822 demoAround
              (demoWidget Photo ∅ [] [])
              (mkMemento (mkFullMsgId 0 0) 0 (mkFullMsgId 0 0) 0)
              (ListWidget.mkScrollTop 106 (-33)))
    as (memento & Hsave & Haround & _ & Htop & _);
    [reflexivity|reflexivity|by vm_compute|by vm_compute|exact Hstate| | |].
  - unfold ownId, is_int32. vm_compute. repeat split; try done.
  - unfold ownId, is_int32. vm_compute. repeat split; try done.
  - exists memento. split; [exact Hsave|]. split; [exact Haround|exact Htop].
Defined.

